(** * vectara-ingest: the URL normalizer and the indexing pipeline

    A shallow embedding of [core/utils.py], [core/indexer.py] and
    [crawlers/fmp_crawler.py].

    Python [str] values are lists of 8-bit characters.  The external
    libraries the code calls (requests, playwright, unstructured, goose3,
    justext, BeautifulSoup, langdetect, json, slugify, the converters) are
    collaborators of the program: they are gathered in a record [World] of
    oracles over which every statement quantifies.  [urllib.parse] and the
    part of [datetime.strptime] the crawler uses are transcribed from
    CPython 3.11. *)

From Stdlib Require Import List Ascii String Bool Arith ZArith Lia.
Import ListNotations.

Set Warnings "-register-all".

Coercion list_ascii_of_string : string >-> list.
Arguments list_ascii_of_string : simpl never.
Abbreviation str := (list ascii).

Open Scope string_scope.
Open Scope nat_scope.
Open Scope list_scope.

(** ** Python results: a value, or a raised exception *)

Inductive exn : Type :=
| KeyError | TypeError | IndexError | ValueError | AttributeError
| UnicodeDecodeError | JSONDecodeError | HTTPError | ConnectionError
| PlaywrightTimeoutError | OSError | LangDetectException | OtherError.

Inductive outcome (A : Type) : Type :=
| Ok (a : A)
| Raise (e : exn).
Arguments Ok {A} a.
Arguments Raise {A} e.

(** ** Python string primitives *)

Module PyStr.

(** [s.startswith(p)] *)
Fixpoint starts_with (p s : str) : bool :=
  match p, s with
  | [], _ => true
  | _ :: _, [] => false
  | a :: p', b :: s' => Ascii.eqb a b && starts_with p' s'
  end.

(** [s.endswith(p)] *)
Definition ends_with (p s : str) : bool := starts_with (rev p) (rev s).

(** [sub in s] *)
Fixpoint contains (sub s : str) : bool :=
  starts_with sub s ||
  match s with
  | [] => false
  | _ :: s' => contains sub s'
  end.

(** [c in s] for one character *)
Definition has_char (c : ascii) (s : str) : bool :=
  existsb (fun x => Ascii.eqb x c) s.

(** [s.find(c)] for one character; [None] stands for -1 *)
Fixpoint find_char (c : ascii) (s : str) : option nat :=
  match s with
  | [] => None
  | x :: s' => if Ascii.eqb x c then Some 0 else option_map S (find_char c s')
  end.

(** [s.find(c, start)] *)
Definition find_from (c : ascii) (start : nat) (s : str) : option nat :=
  option_map (fun i => start + i) (find_char c (skipn start s)).

(** [s.rfind(c)] *)
Fixpoint rfind_char (c : ascii) (s : str) : option nat :=
  match s with
  | [] => None
  | x :: s' =>
      match rfind_char c s' with
      | Some i => Some (S i)
      | None => if Ascii.eqb x c then Some 0 else None
      end
  end.

(** [s[i:j]] for non-negative indices *)
Definition slice (i j : nat) (s : str) : str := firstn (j - i) (skipn i s).

(** [s.split(c, 1)]: the part before the first [c], and the part after it
    when there is one *)
Definition split_once (c : ascii) (s : str) : str * option str :=
  match find_char c s with
  | Some i => (firstn i s, Some (skipn (S i) s))
  | None => (s, None)
  end.

(** [s.replace(old, new)] for a non-empty [old]: occurrences are found from
    left to right and do not overlap; [skip] counts the characters of a
    matched occurrence still to be passed over *)
Fixpoint replace_go (old new : str) (skip : nat) (s : str) : str :=
  match s with
  | [] => []
  | c :: s' =>
      match skip with
      | S k => replace_go old new k s'
      | O => if starts_with old s
             then new ++ replace_go old new (List.length old - 1) s'
             else c :: replace_go old new 0 s'
      end
  end.

Definition replace (old new s : str) : str := replace_go old new 0 s.

(** [s.split(sep)] for a non-empty [sep] *)
Fixpoint split_go (sep : str) (skip : nat) (cur : str) (s : str) : list str :=
  match s with
  | [] => [rev cur]
  | c :: s' =>
      match skip with
      | S k => split_go sep k cur s'
      | O => if starts_with sep s
             then rev cur :: split_go sep (List.length sep - 1) [] s'
             else split_go sep 0 (c :: cur) s'
      end
  end.

Definition split (sep s : str) : list str := split_go sep 0 [] s.

(** [s.lstrip(chars)] *)
Fixpoint lstrip (chars : str) (s : str) : str :=
  match s with
  | [] => []
  | c :: s' => if has_char c chars then lstrip chars s' else s
  end.

Definition is_upper (c : ascii) : bool :=
  (65 <=? nat_of_ascii c) && (nat_of_ascii c <=? 90).

Definition is_ascii_alpha (c : ascii) : bool :=
  let n := nat_of_ascii c in
  ((65 <=? n) && (n <=? 90)) || ((97 <=? n) && (n <=? 122)).

Definition lower_char (c : ascii) : ascii :=
  if is_upper c then ascii_of_nat (nat_of_ascii c + 32) else c.

(** [s.lower()]: the ASCII capitals are lowered; the code looks at the
    result only for ASCII text (a scheme, the suffix [.ipynb]) *)
Definition lower (s : str) : str := map lower_char s.

(** [s.partition(c)[0]] *)
Definition partition_before (c : ascii) (s : str) : str := fst (split_once c s).

(** [s.rpartition(c)[2]] *)
Definition rpartition_after (c : ascii) (s : str) : str :=
  match rfind_char c s with
  | Some i => skipn (S i) s
  | None => s
  end.

(** [c.isspace()], on the code points below 256 *)
Definition is_space (c : ascii) : bool :=
  let n := nat_of_ascii c in
  ((9 <=? n) && (n <=? 13)) || ((28 <=? n) && (n <=? 32))
  || (n =? 133) || (n =? 160).

(** [s.lstrip()] *)
Fixpoint lstrip_space (s : str) : str :=
  match s with
  | [] => []
  | c :: s' => if is_space c then lstrip_space s' else s
  end.

(** [s.strip()] *)
Definition strip (s : str) : str :=
  rev (lstrip_space (rev (lstrip_space s))).

End PyStr.

(** ** [urllib.parse] (CPython 3.11) *)

Module Urllib.
Import PyStr.

Definition uses_netloc : list str :=
  [ [] : str; "ftp" : str; "http" : str; "gopher" : str; "nntp" : str;
    "telnet" : str; "imap" : str; "wais" : str; "file" : str; "mms" : str;
    "https" : str; "shttp" : str; "snews" : str; "prospero" : str;
    "rtsp" : str; "rtspu" : str; "rsync" : str; "svn" : str;
    "svn+ssh" : str; "sftp" : str; "nfs" : str; "git" : str;
    "git+ssh" : str; "ws" : str; "wss" : str ].

Definition uses_params : list str :=
  [ [] : str; "ftp" : str; "hdl" : str; "prospero" : str; "http" : str;
    "imap" : str; "https" : str; "shttp" : str; "rtsp" : str;
    "rtspu" : str; "sip" : str; "sips" : str; "mms" : str; "sftp" : str;
    "tel" : str ].

Definition str_eqb (a b : str) : bool :=
  if list_eq_dec ascii_dec a b then true else false.

Definition str_in (s : str) (l : list str) : bool := existsb (str_eqb s) l.

(** [scheme_chars]: letters, digits and [+-.] *)
Definition is_scheme_char (c : ascii) : bool :=
  let n := nat_of_ascii c in
  is_ascii_alpha c || ((48 <=? n) && (n <=? 57)) ||
  has_char c ("+-." : str).

(** [_WHATWG_C0_CONTROL_OR_SPACE]: the code points 0 to 32 *)
Definition C0_CONTROL_OR_SPACE : str := map ascii_of_nat (seq 0 33).

(** [_UNSAFE_URL_BYTES_TO_REMOVE = ['\t', '\r', '\n']] *)
Definition UNSAFE_URL_BYTES_TO_REMOVE : str :=
  [ascii_of_nat 9; ascii_of_nat 13; ascii_of_nat 10].

Record SplitResult := mkSplit {
  s_scheme : str; s_netloc : str; s_path : str;
  s_query : str; s_fragment : str }.

Record ParseResult := mkParse {
  scheme : str; netloc : str; path : str;
  params : str; query : str; fragment : str }.

(** [_splitnetloc(url, start)] *)
Definition splitnetloc (url : str) (start : nat) : str * str :=
  let delim :=
    fold_left
      (fun delim c =>
         match find_from c start url with
         | Some wdelim => Nat.min delim wdelim
         | None => delim
         end)
      ("/?#" : str) (List.length url) in
  (slice start delim url, skipn delim url).

(** [_splitparams(url)] *)
Definition splitparams (url : str) : str * str :=
  if has_char "/" url then
    match rfind_char "/" url with
    | Some r =>
        match find_from ";" r url with
        | Some i => (firstn i url, skipn (S i) url)
        | None => (url, [])
        end
    | None => (url, [])
    end
  else
    match find_char ";" url with
    | Some i => (firstn i url, skipn (S i) url)
    | None =>
        (* [i = -1]: [url[:-1], url[0:]] *)
        (removelast url, url)
    end.

Section Parse.

(** [_check_bracketed_host(hostname)] validates an IPv6 or IPvFuture
    literal with [ipaddress] and [re]; it is kept abstract: [true] when it
    returns, [false] when it raises [ValueError]. *)
Variable check_bracketed_host : str -> bool.

(** [_check_bracketed_netloc(netloc)] *)
Definition check_bracketed_netloc (netloc : str) : bool :=
  let hostname_and_port := rpartition_after "@" netloc in
  match split_once "[" hostname_and_port with
  | (before_bracket, Some bracketed) =>
      match before_bracket with
      | _ :: _ => false
      | [] =>
          match split_once "]" bracketed with
          | (hostname, Some port) =>
              match port with
              | [] => check_bracketed_host hostname
              | _ :: _ =>
                  if starts_with (":" : str) port
                  then check_bracketed_host hostname
                  else false
              end
          | (hostname, None) => check_bracketed_host hostname
          end
      end
  | (_, None) =>
      check_bracketed_host (partition_before ":" hostname_and_port)
  end.

(** [urlsplit(url)], step by step.  First the leading C0 controls and
    spaces are stripped and tabs, carriage returns and line feeds are
    removed everywhere. *)
Definition sanitize (url : str) : str :=
  fold_left (fun u b => replace [b] [] u)
            UNSAFE_URL_BYTES_TO_REMOVE
            (lstrip C0_CONTROL_OR_SPACE url).

(** [i = url.find(':')]; when [i > 0], [url[0]] is an ASCII letter and
    [url[:i]] has scheme characters only, the scheme is [url[:i].lower()]
    and the rest is [url[i+1:]] *)
Definition split_scheme (url : str) : str * str :=
  match find_char ":" url with
  | Some i =>
      if (0 <? i)
         && match url with c :: _ => is_ascii_alpha c | [] => false end
         && forallb is_scheme_char (firstn i url)
      then (lower (firstn i url), skipn (S i) url)
      else ([], url)
  | None => ([], url)
  end.

(** [if url[:2] == '//': netloc, url = _splitnetloc(url, 2)], with the
    bracket checks that raise [ValueError("Invalid IPv6 URL")] *)
Definition split_netloc (url : str) : outcome (str * str) :=
  if str_eqb (firstn 2 url) ("//" : str) then
    let '(netloc, url) := splitnetloc url 2 in
    if (has_char "[" netloc && negb (has_char "]" netloc))
       || (has_char "]" netloc && negb (has_char "[" netloc))
    then Raise ValueError
    else if has_char "[" netloc && has_char "]" netloc
    then if check_bracketed_netloc netloc
         then Ok (netloc, url) else Raise ValueError
    else Ok (netloc, url)
  else Ok ([], url).

(** [if '#' in url: url, fragment = url.split('#', 1)], and the same for
    ['?'] and the query *)
Definition split_tail (c : ascii) (url : str) : str * str :=
  match split_once c url with
  | (u, Some f) => (u, f)
  | (u, None) => (u, [])
  end.

(** [_checknetloc] only acts on characters whose NFKC form contains one of
    [/?#@:]; no code point below 256 has such a form, so on the strings
    modelled here it always returns. *)
Definition urlsplit (url : str) : outcome SplitResult :=
  let url := sanitize url in
  let '(scheme, url) := split_scheme url in
  match split_netloc url with
  | Raise e => Raise e
  | Ok (netloc, url) =>
      let '(url, fragment) := split_tail "#" url in
      let '(url, query) := split_tail "?" url in
      Ok (mkSplit scheme netloc url query fragment)
  end.

(** [urlparse(url)] *)
Definition urlparse (url : str) : outcome ParseResult :=
  match urlsplit url with
  | Raise e => Raise e
  | Ok (mkSplit scheme netloc url query fragment) =>
      let '(url, params) :=
        if str_in scheme uses_params && has_char ";" url
        then splitparams url
        else (url, []) in
      Ok (mkParse scheme netloc url params query fragment)
  end.

End Parse.

(** [urlunsplit((scheme, netloc, url, query, fragment))] *)
Definition urlunsplit (r : SplitResult) : str :=
  let '(mkSplit scheme netloc url query fragment) := r in
  let url :=
    if negb (str_eqb netloc [])
       || (negb (str_eqb scheme []) && str_in scheme uses_netloc
           && negb (str_eqb (firstn 2 url) ("//" : str)))
    then
      let url :=
        if negb (str_eqb url []) && negb (str_eqb (firstn 1 url) ("/" : str))
        then "/" ++ url else url in
      "//" ++ netloc ++ url
    else url in
  let url := if negb (str_eqb scheme []) then scheme ++ ":" ++ url else url in
  let url := if negb (str_eqb query []) then url ++ "?" ++ query else url in
  let url := if negb (str_eqb fragment []) then url ++ "#" ++ fragment else url in
  url.

(** [urlunparse(components)], which is what [ParseResult.geturl()] calls *)
Definition urlunparse (r : ParseResult) : str :=
  let '(mkParse scheme netloc url params query fragment) := r in
  let url := if negb (str_eqb params []) then url ++ ";" ++ params else url in
  urlunsplit (mkSplit scheme netloc url query fragment).

Definition geturl (r : ParseResult) : str := urlunparse r.

End Urllib.

(** ** [core/utils.py] *)

Module Utils.
Import PyStr Urllib.

Section NormalizeUrl.

Variable check_bracketed_host : str -> bool.

(** [normalize_url(url)] *)
Definition normalize_url (url : str) : outcome str :=
  let url := if negb (contains ("://" : str) url)
             then "http://" ++ url else url in
  match urlparse check_bracketed_host url with
  | Raise e => Raise e
  | Ok p =>
      (* Remove 'www.' *)
      let netloc := replace ("www." : str) [] (netloc p) in
      (* Remove query parameters *)
      let path := fst (split_once "?" (path p)) in
      Ok (geturl (mkParse (scheme p) netloc path [] [] []))
  end.

End NormalizeUrl.

Section Urls.

Variable check_bracketed_host : str -> bool.

(** [remove_anchor(url)] *)
Definition remove_anchor (url : str) : outcome str :=
  match urlparse check_bracketed_host url with
  | Raise e => Raise e
  | Ok parsed =>
      (* parsed._replace(fragment='') *)
      Ok (urlunparse (mkParse (scheme parsed) (netloc parsed) (path parsed)
                              (params parsed) (query parsed) []))
  end.

(** the generator [normalize_url(url) for url in urls], consumed in
    order: the first exception ends it *)
Fixpoint normalize_each (urls : list str) : outcome (list str) :=
  match urls with
  | [] => Ok []
  | url :: urls' =>
      match normalize_url check_bracketed_host url with
      | Raise e => Raise e
      | Ok v =>
          match normalize_each urls' with
          | Raise e => Raise e
          | Ok vs => Ok (v :: vs)
          end
      end
  end.

(** [clean_urls(urls)]: [list(set(...))] holds each value once.  The
    argument is the set in the order in which it is iterated and the result
    is listed in some order; Python fixes neither order, and no statement
    about [clean_urls] depends on them. *)
Definition clean_urls (urls : list str) : outcome (list str) :=
  match normalize_each urls with
  | Raise e => Raise e
  | Ok vs => Ok (nodup (list_eq_dec ascii_dec) vs)
  end.

End Urls.

(** [re.sub(r"[<>]+", repl, s)]: every maximal run of [<] and [>] is
    replaced by [repl]; [in_run] tells that the character before belongs to
    a run *)
Fixpoint sub_angle_runs (repl : str) (in_run : bool) (s : str) : str :=
  match s with
  | [] => []
  | c :: s' =>
      if has_char c ("<>" : str)
      then (if in_run then [] else repl) ++ sub_angle_runs repl true s'
      else c :: sub_angle_runs repl false s'
  end.

(** [clean_email_text(text)] *)
Definition clean_email_text (text : str) : str :=
  let cleaned_text := strip text in
  sub_angle_runs [] false cleaned_text.

End Utils.

(** ** [core/indexer.py] *)

Module Indexer.
Import PyStr Urllib.

(** *** Data *)

(** JSON values, as [response.json()] returns them and as metadata
    dictionaries hold them.  An object keeps its bindings in a list whose
    keys are distinct. *)
Inductive json : Type :=
| JNull
| JBool (b : bool)
| JNum (n : Z)
| JStr (s : str)
| JArr (l : list json)
| JObj (m : list (str * json)).

Definition dict_get (m : list (str * json)) (k : str) : option json :=
  option_map snd (find (fun kv => str_eqb (fst kv) k) m).

(** [k in v] for a string [k] *)
Definition py_in (k : str) (v : json) : outcome bool :=
  match v with
  | JObj m => Ok (match dict_get m k with Some _ => true | None => false end)
  | JArr l =>
      Ok (existsb (fun x => match x with JStr s => str_eqb s k | _ => false end) l)
  | JStr s => Ok (contains k s)
  | _ => Raise TypeError
  end.

(** [v[k]] for a string [k] *)
Definition py_getitem (v : json) (k : str) : outcome json :=
  match v with
  | JObj m =>
      match dict_get m k with
      | Some x => Ok x
      | None => Raise KeyError
      end
  | _ => Raise TypeError
  end.

(** the truth value of [v] in a condition *)
Definition truthy (v : json) : bool :=
  match v with
  | JNull => false
  | JBool b => b
  | JNum n => negb (n =? 0)%Z
  | JStr s => match s with [] => false | _ => true end
  | JArr l => match l with [] => false | _ => true end
  | JObj m => match m with [] => false | _ => true end
  end.

(** a [requests] response: only what the code reads *)
Record Response := mkResponse {
  status_code : Z;
  content_type : option str;   (* [headers["Content-Type"]], when present *)
  content : str;               (* [response.content] *)
  body : option json           (* [response.json()]; [None] when it raises *)
}.

(** [response.raise_for_status()] *)
Definition raise_for_status (r : Response) : outcome unit :=
  if ((400 <=? status_code r) && (status_code r <? 600))%Z
  then Raise HTTPError else Ok tt.

(** [response.json()] *)
Definition response_json (r : Response) : outcome json :=
  match body r with
  | Some j => Ok j
  | None => Raise JSONDecodeError
  end.

Record DocSection := mkSection {
  sec_text : str;
  sec_title : option str;
  sec_metadataJson : option str
}.

Record Document := mkDocument {
  documentId : str;
  title : option str;
  section : list DocSection;
  metadataJson : option str
}.

(** the elements [unstructured]'s [partition] returns: their type and
    [str(element)] *)
Inductive ElementType : Type :=
| Title | NarrativeText | ListItem | Table | OtherElement.

Record Element := mkElement { el_type : ElementType; el_str : str }.

Definition is_Title (t : ElementType) : bool :=
  match t with Title => true | _ => false end.

(** a [justext] paragraph *)
Record Paragraph := mkParagraph { p_text : str; is_boilerplate : bool }.

Inductive GooseStopWords : Type :=
| StopWordsArabic | StopWordsKorean | StopWordsChinese.

Inductive BrowserOp : Type :=
| NewContext | NewPage | Route
| Goto (url : str) (timeout_ms : nat)
| PageContent | PageUrl | IsConnected | Launch
| CloseContext | ClosePage.

(** *** The world outside *)

(** What the program does to the outside, most recent first. *)
Inductive Event : Type :=
| EGet (url : str) (browser_headers : bool)
| EPostIndex (doc : Document)
| EPostDelete (doc_id : str)
| EUpload (uri filename doc_metadata : str) (d_flag : bool)
| EFileExists (filename : str)
| EFileOpen (filename : str)
| EFileWrite (filename content : str)
| EBrowser (op : BrowserOp)
| EDetect (text : str).

(** The collaborators.  The ones that talk to the network, the browser,
    the file system or a random source answer from the whole history, whose
    head is the call being answered; the others are functions of their
    arguments.  Each may raise. *)
Record World := mkWorld {
  http : list Event -> outcome Response;
  fs_exists : list Event -> bool;
  fs_io : list Event -> outcome unit;
  browser_do : list Event -> outcome unit;
  browser_str : list Event -> outcome str;
  browser_bool : list Event -> outcome bool;
  detect : list Event -> outcome (option str);
  serializable : Document -> bool;
  json_dumps : json -> outcome str;
  slugify : str -> str;
  partition : str -> outcome (list Element);
  decode_utf8 : str -> outcome str;
  publish_string : str -> outcome str;
  markdown : str -> outcome str;
  notebook_to_html : str -> outcome str;
  soup_get_text : str -> outcome str;
  soup_title : str -> outcome (option str);
  soup_body_text : str -> outcome (option str);
  get_stoplist : str -> outcome str;
  justext : str -> str -> outcome (list Paragraph);
  goose_extract : option GooseStopWords -> str -> str -> outcome (str * option str)
}.

(** *** State and effects *)

(** The fields of [Indexer] the code reads or writes, with the history. *)
Record State := mkState {
  reindex : bool;
  detected_language : str;
  history : list Event
}.

(** [Indexer.__init__] *)
Definition init (reindex : bool) : State := mkState reindex [] [].

Definition M (A : Type) : Type := State -> outcome A * State.

Definition ret {A} (a : A) : M A := fun st => (Ok a, st).

Definition raise {A} (e : exn) : M A := fun st => (Raise e, st).

Definition bind {A B} (m : M A) (k : A -> M B) : M B :=
  fun st =>
    match m st with
    | (Ok a, st') => k a st'
    | (Raise e, st') => (Raise e, st')
    end.

Notation "x <- m ;; k" := (bind m (fun x => k))
  (at level 61, m at next level, right associativity).
Notation "m ;;; k" := (bind m (fun _ => k))
  (at level 61, right associativity).

(** a pure call that may raise *)
Definition lift {A} (r : outcome A) : M A := fun st => (r, st).

(** [try: m  except Exception: return h] *)
Definition try_except {A} (m : M A) (h : exn -> M A) : M A :=
  fun st =>
    match m st with
    | (Ok a, st') => (Ok a, st')
    | (Raise e, st') => h e st'
    end.

(** [try: m  finally: fin] *)
Definition try_finally {A} (m : M A) (fin : M unit) : M A :=
  fun st =>
    let '(r, st1) := m st in
    match fin st1 with
    | (Ok _, st2) => (r, st2)
    | (Raise e, st2) => (Raise e, st2)
    end.

(** a call to the outside: it is recorded, then answered *)
Definition call {A} (e : Event) (oracle : list Event -> A) : M A :=
  fun st =>
    let h := e :: history st in
    (Ok (oracle h), mkState (reindex st) (detected_language st) h).

Definition call_r {A} (e : Event) (oracle : list Event -> outcome A) : M A :=
  r <- call e oracle ;; lift r.

Definition get_reindex : M bool := fun st => (Ok (reindex st), st).

Definition get_detected_language : M str :=
  fun st => (Ok (detected_language st), st).

Definition set_detected_language (l : str) : M unit :=
  fun st => (Ok tt, mkState (reindex st) l (history st)).

(** a function body leaves by [return b], or goes on with its locals *)
Inductive flow (A : Type) : Type :=
| Return (b : bool)
| Continue (a : A).
Arguments Return {A} b.
Arguments Continue {A} a.

(** *** Language tables *)

Definition language_stopwords_Goose : list (str * option GooseStopWords) :=
  [ ("en" : str, None);
    ("ar" : str, Some StopWordsArabic);
    ("zh-cn" : str, Some StopWordsChinese);
    ("zh-tw" : str, Some StopWordsChinese);
    ("ko" : str, Some StopWordsKorean) ].

Definition language_stopwords_JusText : list (str * option str) :=
  [ ("en" : str, None);
    ("ar" : str, Some ("Arabic" : str));
    ("ko" : str, Some ("Korean" : str));
    ("ur" : str, Some ("Urdu" : str));
    ("hi" : str, Some ("Hindi" : str));
    ("fa" : str, Some ("Persian" : str));
    ("ja" : str, Some ("Japanese" : str));
    ("bg" : str, Some ("Bulgarian" : str));
    ("sv" : str, Some ("Swedish" : str));
    ("lv" : str, Some ("Latvian" : str));
    ("sr" : str, Some ("Serbian" : str));
    ("sq" : str, Some ("Albanian" : str));
    ("es" : str, Some ("Spanish" : str));
    ("ka" : str, Some ("Gerogian" : str));
    ("de" : str, Some ("German" : str));
    ("el" : str, Some ("Greek" : str));
    ("ga" : str, Some ("Irish" : str));
    ("vi" : str, Some ("Vietnamese" : str));
    ("hu" : str, Some ("Hungarian" : str));
    ("pt" : str, Some ("Portuguese" : str));
    ("pl" : str, Some ("Polish" : str));
    ("it" : str, Some ("Italian" : str));
    ("la" : str, Some ("Latin" : str));
    ("tr" : str, Some ("Turkish" : str));
    ("id" : str, Some ("Indonesian" : str));
    ("hr" : str, Some ("Croatian" : str));
    ("be" : str, Some ("Belarusian" : str));
    ("ru" : str, Some ("Russian" : str));
    ("et" : str, Some ("Estonian" : str));
    ("uk" : str, Some ("Ukranian" : str));
    ("ro" : str, Some ("Romanian" : str));
    ("cs" : str, Some ("Czech" : str));
    ("ml" : str, Some ("Malyalam" : str));
    ("sk" : str, Some ("Slovak" : str));
    ("fi" : str, Some ("Finnish" : str));
    ("da" : str, Some ("Danish" : str));
    ("ms" : str, Some ("Malay" : str));
    ("ca" : str, Some ("Catalan" : str));
    ("eo" : str, Some ("Esperanto" : str));
    ("nb" : str, Some ("Norwegian_Bokmal" : str));
    ("nn" : str, Some ("Norwegian_Nynorsk" : str)) ].

(** [table.get(key)]: the binding of [key], when there is one *)
Definition table_get {V} (table : list (str * V)) (key : str) : option V :=
  option_map snd (find (fun kv => str_eqb (fst kv) key) table).

(** [sep.join(parts)] *)
Fixpoint join (sep : str) (parts : list str) : str :=
  match parts with
  | [] => []
  | [p] => p
  | p :: rest => p ++ sep ++ join sep rest
  end.

Definition NEWLINE : str := [ascii_of_nat 10].

(** *** The functions of [indexer.py] *)

Section Functions.

Variable W : World.

(** [json.dumps(md)]; the empty dictionary is written [{}] *)
Definition dumps (v : json) : outcome str :=
  match v with
  | JObj [] => Ok ("{}" : str)
  | _ => json_dumps W v
  end.

(** [detect_language(text)] of [utils.py] *)
Definition detect_language (text : str) : M str :=
  try_except
    (lang <- call_r (EDetect text) (detect W) ;;
     match lang with
     | Some l => ret l
     | None => ret ("en" : str)
     end)
    (fun _ => ret ("en" : str)).

(** [html_to_text(html)] of [utils.py] *)
Definition html_to_text (html : str) : outcome str := soup_get_text W html.

(** [get_content_with_justext(html_content, url, detected_language)] *)
Definition get_content_with_justext (html_content url detected_language : str)
  : M (str * option str) :=
  paragraphs <-
    (if str_eqb detected_language ("en" : str) then
       stoplist <- lift (get_stoplist W ("English" : str)) ;;
       lift (justext W html_content stoplist)
     else
       stopwords_keyword <-
         (match table_get language_stopwords_JusText detected_language with
          | Some (Some k) => ret k
          | Some None => raise TypeError
          | None => ret ("English" : str)
          end) ;;
       stoplist <- lift (get_stoplist W stopwords_keyword) ;;
       lift (justext W html_content stoplist)) ;;
  let text :=
    join NEWLINE
         (map p_text (filter (fun p => negb (is_boilerplate p)) paragraphs)) in
  stitle <- lift (soup_title W html_content) ;;
  match stitle with
  | Some t => ret (text, Some t)
  | None => ret (text, Some ("No title" : str))
  end.

(** [get_content_with_goose3(html_content, url, detected_language)] *)
Definition get_content_with_goose3 (html_content url detected_language : str)
  : M (str * option str) :=
  match table_get language_stopwords_Goose detected_language with
  | Some stopwords_class =>
      article <- lift (goose_extract W stopwords_class url html_content) ;;
      ret (fst article, snd article)
  | None => ret ([], Some [])
  end.

(** [get_content_and_title(html_content, url, detected_language)] *)
Definition get_content_and_title (html_content url detected_language : str)
  : M (str * option str) :=
  r1 <- get_content_with_goose3 html_content url detected_language ;;
  r2 <- get_content_with_justext html_content url detected_language ;;
  if List.length (fst r2) <? List.length (fst r1) then ret r1 else ret r2.

(** The [try] block of [fetch_content_with_timeout]: what it came to,
    and whether [context] and [page] were bound ([None] until then). *)
Definition fetch_attempt (url : str) (timeout : nat)
  : M (outcome (str * str) * bool * bool) :=
  try_except
    (call_r (EBrowser NewContext) (browser_do W) ;;;
     try_except
       (call_r (EBrowser NewPage) (browser_do W) ;;;
        try_except
          (call_r (EBrowser Route) (browser_do W) ;;;
           call_r (EBrowser (Goto url (timeout * 1000))) (browser_do W) ;;;
           content <- call_r (EBrowser PageContent) (browser_str W) ;;
           out_url <- call_r (EBrowser PageUrl) (browser_str W) ;;
           ret (Ok (out_url, content), true, true))
          (fun e => ret (Raise e, true, true)))
       (fun e => ret (Raise e, true, false)))
    (fun e => ret (Raise e, false, false)).

(** [Indexer.fetch_content_with_timeout(url, timeout)]: after the [try]
    block come the handlers, and [finally] closes what was opened. *)
Definition fetch_content_with_timeout (url : str) (timeout : nat)
  : M (str * str) :=
  attempt <- fetch_attempt url timeout ;;
  let '(r, context, page) := attempt in
  try_finally
    (match r with
     | Ok v => ret v
     | Raise PlaywrightTimeoutError => ret ([], [])
     | Raise _ =>
         connected <- call_r (EBrowser IsConnected) (browser_bool W) ;;
         (if negb connected
          then call_r (EBrowser Launch) (browser_do W)
          else ret tt) ;;;
         ret ([], [])
     end)
    ((if context then call_r (EBrowser CloseContext) (browser_do W)
      else ret tt) ;;;
     (if page then call_r (EBrowser ClosePage) (browser_do W)
      else ret tt)).

(** [Indexer.delete_doc(doc_id)] *)
Definition delete_doc (doc_id : str) : M bool :=
  response <- call_r (EPostDelete doc_id) (http W) ;;
  if negb (status_code response =? 200)%Z then ret false else ret true.

(** [response.json()['details'].split('document id')[1].split("'")[1]] *)
Definition conflicting_doc_id (response : Response) : outcome str :=
  match response_json response with
  | Raise e => Raise e
  | Ok j =>
      match py_getitem j ("details" : str) with
      | Raise e => Raise e
      | Ok (JStr details) =>
          match nth_error (split ("document id" : str) details) 1 with
          | None => Raise IndexError
          | Some rest =>
              match nth_error (split ("'" : str) rest) 1 with
              | None => Raise IndexError
              | Some doc_id => Ok doc_id
              end
          end
      | Ok _ => Raise AttributeError
      end
  end.

(** [Indexer.index_file(filename, uri, metadata)] *)
Definition index_file (filename uri : str) (metadata : json) : M bool :=
  file_exists <- call (EFileExists filename) (fs_exists W) ;;
  if negb file_exists then ret false
  else
    call_r (EFileOpen filename) (fs_io W) ;;;
    doc_metadata <- lift (dumps metadata) ;;
    response <- call_r (EUpload uri filename doc_metadata true) (http W) ;;
    if (status_code response =? 409)%Z then
      reindex <- get_reindex ;;
      if reindex then
        doc_id <- lift (conflicting_doc_id response) ;;
        delete_doc doc_id ;;;
        response <- call_r (EUpload uri filename doc_metadata false) (http W) ;;
        if (status_code response =? 200)%Z then ret true else ret true
      else ret false
    else if negb (status_code response =? 200)%Z then ret false
    else ret true.

(** the condition under which [index_document] takes the document for
    already indexed *)
Definition already_exists (result : json) : outcome bool :=
  match py_in ("status" : str) result with
  | Raise e => Raise e
  | Ok false => Ok false
  | Ok true =>
      match py_getitem result ("status" : str) with
      | Raise e => Raise e
      | Ok status =>
          if negb (truthy status) then Ok false
          else
            match py_getitem status ("code" : str) with
            | Raise e => Raise e
            | Ok code =>
                match py_in ("ALREADY_EXISTS" : str) code with
                | Raise e => Raise e
                | Ok true => Ok true
                | Ok false =>
                    match py_in ("CONFLICT" : str) code with
                    | Raise e => Raise e
                    | Ok false => Ok false
                    | Ok true =>
                        match py_getitem status ("statusDetail" : str) with
                        | Raise e => Raise e
                        | Ok detail =>
                            py_in ("Indexing doesn't support updating documents" : str)
                                  detail
                        end
                    end
                end
            end
      end
  end.

(** ["status" in result and result["status"] and "OK" in result["status"]["code"]] *)
Definition status_ok (result : json) : outcome bool :=
  match py_in ("status" : str) result with
  | Raise e => Raise e
  | Ok false => Ok false
  | Ok true =>
      match py_getitem result ("status" : str) with
      | Raise e => Raise e
      | Ok status =>
          if negb (truthy status) then Ok false
          else
            match py_getitem status ("code" : str) with
            | Raise e => Raise e
            | Ok code => py_in ("OK" : str) code
            end
      end
  end.

(** [json.dumps(request)] *)
Definition dumps_request (document : Document) : outcome unit :=
  if serializable W document then Ok tt else Raise TypeError.

(** [Indexer.index_document(document)] *)
Definition index_document (document : Document) : M bool :=
  match dumps_request document with
  | Raise _ => ret false
  | Ok _ =>
      posted <-
        try_except
          (response <- call_r (EPostIndex document) (http W) ;;
           ret (Continue response))
          (fun _ => ret (Return false)) ;;
      match posted with
      | Return b => ret b
      | Continue response =>
          if negb (status_code response =? 200)%Z then ret false
          else
            result <- lift (response_json response) ;;
            exists_already <- lift (already_exists result) ;;
            if exists_already then
              reindex <- get_reindex ;;
              if reindex then
                delete_doc (documentId document) ;;;
                lift (dumps_request document) ;;;
                call_r (EPostIndex document) (http W) ;;;
                ret true
              else ret false
            else
              ok <- lift (status_ok result) ;;
              if ok then ret true else ret false
      end
  end.

(** the list comprehension of [index_segments]: one section for each pair
    of [zip(parts, metadatas)], in order *)
Fixpoint build_sections (parts : list str) (metadatas : list json)
  : outcome (list DocSection) :=
  match parts, metadatas with
  | part :: parts', md :: metadatas' =>
      match dumps md with
      | Raise e => Raise e
      | Ok m =>
          match build_sections parts' metadatas' with
          | Raise e => Raise e
          | Ok rest => Ok (mkSection part None (Some m) :: rest)
          end
      end
  | _, _ => Ok []
  end.

(** [Indexer.index_segments(doc_id, parts, metadatas, doc_metadata, title)] *)
Definition index_segments (doc_id : str) (parts : list str)
           (metadatas : list json) (doc_metadata : json) (title : str)
  : M bool :=
  let doc_title := match title with [] => None | _ => Some title end in
  sections <- lift (build_sections parts metadatas) ;;
  metadata_json <-
    (if truthy doc_metadata
     then m <- lift (dumps doc_metadata) ;; ret (Some m)
     else ret None) ;;
  index_document (mkDocument doc_id doc_title sections metadata_json).

(** the first [try] of [index_url]: the content type of the page *)
Definition probe_content_type (url : str) : M (flow str) :=
  try_except
    (response <- call_r (EGet url true) (http W) ;;
     if negb (status_code response =? 200)%Z then ret (Return false)
     else
       match content_type response with
       | Some ct => ret (Continue ct)
       | None => raise KeyError
       end)
    (fun _ => ret (Return false)).

(** the two comprehensions and the choice of the title in the PDF branch *)
Definition pdf_parts (elements : list Element) : list str :=
  map el_str (filter (fun t => negb (is_Title (el_type t))) elements).

Definition pdf_titles (elements : list Element) : list str :=
  map el_str
      (filter (fun x => is_Title (el_type x) && (20 <? List.length (el_str x)))
              elements).

Definition pdf_title (elements : list Element) : str :=
  match pdf_titles elements with
  | t :: _ => t
  | [] => "unknown" : str
  end.

(** the PDF branch of [index_url] *)
Definition extract_pdf (url : str) : M (flow (str * list str * option str)) :=
  try_except
    (response <- call_r (EGet url false) (http W) ;;
     lift (raise_for_status response) ;;;
     let fname : str := "tmp.pdf" in
     call_r (EFileWrite fname (content response)) (fs_io W) ;;;
     elements <- lift (partition W (content response)) ;;
     ret (Continue (url, pdf_parts elements, Some (pdf_title elements))))
    (fun _ => ret (Return false)).

(** [url.split('/')[-1]] *)
Definition last_segment (url : str) : str := last (split ("/" : str) url) [].

(** the Markdown, reStructuredText and notebook branch of [index_url] *)
Definition extract_markup (url : str) : M (flow (str * list str * option str)) :=
  response <- call_r (EGet url false) (http W) ;;
  lift (raise_for_status response) ;;;
  dl_content <- lift (decode_utf8 W (content response)) ;;
  html_content <-
    (if ends_with ("rst" : str) url then lift (publish_string W dl_content)
     else if ends_with ("md" : str) url then lift (markdown W dl_content)
     else if ends_with ("ipynb" : str) (lower url)
          then lift (notebook_to_html W dl_content)
          else raise OtherError) ;;
  let title := last_segment url in
  text <- lift (html_to_text html_content) ;;
  ret (Continue (url, [text], Some title)).

(** the rendered branch of [index_url] *)
Definition extract_rendered (url : str) : M (flow (str * list str * option str)) :=
  try_except
    (fetched <- fetch_content_with_timeout url 30 ;;
     let '(actual_url, html_content) := fetched in
     if List.length html_content <? 3 then ret (Return false)
     else
       language <- get_detected_language ;;
       (match language with
        | [] =>
            soup_body <- lift (soup_body_text W html_content) ;;
            match soup_body with
            | Some body_text =>
                l <- detect_language body_text ;;
                set_detected_language l
            | None => ret tt
            end
        | _ :: _ => ret tt
        end) ;;;
       let url := actual_url in
       language <- get_detected_language ;;
       r <- get_content_and_title html_content url language ;;
       ret (Continue (url, [fst r], snd r)))
    (fun _ => ret (Return false)).

(** [index_url] up to the call of [index_segments] *)
Definition extract (url : str) : M (flow (str * list str * option str)) :=
  probed <- probe_content_type url ;;
  match probed with
  | Return b => ret (Return b)
  | Continue content_type =>
      if str_eqb content_type ("application/pdf" : str)
         || ends_with (".pdf" : str) url
      then extract_pdf url
      else if ends_with (".md" : str) url || ends_with (".rst" : str) url
              || ends_with (".ipynb" : str) (lower url)
      then extract_markup url
      else extract_rendered url
  end.

(** [Indexer.index_url(url, metadata)] *)
Definition index_url (url : str) (metadata : json) : M bool :=
  extracted <- extract url ;;
  match extracted with
  | Return b => ret b
  | Continue (url, parts, title) =>
      succeeded <-
        index_segments (slugify W url) parts
                       (repeat (JObj []) (List.length parts)) metadata
                       (match title with
                        | Some t => t
                        | None => "No Title" : str
                        end) ;;
      if succeeded then ret true else ret false
  end.

End Functions.

End Indexer.

(** ** [re] and [datetime.strptime] (CPython 3.11), for the format
    [%Y-%m-%d] *)

Module Strptime.
Import PyStr.

(** The regular expressions [_strptime] builds: literals, character
    classes, sequences, alternatives tried in order, and named groups. *)
Inductive re : Type :=
| Lit (c : ascii)
| Class (p : ascii -> bool)
| Seq (a b : re)
| Alt (a b : re)
| Group (name : str) (a : re).

(** [go r s groups k]: the first way of matching [r] at the head of [s],
    in the order in which [re] tries them, that the continuation [k]
    accepts for what is left of [s] and the groups captured so far *)
Fixpoint go {A} (r : re) (s : str) (groups : list (str * str))
         (k : str -> list (str * str) -> option A) : option A :=
  match r with
  | Lit c =>
      match s with
      | x :: s' => if Ascii.eqb x c then k s' groups else None
      | [] => None
      end
  | Class p =>
      match s with
      | x :: s' => if p x then k s' groups else None
      | [] => None
      end
  | Seq a b => go a s groups (fun s' g => go b s' g k)
  | Alt a b =>
      match go a s groups k with
      | Some v => Some v
      | None => go b s groups k
      end
  | Group name a =>
      go a s groups
         (fun s' g =>
            k s' ((name, firstn (List.length s - List.length s') s) :: g))
  end.

(** [pattern.match(s)]: a match at the beginning of [s]; what is left of
    [s] after it, and the groups *)
Definition re_match (r : re) (s : str) : option (str * list (str * str)) :=
  go r s [] (fun rest groups => Some (rest, groups)).

(** [\d]: on the code points below 256, the digits [0] to [9] *)
Definition is_digit (c : ascii) : bool :=
  (48 <=? nat_of_ascii c) && (nat_of_ascii c <=? 57).

(** [[lo-hi]] *)
Definition between (lo hi : ascii) (c : ascii) : bool :=
  (nat_of_ascii lo <=? nat_of_ascii c) && (nat_of_ascii c <=? nat_of_ascii hi).

Definition digit : re := Class is_digit.

(** ['Y': r"(?P<Y>\d\d\d\d)"] *)
Definition re_Y : re :=
  Group ("Y" : str) (Seq digit (Seq digit (Seq digit digit))).

(** ['m': r"(?P<m>1[0-2]|0[1-9]|[1-9])"] *)
Definition re_m : re :=
  Group ("m" : str)
        (Alt (Seq (Lit "1") (Class (between "0" "2")))
        (Alt (Seq (Lit "0") (Class (between "1" "9")))
             (Class (between "1" "9")))).

(** ['d': r"(?P<d>3[0-1]|[1-2]\d|0[1-9]|[1-9]| [1-9])"] *)
Definition re_d : re :=
  Group ("d" : str)
        (Alt (Seq (Lit "3") (Class (between "0" "1")))
        (Alt (Seq (Class (between "1" "2")) digit)
        (Alt (Seq (Lit "0") (Class (between "1" "9")))
        (Alt (Class (between "1" "9"))
             (Seq (Lit " ") (Class (between "1" "9"))))))).

(** the pattern of the format [%Y-%m-%d] *)
Definition format_regex : re :=
  Seq re_Y (Seq (Lit "-") (Seq re_m (Seq (Lit "-") re_d))).

(** [found_dict[name]] *)
Definition group (name : str) (groups : list (str * str)) : str :=
  match find (fun g => if list_eq_dec ascii_dec (fst g) name then true else false)
             groups with
  | Some g => snd g
  | None => []
  end.

(** [int(s)] for the strings the groups hold: decimal digits, after
    whitespace; anything else raises [ValueError] *)
Definition int (s : str) : outcome Z :=
  match strip s with
  | [] => Raise ValueError
  | digits =>
      if forallb is_digit digits
      then Ok (fold_left
                 (fun n c => (10 * n + Z.of_nat (nat_of_ascii c - 48))%Z)
                 digits 0%Z)
      else Raise ValueError
  end.

Definition is_leap (year : Z) : bool :=
  ((year mod 4 =? 0) && (negb (year mod 100 =? 0) || (year mod 400 =? 0)))%Z.

Definition days_in_month (year month : Z) : Z :=
  if (month =? 2)%Z then (if is_leap year then 29 else 28)%Z
  else if ((month =? 4) || (month =? 6) || (month =? 9) || (month =? 11))%Z
       then 30%Z else 31%Z.

(** [datetime.date(year, month, day)] checks its fields *)
Definition check_date_fields (year month day : Z) : outcome unit :=
  if ((1 <=? year) && (year <=? 9999) && (1 <=? month) && (month <=? 12)
      && (1 <=? day) && (day <=? days_in_month year month))%Z
  then Ok tt else Raise ValueError.

(** [datetime.strptime(data_string, '%Y-%m-%d')]: the year, the month and
    the day of the result *)
Definition strptime (data_string : str) : outcome (Z * Z * Z) :=
  match re_match format_regex data_string with
  | None => Raise ValueError        (* does not match the format *)
  | Some (rest, found_dict) =>
      match rest with
      | _ :: _ => Raise ValueError  (* unconverted data remains *)
      | [] =>
          match int (group ("Y" : str) found_dict),
                int (group ("m" : str) found_dict),
                int (group ("d" : str) found_dict) with
          | Ok year, Ok month, Ok day =>
              match check_date_fields year month day with
              | Ok _ => Ok (year, month, day)
              | Raise e => Raise e
              end
          | Raise e, _, _ | _, Raise e, _ | _, _, Raise e => Raise e
          end
      end
  end.

End Strptime.

(** ** [crawlers/fmp_crawler.py] *)

Module FmpCrawler.
Import PyStr Strptime Indexer.

(** [is_date_in_range(datetime_str, start_year, end_year)] *)
Definition is_date_in_range (datetime_str : str) (start_year end_year : Z)
  : outcome bool :=
  match nth_error (split (" " : str) datetime_str) 0 with
  | None => Raise IndexError
  | Some date =>
      match strptime date with
      | Raise e => Raise e
      | Ok (year, _, _) => Ok ((start_year <=? year) && (year <=? end_year))%Z
      end
  end.

(** [FmpCrawler.index_doc(document)] *)
Definition index_doc (W : World) (document : Document) : M bool :=
  try_except
    (succeeded <- index_document W document ;;
     ret succeeded)
    (fun _ => ret false).

(** [for x in v]: what iterating over a JSON value yields; a dictionary
    yields its keys and a string its characters *)
Definition py_iter (v : json) : outcome (list json) :=
  match v with
  | JArr l => Ok l
  | JObj m => Ok (map (fun kv => JStr (fst kv)) m)
  | JStr s => Ok (map (fun c => JStr [c]) s)
  | _ => Raise TypeError
  end.

(** [v.items()] *)
Definition py_items (v : json) : outcome (list (str * json)) :=
  match v with
  | JObj m => Ok m
  | _ => Raise AttributeError
  end.

(** [for a in l: body], where the body appends to a list or raises *)
Fixpoint for_each {A B} (body : A -> outcome (list B)) (l : list A)
  : outcome (list B) :=
  match l with
  | [] => Ok []
  | a :: l' =>
      match body a with
      | Raise e => Raise e
      | Ok appended =>
          match for_each body l' with
          | Raise e => Raise e
          | Ok rest => Ok (appended ++ rest)
          end
      end
  end.

(** [[v for v in values if v and type(v)==str and len(v)>=10]] *)
Definition long_strings (values : json) : outcome (list str) :=
  match py_iter values with
  | Raise e => Raise e
  | Ok vs =>
      Ok (flat_map
            (fun v =>
               match v with
               | JStr s => if truthy v && (10 <=? List.length s) then [s] else []
               | _ => []
               end)
            vs)
  end.

(** the body of [for title, values in item_dict.items()] in [crawl] *)
Definition sections_of_item (key : str) (item : str * json)
  : outcome (list DocSection) :=
  let '(title, values) := item in
  match long_strings values with
  | Raise e => Raise e
  | Ok values =>
      if (0 <? List.length values)
         && (100 <? List.length (join (" " : str) values))
      then Ok [mkSection (join NEWLINE values)
                         (Some (key ++ (" - " : str) ++ title)) None]
      else Ok []
  end.

(** the body of [for key in data.keys()] in [crawl] *)
Definition sections_of_entry (data : list (str * json)) (key : str)
  : outcome (list DocSection) :=
  match dict_get data key with
  | None => Raise KeyError
  | Some (JStr _) => Ok []
  | Some entry =>
      match py_iter entry with
      | Raise e => Raise e
      | Ok items =>
          for_each
            (fun item_dict =>
               match py_items item_dict with
               | Raise e => Raise e
               | Ok titled => for_each (sections_of_item key) titled
               end)
            items
      end
  end.

(** the sections [crawl] makes of a financial report: the loop over
    [data.keys()] that fills [document['section']] *)
Definition report_sections (data : json) : outcome (list DocSection) :=
  match data with
  | JObj m => for_each (sections_of_entry m) (map fst m)
  | _ => Raise AttributeError
  end.

End FmpCrawler.

(** ** Vocabulary of the statements *)

Module Spec.
Import PyStr Urllib Indexer.

(** *** What a computation records and returns *)

(** [h'] is [h] with newer events in front of it, all of them in [P] *)
Definition grows (P : Event -> Prop) (h h' : list Event) : Prop :=
  exists new, h' = new ++ h /\ Forall P new.

(** [m] leaves [reindex] alone and records events of [P] only *)
Definition emits (P : Event -> Prop) {A} (m : M A) : Prop :=
  forall st,
    reindex (snd (m st)) = reindex st /\
    grows P (history st) (history (snd (m st))).

(** [m] leaves [detected_language] alone *)
Definition keeps_language {A} (m : M A) : Prop :=
  forall st, detected_language (snd (m st)) = detected_language st.

(** whenever [m] comes to a value, the value is in [Q] *)
Definition returns {A} (Q : A -> Prop) (m : M A) : Prop :=
  forall st a st', m st = (Ok a, st') -> Q a.

(** *** The reindexing policy *)

(** The reply [{"status": {"code": code, ...}}] of the indexing endpoint
    tells that the document is there already: its code contains
    [ALREADY_EXISTS], or it contains [CONFLICT] and the detail says that
    updating is not supported. *)
Definition says_already_exists (result : json) : Prop :=
  exists m st code,
    result = JObj m /\
    dict_get m ("status" : str) = Some (JObj st) /\
    dict_get st ("code" : str) = Some (JStr code) /\
    (contains ("ALREADY_EXISTS" : str) code = true \/
     (contains ("CONFLICT" : str) code = true /\
      exists detail,
        dict_get st ("statusDetail" : str) = Some (JStr detail) /\
        contains ("Indexing doesn't support updating documents" : str) detail
        = true)).

(** The first submission of [doc] from [st] comes back with HTTP 200 and
    such a reply. *)
Definition first_submission_conflicts (W : World) (doc : Document) (st : State)
  : Prop :=
  serializable W doc = true /\
  exists response result,
    http W (EPostIndex doc :: history st) = Ok response /\
    status_code response = 200%Z /\
    body response = Some result /\
    says_already_exists result.

(** [index_document] answers [True] after the submission, one delete call
    for the document's id and one resubmission, in this order, and nothing
    else. *)
Definition reindexes_once (W : World) (doc : Document) (st : State) : Prop :=
  index_document W doc st =
  (Ok true,
   mkState (reindex st) (detected_language st)
           (EPostIndex doc :: EPostDelete (documentId doc)
            :: EPostIndex doc :: history st)).

(** *** The parts of a document *)

(** [index_url] takes the PDF branch *)
Definition is_pdf (content_type url : str) : bool :=
  str_eqb content_type ("application/pdf" : str) || ends_with (".pdf" : str) url.

(** *** Language detection *)

Definition is_detect (e : Event) : bool :=
  match e with EDetect _ => true | _ => false end.

(** how many times [detect] was called *)
Definition detections (h : list Event) : nat :=
  List.length (filter is_detect h).

(** [index_url] called on each of [calls] in turn, whatever each call
    comes to *)
Definition run_urls (W : World) (calls : list (str * json)) (st : State)
  : State :=
  fold_left (fun st c => snd (index_url W (fst c) (snd c) st)) calls st.

(** From [st] to [st']: either the language and the number of detections
    are what they were, or the language was empty, is not any more, and
    there is one more detection. *)
Definition language_step (st st' : State) : Prop :=
  (detected_language st' = detected_language st /\
   detections (history st') = detections (history st))
  \/
  (detected_language st = [] /\ detected_language st' <> [] /\
   detections (history st') = S (detections (history st))).

Definition language_steps {A} (m : M A) : Prop :=
  forall st, language_step st (snd (m st)).

(** the rendered branch of [index_url] with the detection left out:
    both extraction strategies are given [language] *)
Definition extract_rendered_with (W : World) (language url : str)
  : M (flow (str * list str * option str)) :=
  try_except
    (fetched <- fetch_content_with_timeout W url 30 ;;
     let '(actual_url, html_content) := fetched in
     if List.length html_content <? 3 then ret (Return false)
     else
       r <- get_content_and_title W html_content actual_url language ;;
       ret (Continue (actual_url, [fst r], snd r)))
    (fun _ => ret (Return false)).

(** [detect] returns a language code, never the empty string *)
Definition detect_names_a_language (W : World) : Prop :=
  forall h l, detect W h = Ok (Some l) -> l <> [].

(** *** URLs *)

(** the first step of [normalize_url]: the default scheme *)
Definition with_scheme (url : str) : str :=
  if negb (contains ("://" : str) url) then "http://" ++ url else url.

(** no character of [s] is in [bad] *)
Definition avoids (bad s : str) : bool :=
  forallb (fun c => negb (has_char c bad)) s.

(** [s] does not begin with a C0 control or a space and has no tab,
    carriage return or line feed: [urlsplit] takes it as it is *)
Definition tidy (s : str) : Prop :=
  match s with
  | [] => True
  | c :: _ => has_char c C0_CONTROL_OR_SPACE = false
  end /\ avoids UNSAFE_URL_BYTES_TO_REMOVE s = true.

(** a scheme as [urlsplit] returns it *)
Definition valid_scheme (s : str) : Prop :=
  match s with
  | [] => False
  | c :: _ => is_ascii_alpha c = true
  end /\ forallb is_scheme_char s = true /\ lower s = s.

(** empty, or beginning with a slash *)
Definition slashed (p : str) : Prop :=
  p = [] \/ exists p', p = "/"%char :: p'.

(** the length of the longest prefix of [s] without a character of [bad] *)
Fixpoint span_avoiding (bad s : str) : nat :=
  match s with
  | [] => 0
  | c :: s' => if has_char c bad then 0 else S (span_avoiding bad s')
  end.

(** the bracket checks of [urlsplit] let the netloc through *)
Definition netloc_accepted (check_bracketed_host : str -> bool) (netloc : str)
  : bool :=
  if (has_char "[" netloc && negb (has_char "]" netloc))
     || (has_char "]" netloc && negb (has_char "[" netloc))
  then false
  else if has_char "[" netloc && has_char "]" netloc
  then check_bracketed_netloc check_bracketed_host netloc
  else true.

(** the last segment of a path, from its last slash on *)
Definition last_part (x : str) : str :=
  match rfind_char "/" x with
  | Some r => skipn r x
  | None => x
  end.

(** the path [urlparse] keeps: without the parameters of the last
    segment when the scheme uses parameters *)
Definition strip_params (scheme url : str) : str :=
  fst (if str_in scheme uses_params && has_char ";" url
       then splitparams url
       else (url, [])).

(** the last segment of [x] has no parameters for [urlparse] to cut,
    under [scheme] *)
Definition params_free (scheme x : str) : bool :=
  negb (str_in scheme uses_params) || negb (has_char ";" (last_part x)).

(** [s'] is [s] without its occurrences of [old], found from left to
    right: either [old] does not occur in [s], or [s] is [a ++ old ++ b]
    where the occurrence shown is the first one, and the occurrences of
    [old] in [b] are removed in the same way. *)
Inductive removed (old : str) : str -> str -> Prop :=
| removed_none s :
    contains old s = false -> removed old s s
| removed_first a b b' :
    contains old (a ++ removelast old) = false ->
    removed old b b' ->
    removed old (a ++ old ++ b) (a ++ b').

(** *** Worlds for the examples *)

(** A world in which nothing works: every request fails, no file is
    there, every library raises.  The examples below start from it. *)
Definition dead_world : World :=
  mkWorld (fun _ => Raise ConnectionError)
          (fun _ => false)
          (fun _ => Raise OSError)
          (fun _ => Raise OtherError)
          (fun _ => Raise OtherError)
          (fun _ => Raise OtherError)
          (fun _ => Raise LangDetectException)
          (fun _ => true)
          (fun _ => Ok ("{...}" : str))
          (fun s => s)
          (fun _ => Raise OtherError)
          (fun _ => Raise UnicodeDecodeError)
          (fun _ => Raise OtherError)
          (fun _ => Raise OtherError)
          (fun _ => Raise OtherError)
          (fun _ => Raise OtherError)
          (fun _ => Raise OtherError)
          (fun _ => Raise OtherError)
          (fun _ => Raise ValueError)
          (fun _ _ => Raise OtherError)
          (fun _ _ _ => Raise OtherError).

Definition with_http (W : World) (f : list Event -> outcome Response) : World :=
  mkWorld f (fs_exists W) (fs_io W) (browser_do W) (browser_str W)
          (browser_bool W) (detect W) (serializable W) (json_dumps W)
          (slugify W) (partition W) (decode_utf8 W) (publish_string W)
          (markdown W) (notebook_to_html W) (soup_get_text W) (soup_title W)
          (soup_body_text W) (get_stoplist W) (justext W) (goose_extract W).

Definition with_files (W : World) (ex : list Event -> bool)
           (io : list Event -> outcome unit) : World :=
  mkWorld (http W) ex io (browser_do W) (browser_str W)
          (browser_bool W) (detect W) (serializable W) (json_dumps W)
          (slugify W) (partition W) (decode_utf8 W) (publish_string W)
          (markdown W) (notebook_to_html W) (soup_get_text W) (soup_title W)
          (soup_body_text W) (get_stoplist W) (justext W) (goose_extract W).

Definition with_partition (W : World) (f : str -> outcome (list Element)) : World :=
  mkWorld (http W) (fs_exists W) (fs_io W) (browser_do W) (browser_str W)
          (browser_bool W) (detect W) (serializable W) (json_dumps W)
          (slugify W) f (decode_utf8 W) (publish_string W)
          (markdown W) (notebook_to_html W) (soup_get_text W) (soup_title W)
          (soup_body_text W) (get_stoplist W) (justext W) (goose_extract W).

(** the reply [{"status": {"code": code}}] *)
Definition status_reply (code : str) : json :=
  JObj [("status" : str, JObj [("code" : str, JStr code)])].

Definition reply (status : Z) (j : option json) : Response :=
  mkResponse status None [] j.

Definition doc1 : Document :=
  mkDocument ("doc-1" : str) (Some ("T" : str))
             [mkSection ("a" : str) None None] None.

(** a corpus that holds [doc-1] already and cannot be reached for the
    delete call *)
Definition conflict_then_unreachable : World :=
  with_http dead_world
    (fun h =>
       match h with
       | [EPostIndex _] => Ok (reply 200 (Some (status_reply ("ALREADY_EXISTS" : str))))
       | _ => Raise ConnectionError
       end).

(** a corpus that holds [doc-1] already, deletes it, and refuses the
    resubmission *)
Definition conflict_then_refused : World :=
  with_http dead_world
    (fun h =>
       match h with
       | [EPostIndex _] => Ok (reply 200 (Some (status_reply ("ALREADY_EXISTS" : str))))
       | [EPostDelete _; EPostIndex _] => Ok (reply 200 None)
       | _ => Ok (reply 500 None)
       end).

(** an upload that conflicts with the stored document [doc-7]; the
    delete call is served and the second upload is turned down *)
Definition conflict_upload : World :=
  with_files
    (with_http dead_world
       (fun h =>
          match h with
          | EUpload _ _ _ true :: _ =>
              Ok (reply 409
                    (Some (JObj [("details" : str,
                                  JStr ("ALREADY_EXISTS: document id 'doc-7' is there" : str))])))
          | EPostDelete _ :: _ => Ok (reply 200 None)
          | _ => Ok (reply 503 None)
          end))
    (fun _ => true) (fun _ => Ok tt).

(** a corpus that accepts every document *)
Definition accepting : World :=
  with_http dead_world
    (fun _ => Ok (reply 200 (Some (status_reply ("OK" : str))))).

(** a site that serves a PDF, whose partition is [elements], and a corpus
    that accepts every document *)
Definition pdf_world (elements : list Element) : World :=
  with_partition
    (with_files
       (with_http dead_world
          (fun h =>
             match h with
             | EGet _ true :: _ =>
                 Ok (mkResponse 200 (Some ("application/pdf" : str)) [] None)
             | EGet _ false :: _ =>
                 Ok (mkResponse 200 (Some ("application/pdf" : str))
                                ("%PDF-1.4" : str) None)
             | EPostIndex _ :: _ =>
                 Ok (reply 200 (Some (status_reply ("OK" : str))))
             | _ => Raise ConnectionError
             end))
       (fun _ => true) (fun _ => Ok tt))
    (fun _ => Ok elements).

Definition report_elements : list Element :=
  [ mkElement Title ("Report" : str);
    mkElement NarrativeText ("Body text over ten chars" : str) ].

Definition two_paragraphs : list Element :=
  [ mkElement NarrativeText ("The first paragraph." : str);
    mkElement NarrativeText ("The second paragraph." : str) ].

(** a site whose pages can be probed and then drops the connection *)
Definition probe_then_unreachable : World :=
  with_http dead_world
    (fun h =>
       match h with
       | [EGet _ true] =>
           Ok (mkResponse 200 (Some ("text/plain" : str)) [] None)
       | _ => Raise ConnectionError
       end).

(** a page that renders, with a body in a language [detect] calls
    Esperanto; nothing can be extracted from it *)
Definition rendering_world : World :=
  mkWorld (fun h =>
             match h with
             | EGet _ true :: _ =>
                 Ok (mkResponse 200 (Some ("text/html" : str)) [] None)
             | _ => Raise ConnectionError
             end)
          (fun _ => false)
          (fun _ => Raise OSError)
          (fun _ => Ok tt)
          (fun h =>
             match h with
             | EBrowser PageContent :: _ => Ok ("<html><body>Saluton</body></html>" : str)
             | _ => Ok ("http://h/" : str)
             end)
          (fun _ => Ok true)
          (fun _ => Ok (Some ("eo" : str)))
          (fun _ => true)
          (fun _ => Ok ("{...}" : str))
          (fun s => s)
          (fun _ => Raise OtherError)
          (fun _ => Raise UnicodeDecodeError)
          (fun _ => Raise OtherError)
          (fun _ => Raise OtherError)
          (fun _ => Raise OtherError)
          (fun _ => Raise OtherError)
          (fun _ => Raise OtherError)
          (fun _ => Ok (Some ("Saluton" : str)))
          (fun _ => Raise ValueError)
          (fun _ _ => Raise OtherError)
          (fun _ _ _ => Raise OtherError).

(** *** The branches of [index_url] *)

(** [index_url] takes the Markdown, reStructuredText and notebook branch
    (when it does not take the PDF branch) *)
Definition is_markup (url : str) : bool :=
  ends_with (".md" : str) url || ends_with (".rst" : str) url
  || ends_with (".ipynb" : str) (lower url).

(** the extraction did not leave with [return True], and went on with
    [url] itself *)
Definition goes_on_with (url : str) (f : flow (str * list str * option str))
  : Prop :=
  match f with
  | Return b => b = false
  | Continue (url', _, _) => url' = url
  end.

(** the extraction did not leave with [return True] *)
Definition gives_up_or_goes_on (f : flow (str * list str * option str))
  : Prop :=
  match f with
  | Return b => b = false
  | Continue _ => True
  end.

(** an event that is not a delete call *)
Definition not_a_delete (e : Event) : Prop := forall d, e <> EPostDelete d.

(** a site that has none of the pages asked for *)
Definition nothing_there : World :=
  with_http dead_world (fun _ => Ok (reply 404 None)).

(** *** The browser *)

(** the calls that tidy up after a page never raise: asking whether the
    browser is connected, launching it again, closing a context and
    closing a page *)
Definition housekeeping_works (W : World) : Prop :=
  (forall h, exists b, browser_bool W (EBrowser IsConnected :: h) = Ok b) /\
  (forall h, browser_do W (EBrowser Launch :: h) = Ok tt) /\
  (forall h, browser_do W (EBrowser CloseContext :: h) = Ok tt) /\
  (forall h, browser_do W (EBrowser ClosePage :: h) = Ok tt).

(** an event that closes neither a context nor a page *)
Definition not_a_close (e : Event) : Prop :=
  e <> EBrowser CloseContext /\ e <> EBrowser ClosePage.

(** the [finally] block of [fetch_content_with_timeout] *)
Definition close_opened (W : World) (context page : bool) : M unit :=
  (if context then call_r (EBrowser CloseContext) (browser_do W)
   else ret tt) ;;;
  (if page then call_r (EBrowser ClosePage) (browser_do W)
   else ret tt).

(** what [fetch_content_with_timeout] makes of the outcome of its [try]
    block: the handlers *)
Definition recover (W : World) (r : outcome (str * str)) : M (str * str) :=
  match r with
  | Ok v => ret v
  | Raise PlaywrightTimeoutError => ret ([], [])
  | Raise _ =>
      connected <- call_r (EBrowser IsConnected) (browser_bool W) ;;
      (if negb connected
       then call_r (EBrowser Launch) (browser_do W)
       else ret tt) ;;;
      ret ([], [])
  end.

(** *** Content extraction *)

(** [get_content_with_justext] once the name of the stoplist is chosen *)
Definition justext_with (W : World) (keyword html_content : str)
  : M (str * option str) :=
  stoplist <- lift (get_stoplist W keyword) ;;
  paragraphs <- lift (justext W html_content stoplist) ;;
  let text :=
    join NEWLINE
         (map p_text (filter (fun p => negb (is_boilerplate p)) paragraphs)) in
  stitle <- lift (soup_title W html_content) ;;
  match stitle with
  | Some t => ret (text, Some t)
  | None => ret (text, Some ("No title" : str))
  end.

(** the names of the stoplists in [language_stopwords_JusText] *)
Definition stoplist_names : list str :=
  flat_map (fun kv => match snd kv with Some k => [k] | None => [] end)
           language_stopwords_JusText.

(** the Markdown, reStructuredText and notebook branch of [index_url] once
    the converter is chosen *)
Definition markup_with (W : World) (convert : str -> outcome str) (url : str)
  : M (flow (str * list str * option str)) :=
  response <- call_r (EGet url false) (http W) ;;
  lift (raise_for_status response) ;;;
  dl_content <- lift (decode_utf8 W (content response)) ;;
  html_content <- lift (convert dl_content) ;;
  text <- lift (html_to_text W html_content) ;;
  ret (Continue (url, [text], Some (last_segment url))).

(** a page of which goose extracts a short text and justext a longer one *)
Definition two_extractors : World :=
  mkWorld (fun _ => Raise ConnectionError)
          (fun _ => false)
          (fun _ => Raise OSError)
          (fun _ => Ok tt)
          (fun _ => Ok ("http://h/" : str))
          (fun _ => Ok true)
          (fun _ => Ok (Some ("en" : str)))
          (fun _ => true)
          (fun _ => Ok ("{...}" : str))
          (fun s => s)
          (fun _ => Raise OtherError)
          (fun _ => Raise UnicodeDecodeError)
          (fun _ => Raise OtherError)
          (fun _ => Raise OtherError)
          (fun _ => Raise OtherError)
          (fun _ => Raise OtherError)
          (fun _ => Ok (Some ("A page" : str)))
          (fun _ => Raise OtherError)
          (fun k => Ok k)
          (fun _ _ => Ok [mkParagraph ("Menu" : str) true;
                          mkParagraph ("The text of the page." : str) false])
          (fun _ _ _ => Ok ("The text" : str, Some ("Page" : str))).

(** *** The conflicting document of an upload *)

(** in [a ++ sep ++ b], the occurrence of [sep] shown is the first one *)
Definition first_after (sep a : str) : Prop :=
  contains sep (a ++ removelast sep) = false.

(** the reply [{"details": details}] to an upload, with status 409 *)
Definition conflict_reply (details : str) : Response :=
  reply 409 (Some (JObj [("details" : str, JStr details)])).

(** a corpus that turns every upload down with a conflict whose details
    name no document *)
Definition unnamed_conflict : World :=
  with_files
    (with_http dead_world
       (fun _ => Ok (conflict_reply ("The document exists already" : str))))
    (fun _ => true) (fun _ => Ok tt).

(** *** Dates *)

(** the character of a decimal digit *)
Definition digit_char (n : Z) : ascii := ascii_of_nat (48 + Z.to_nat n).

Definition two_digits (n : Z) : str :=
  [digit_char (n / 10); digit_char (n mod 10)].

Definition four_digits (n : Z) : str :=
  [digit_char (n / 1000); digit_char (n / 100 mod 10);
   digit_char (n / 10 mod 10); digit_char (n mod 10)].

(** a date written [YYYY-MM-DD], as [date.isoformat()] writes it *)
Definition isoformat (year month day : Z) : str :=
  four_digits year ++ ("-" : str) ++ two_digits month
  ++ ("-" : str) ++ two_digits day.

(** *** Financial reports *)

(** a section as [crawl] makes them of a report: titled [key - title],
    with a text of more than 100 characters made of lines of at least 10 *)
Definition report_section (s : DocSection) : Prop :=
  100 < List.length (sec_text s) /\
  sec_metadataJson s = None /\
  exists key title lines,
    sec_title s = Some (key ++ (" - " : str) ++ title) /\
    sec_text s = join NEWLINE lines /\
    lines <> [] /\
    Forall (fun line => 10 <= List.length line) lines.

(** a report with a symbol, a short note and two long paragraphs *)
Definition sample_report : json :=
  JObj
    [ ("symbol" : str, JStr ("ACME" : str));
      ("Business" : str,
       JArr
         [ JObj
             [ ("Overview" : str,
                JArr
                  [ JStr ("ACME Corporation designs, makes and sells anvils and related products." : str);
                    JNum 2023;
                    JStr ("short" : str);
                    JStr ("Its customers are in the entertainment business, mostly in the desert." : str) ]);
               ("Note" : str, JArr [ JStr ("Nothing else to report." : str) ]) ] ]) ].

(** *** More worlds and vocabulary *)

(** a corpus that holds [doc-1] already, deletes it, and cannot be
    reached for the resubmission *)
Definition conflict_deleted_then_unreachable : World :=
  with_http dead_world
    (fun h =>
       match h with
       | [EPostIndex _] => Ok (reply 200 (Some (status_reply ("ALREADY_EXISTS" : str))))
       | [EPostDelete _; EPostIndex _] => Ok (reply 200 None)
       | _ => Raise ConnectionError
       end).

(** [k in code], as a fact about the value [code]: the text [k] occurs
    in a string, is an element of a list, or is a key of a dictionary *)
Definition mentions (k : str) (code : json) : Prop :=
  match code with
  | JStr s => contains k s = true
  | JArr l => In (JStr k) l
  | JObj m => exists v, dict_get m k = Some v
  | _ => False
  end.

(** *** What each branch of [index_url] extracts *)

(** the converter the Markdown, reStructuredText and notebook branch
    picks with its inner tests *)
Definition markup_converter (W : World) (url : str) : str -> outcome str :=
  if ends_with ("rst" : str) url then publish_string W
  else if ends_with ("md" : str) url then markdown W
  else notebook_to_html W.

(** From [st0], the state in which the probe left the indexer, the PDF
    branch downloads the file, partitions what it downloaded, and goes on
    with the non-title elements. *)
Definition pdf_extraction (W : World) (url : str) (st0 : State)
           (parts : list str) : Prop :=
  exists response elements,
    http W (EGet url false :: history st0) = Ok response /\
    raise_for_status response = Ok tt /\
    partition W (content response) = Ok elements /\
    parts = pdf_parts elements.

(** The Markdown, reStructuredText and notebook branch downloads the
    file, converts it to HTML, and goes on with one part: the text of that
    HTML. *)
Definition markup_extraction (W : World) (url : str) (st0 : State)
           (parts : list str) : Prop :=
  exists response dl_content html_content text,
    http W (EGet url false :: history st0) = Ok response /\
    raise_for_status response = Ok tt /\
    decode_utf8 W (content response) = Ok dl_content /\
    markup_converter W url dl_content = Ok html_content /\
    soup_get_text W html_content = Ok text /\
    parts = [text].

(** The rendered branch loads the page in the browser and goes on with
    the address the browser ended on and one part: the text that
    [get_content_and_title] extracts from the page, given the language
    stored when it is called; when a language was stored already, nothing
    happens between the loading and the extraction. *)
Definition rendered_extraction (W : World) (url : str) (st0 : State)
           (url' : str) (parts : list str) (st1 : State) : Prop :=
  exists html_content st_f st_d r,
    fetch_content_with_timeout W url 30 st0 = (Ok (url', html_content), st_f) /\
    3 <= List.length html_content /\
    get_content_and_title W html_content url' (detected_language st_d) st_d
    = (Ok r, st1) /\
    parts = [fst r] /\
    (detected_language st0 <> [] -> st_d = st_f).

(** a site that serves a Markdown file, converters that leave the text
    as it is, and a corpus that accepts every document *)
Definition markdown_world : World :=
  mkWorld (fun h =>
             match h with
             | EGet _ true :: _ =>
                 Ok (mkResponse 200 (Some ("text/plain" : str)) [] None)
             | EGet _ false :: _ =>
                 Ok (mkResponse 200 (Some ("text/plain" : str))
                                ("Read me first." : str) None)
             | EPostIndex _ :: _ =>
                 Ok (reply 200 (Some (status_reply ("OK" : str))))
             | _ => Raise ConnectionError
             end)
          (fun _ => false)
          (fun _ => Raise OSError)
          (fun _ => Raise OtherError)
          (fun _ => Raise OtherError)
          (fun _ => Raise OtherError)
          (fun _ => Raise LangDetectException)
          (fun _ => true)
          (fun _ => Ok ("{...}" : str))
          (fun s => s)
          (fun _ => Raise OtherError)
          (fun s => Ok s)
          (fun _ => Raise OtherError)
          (fun s => Ok s)
          (fun _ => Raise OtherError)
          (fun s => Ok s)
          (fun _ => Raise OtherError)
          (fun _ => Raise OtherError)
          (fun _ => Raise ValueError)
          (fun _ _ => Raise OtherError)
          (fun _ _ _ => Raise OtherError).

(** *** Another detector *)

(** [W] with another language detector and another test for the
    [<body>] of a page *)
Definition with_detector (W : World)
           (d : list Event -> outcome (option str))
           (b : str -> outcome (option str)) : World :=
  mkWorld (http W) (fs_exists W) (fs_io W) (browser_do W) (browser_str W)
          (browser_bool W) d (serializable W) (json_dumps W) (slugify W)
          (partition W) (decode_utf8 W) (publish_string W) (markdown W)
          (notebook_to_html W) (soup_get_text W) (soup_title W) b
          (get_stoplist W) (justext W) (goose_extract W).

(** a site whose pages the browser renders, a detector that finds
    Esperanto, extractors that find one paragraph, and a corpus that
    accepts every document *)
Definition page_world : World :=
  mkWorld (fun h =>
             match h with
             | EGet _ true :: _ =>
                 Ok (mkResponse 200 (Some ("text/html" : str)) [] None)
             | EPostIndex _ :: _ =>
                 Ok (reply 200 (Some (status_reply ("OK" : str))))
             | _ => Raise ConnectionError
             end)
          (fun _ => false)
          (fun _ => Raise OSError)
          (fun _ => Ok tt)
          (fun h =>
             match h with
             | EBrowser PageContent :: _ => Ok ("<html><body>Saluton</body></html>" : str)
             | _ => Ok ("http://h/" : str)
             end)
          (fun _ => Ok true)
          (fun _ => Ok (Some ("eo" : str)))
          (fun _ => true)
          (fun _ => Ok ("{...}" : str))
          (fun s => s)
          (fun _ => Raise OtherError)
          (fun _ => Raise UnicodeDecodeError)
          (fun _ => Raise OtherError)
          (fun _ => Raise OtherError)
          (fun _ => Raise OtherError)
          (fun _ => Raise OtherError)
          (fun _ => Ok None)
          (fun _ => Ok (Some ("Saluton" : str)))
          (fun keyword => Ok keyword)
          (fun _ _ => Ok [mkParagraph ("Saluton" : str) false])
          (fun _ _ _ => Raise OtherError).

(** the same, with a detector that answers the empty string *)
Definition blank_detector_world : World :=
  with_detector page_world (fun _ => Ok (Some [])) (soup_body_text page_world).

(** a reply whose status has a code: a JSON object whose [status] is a
    non-empty object that binds [code] *)
Definition status_code_of (result : json) (status : list (str * json))
           (code : json) : Prop :=
  exists m,
    result = JObj m /\
    dict_get m ("status" : str) = Some (JObj status) /\
    status <> [] /\
    dict_get status ("code" : str) = Some code.

End Spec.

(** * Facts *)

Import PyStr Urllib Utils Indexer Spec.

(** ** The reindexing policy of [index_document] *)

Ltac run :=
  cbv beta iota zeta delta
      [bind call_r call lift ret raise get_reindex get_detected_language
       set_detected_language try_except try_finally];
  cbn [fst snd history reindex detected_language].

(** split on the innermost scrutinee of the goal *)
Ltac branch :=
  match goal with
  | |- context [match ?x with _ => _ end] =>
      lazymatch x with
      | context [match _ with _ => _ end] => fail
      | _ => destruct x
      end
  end;
  cbn [fst snd history reindex detected_language].

Lemma says_already_exists_sound result :
  says_already_exists result -> already_exists result = Ok true.
Proof.
  intros (m & st & code & -> & Hst & Hcode & H).
  unfold already_exists. cbn [py_in py_getitem]. rewrite Hst.
  assert (truthy (JObj st) = true) as ->.
  { destruct st; [discriminate | reflexivity]. }
  cbn [negb py_getitem py_in]. rewrite Hcode. cbn [py_in].
  destruct H as [H | (H & detail & Hd & Hdet)].
  - rewrite H. reflexivity.
  - destruct (contains ("ALREADY_EXISTS" : str) code); [reflexivity|].
    rewrite H, Hd. cbn [py_in]. rewrite Hdet. reflexivity.
Qed.

(** C1: what [index_document] does when the first submission comes back
    with HTTP 200 and an already-exists status while reindexing is enabled.
    When the delete call and the resubmission each come back with a
    response, whatever it is, there is exactly one delete call for the
    document's id, then exactly one resubmission, and the answer is [True].
    But an exception of the transport during the delete call, or during the
    resubmission, is not caught as it is for the first submission: it leaves
    [index_document], which then answers nothing. *)
Theorem index_document_reindex_outcomes
        (W : World) (doc : Document) (st : State) :
  first_submission_conflicts W doc st ->
  reindex st = true ->
  let P := EPostIndex doc in
  let D := EPostDelete (documentId doc) in
  let h := history st in
  (forall rd r2,
      http W (D :: P :: h) = Ok rd ->
      http W (P :: D :: P :: h) = Ok r2 ->
      reindexes_once W doc st) /\
  (forall e,
      http W (D :: P :: h) = Raise e ->
      index_document W doc st
      = (Raise e,
         mkState (reindex st) (detected_language st) (D :: P :: h))) /\
  (forall rd e,
      http W (D :: P :: h) = Ok rd ->
      http W (P :: D :: P :: h) = Raise e ->
      index_document W doc st
      = (Raise e,
         mkState (reindex st) (detected_language st) (P :: D :: P :: h))).
Proof.
  intros (Hser & response & result & Hpost & Hcode & Hbody & Hsays) Hre P D h.
  subst P D h.
  unfold reindexes_once, index_document, dumps_request, delete_doc,
    response_json.
  rewrite Hser. run. rewrite Hpost, Hcode, Hbody. cbn.
  rewrite (says_already_exists_sound _ Hsays), Hre. cbn.
  split; [|split].
  - intros rd r2 Hd H2. rewrite Hd. cbn.
    destruct (negb _); cbn; rewrite H2; reflexivity.
  - intros e Hd. rewrite Hd. reflexivity.
  - intros rd e Hd H2. rewrite Hd. cbn.
    destruct (negb _); cbn; rewrite H2; reflexivity.
Qed.

Lemma doc1_conflicts (W : World) :
  serializable W doc1 = true ->
  http W [EPostIndex doc1]
  = Ok (reply 200 (Some (status_reply ("ALREADY_EXISTS" : str)))) ->
  forall b, first_submission_conflicts W doc1 (init b).
Proof.
  intros Hs Hp.
  { intros b. split; [exact Hs|].
    exists (reply 200 (Some (status_reply ("ALREADY_EXISTS" : str)))),
           (status_reply ("ALREADY_EXISTS" : str)).
    repeat split; [exact Hp|].
    exists [("status" : str, JObj [("code" : str, JStr ("ALREADY_EXISTS" : str))])],
           [("code" : str, JStr ("ALREADY_EXISTS" : str))],
           ("ALREADY_EXISTS" : str).
    repeat split. left. reflexivity. }
Defined.

Lemma index_document_reindex_outcomes_witness :
  reindexes_once conflict_then_refused doc1 (init true) /\
  index_document conflict_then_unreachable doc1 (init true)
  = (Raise ConnectionError,
     mkState true [] [EPostDelete ("doc-1" : str); EPostIndex doc1]) /\
  index_document conflict_deleted_then_unreachable doc1 (init true)
  = (Raise ConnectionError,
     mkState true []
             [EPostIndex doc1; EPostDelete ("doc-1" : str); EPostIndex doc1]).
Proof.
  split; [|split].
  - destruct (index_document_reindex_outcomes
                conflict_then_refused doc1 (init true)) as (H & _ & _).
    + apply (doc1_conflicts conflict_then_refused); reflexivity.
    + reflexivity.
    + apply (H (reply 200 None) (reply 500 None)); reflexivity.
  - destruct (index_document_reindex_outcomes
                conflict_then_unreachable doc1 (init true)) as (_ & H & _).
    + apply (doc1_conflicts conflict_then_unreachable); reflexivity.
    + reflexivity.
    + apply (H ConnectionError). reflexivity.
  - destruct (index_document_reindex_outcomes
                conflict_deleted_then_unreachable doc1 (init true))
      as (_ & _ & H).
    + apply (doc1_conflicts conflict_deleted_then_unreachable); reflexivity.
    + reflexivity.
    + apply (H (reply 200 None) ConnectionError); reflexivity.
Defined.

(** C8: with reindexing disabled, when the remote answers HTTP 200 with
    an already-exists status, [index_document] returns [False] and the
    submission is the only call it makes: no delete call, no
    resubmission. *)
Theorem index_document_skips_without_reindex
        (W : World) (doc : Document) (st : State) :
  first_submission_conflicts W doc st ->
  reindex st = false ->
  index_document W doc st
  = (Ok false,
     mkState (reindex st) (detected_language st)
             (EPostIndex doc :: history st)).
Proof.
  intros (Hser & response & result & Hpost & Hcode & Hbody & Hsays) Hre.
  unfold index_document, dumps_request, response_json.
  rewrite Hser. run. rewrite Hpost, Hcode, Hbody. cbn.
  rewrite (says_already_exists_sound _ Hsays), Hre. reflexivity.
Qed.

Lemma index_document_skips_without_reindex_witness :
  index_document conflict_then_refused doc1 (init false)
  = (Ok false, mkState false [] [EPostIndex doc1]).
Proof.
  apply (index_document_skips_without_reindex
           conflict_then_refused doc1 (init false)).
  - apply (doc1_conflicts conflict_then_refused); reflexivity.
  - reflexivity.
Defined.

(** ** The leniency of [index_file] *)

(** C4: the first upload comes back with HTTP 409, reindexing is enabled,
    the delete call and the second upload are made, and the second upload
    comes back with a status other than 200: [index_file] returns [True]. *)
Theorem index_file_lenient_after_failed_reupload
        (W : World) (filename uri : str) (metadata : json) (st : State)
        (m doc_id : str) (r1 rd r2 : Response) :
  let h1 := EUpload uri filename m true :: EFileOpen filename
            :: EFileExists filename :: history st in
  reindex st = true ->
  fs_exists W (EFileExists filename :: history st) = true ->
  fs_io W (EFileOpen filename :: EFileExists filename :: history st) = Ok tt ->
  dumps W metadata = Ok m ->
  http W h1 = Ok r1 ->
  status_code r1 = 409%Z ->
  conflicting_doc_id r1 = Ok doc_id ->
  http W (EPostDelete doc_id :: h1) = Ok rd ->
  http W (EUpload uri filename m false :: EPostDelete doc_id :: h1) = Ok r2 ->
  status_code r2 <> 200%Z ->
  index_file W filename uri metadata st
  = (Ok true,
     mkState true (detected_language st)
             (EUpload uri filename m false :: EPostDelete doc_id :: h1)).
Proof.
  intros h1 Hre Hex Hopen Hm H1 Hc1 Hid Hd H2 Hc2. subst h1.
  unfold index_file, delete_doc. run.
  rewrite Hex. cbn. rewrite Hopen, Hm, H1, Hc1. cbn.
  rewrite Hre, Hid. cbn. rewrite Hd. cbn.
  destruct (negb (status_code rd =? 200)%Z); cbn; rewrite H2;
    destruct (status_code r2 =? 200)%Z; reflexivity.
Qed.

Lemma index_file_lenient_after_failed_reupload_witness :
  index_file conflict_upload ("a.pdf" : str) ("http://h/a.pdf" : str)
             (JObj []) (init true)
  = (Ok true,
     mkState true []
       [EUpload ("http://h/a.pdf" : str) ("a.pdf" : str) ("{}" : str) false;
        EPostDelete ("doc-7" : str);
        EUpload ("http://h/a.pdf" : str) ("a.pdf" : str) ("{}" : str) true;
        EFileOpen ("a.pdf" : str); EFileExists ("a.pdf" : str)]).
Proof.
  apply (index_file_lenient_after_failed_reupload
           conflict_upload ("a.pdf" : str) ("http://h/a.pdf" : str) (JObj [])
           (init true) ("{}" : str) ("doc-7" : str)
           (reply 409
              (Some (JObj [("details" : str,
                            JStr ("ALREADY_EXISTS: document id 'doc-7' is there" : str))])))
           (reply 200 None) (reply 503 None));
    try reflexivity.
  cbn. discriminate.
Defined.

(** ** What a computation records, and what it leaves alone *)

Lemma grows_refl P h : grows P h h.
Proof. exists []. split; [reflexivity | constructor]. Qed.

Lemma grows_cons (P : Event -> Prop) e h h' :
  P e -> grows P h h' -> grows P h (e :: h').
Proof.
  intros He (new & -> & Hn). exists (e :: new).
  split; [reflexivity | constructor; assumption].
Qed.

Lemma grows_trans P h1 h2 h3 :
  grows P h1 h2 -> grows P h2 h3 -> grows P h1 h3.
Proof.
  intros (n1 & -> & H1) (n2 & -> & H2). exists (n2 ++ n1).
  split; [apply app_assoc | apply Forall_app; split; assumption].
Qed.

Lemma grows_weaken (P Q : Event -> Prop) h h' :
  (forall e, P e -> Q e) -> grows P h h' -> grows Q h h'.
Proof.
  intros HPQ (new & -> & Hn). exists new. split; [reflexivity|].
  eapply Forall_impl; eassumption.
Qed.

Section Frames.

Variable P : Event -> Prop.

Lemma emits_ret A (a : A) : emits P (ret a).
Proof. intros st. split; [reflexivity | apply grows_refl]. Qed.

Lemma emits_raise A e : emits P (@raise A e).
Proof. intros st. split; [reflexivity | apply grows_refl]. Qed.

Lemma emits_lift A (r : outcome A) : emits P (lift r).
Proof. intros st. split; [reflexivity | apply grows_refl]. Qed.

Lemma emits_get_reindex : emits P get_reindex.
Proof. intros st. split; [reflexivity | apply grows_refl]. Qed.

Lemma emits_get_detected_language : emits P get_detected_language.
Proof. intros st. split; [reflexivity | apply grows_refl]. Qed.

Lemma emits_set_detected_language l : emits P (set_detected_language l).
Proof. intros st. split; [reflexivity | apply grows_refl]. Qed.

Lemma emits_bind A B (m : M A) (k : A -> M B) :
  emits P m -> (forall a, emits P (k a)) -> emits P (bind m k).
Proof.
  intros Hm Hk st. unfold bind.
  specialize (Hm st). destruct (m st) as [[a | e] st1]; cbn in Hm.
  - destruct Hm as [Hr Hg]. destruct (Hk a st1) as [Hr' Hg'].
    split; [congruence | eapply grows_trans; eassumption].
  - exact Hm.
Qed.

Lemma emits_try_except A (m : M A) (h : exn -> M A) :
  emits P m -> (forall e, emits P (h e)) -> emits P (try_except m h).
Proof.
  intros Hm Hh st. unfold try_except.
  specialize (Hm st). destruct (m st) as [[a | e] st1]; cbn in Hm.
  - exact Hm.
  - destruct Hm as [Hr Hg]. destruct (Hh e st1) as [Hr' Hg'].
    split; [congruence | eapply grows_trans; eassumption].
Qed.

Lemma emits_try_finally A (m : M A) (fin : M unit) :
  emits P m -> emits P fin -> emits P (try_finally m fin).
Proof.
  intros Hm Hf st. unfold try_finally.
  specialize (Hm st). destruct (m st) as [r st1]; cbn in Hm.
  destruct Hm as [Hr Hg]. specialize (Hf st1).
  destruct (fin st1) as [[u | e] st2]; cbn in Hf |- *;
    destruct Hf as [Hr' Hg'];
    (split; [congruence | eapply grows_trans; eassumption]).
Qed.

Lemma emits_call A e (oracle : list Event -> A) :
  P e -> emits P (call e oracle).
Proof.
  intros He st. split; [reflexivity|].
  cbn. apply grows_cons; [exact He | apply grows_refl].
Qed.

Lemma emits_call_r A e (oracle : list Event -> outcome A) :
  P e -> emits P (call_r e oracle).
Proof.
  intros He. unfold call_r. apply emits_bind.
  - apply emits_call, He.
  - intros a. apply emits_lift.
Qed.

End Frames.

Lemma emits_weaken (P Q : Event -> Prop) A (m : M A) :
  (forall e, P e -> Q e) -> emits P m -> emits Q m.
Proof.
  intros HPQ Hm st. destruct (Hm st) as [Hr Hg].
  split; [exact Hr | eapply grows_weaken; eassumption].
Qed.

Lemma keeps_ret A (a : A) : keeps_language (ret a).
Proof. intros st. reflexivity. Qed.

Lemma keeps_raise A e : keeps_language (@raise A e).
Proof. intros st. reflexivity. Qed.

Lemma keeps_lift A (r : outcome A) : keeps_language (lift r).
Proof. intros st. reflexivity. Qed.

Lemma keeps_get_reindex : keeps_language get_reindex.
Proof. intros st. reflexivity. Qed.

Lemma keeps_get_detected_language : keeps_language get_detected_language.
Proof. intros st. reflexivity. Qed.

Lemma keeps_bind A B (m : M A) (k : A -> M B) :
  keeps_language m -> (forall a, keeps_language (k a)) ->
  keeps_language (bind m k).
Proof.
  intros Hm Hk st. unfold bind.
  specialize (Hm st). destruct (m st) as [[a | e] st1]; cbn in Hm.
  - rewrite (Hk a st1). exact Hm.
  - exact Hm.
Qed.

Lemma keeps_try_except A (m : M A) (h : exn -> M A) :
  keeps_language m -> (forall e, keeps_language (h e)) ->
  keeps_language (try_except m h).
Proof.
  intros Hm Hh st. unfold try_except.
  specialize (Hm st). destruct (m st) as [[a | e] st1]; cbn in Hm.
  - exact Hm.
  - rewrite (Hh e st1). exact Hm.
Qed.

Lemma keeps_try_finally A (m : M A) (fin : M unit) :
  keeps_language m -> keeps_language fin ->
  keeps_language (try_finally m fin).
Proof.
  intros Hm Hf st. unfold try_finally.
  specialize (Hm st). destruct (m st) as [r st1]; cbn in Hm.
  specialize (Hf st1).
  destruct (fin st1) as [[u | e] st2]; cbn in Hf |- *; congruence.
Qed.

Lemma keeps_call A e (oracle : list Event -> A) :
  keeps_language (call e oracle).
Proof. intros st. reflexivity. Qed.

Lemma keeps_call_r A e (oracle : list Event -> outcome A) :
  keeps_language (call_r e oracle).
Proof.
  unfold call_r. apply keeps_bind.
  - apply keeps_call.
  - intros a. apply keeps_lift.
Qed.

(** the frame of a computation built from the combinators, by its shape *)
Ltac frame_step :=
  match goal with
  | |- emits _ (bind _ _) => apply emits_bind
  | |- emits _ (try_except _ _) => apply emits_try_except
  | |- emits _ (try_finally _ _) => apply emits_try_finally
  | |- emits _ (ret _) => apply emits_ret
  | |- emits _ (raise _) => apply emits_raise
  | |- emits _ (lift _) => apply emits_lift
  | |- emits _ (call_r _ _) => apply emits_call_r
  | |- emits _ (call _ _) => apply emits_call
  | |- emits _ get_reindex => apply emits_get_reindex
  | |- emits _ get_detected_language => apply emits_get_detected_language
  | |- emits _ (set_detected_language _) => apply emits_set_detected_language
  | |- keeps_language (bind _ _) => apply keeps_bind
  | |- keeps_language (try_except _ _) => apply keeps_try_except
  | |- keeps_language (try_finally _ _) => apply keeps_try_finally
  | |- keeps_language (ret _) => apply keeps_ret
  | |- keeps_language (raise _) => apply keeps_raise
  | |- keeps_language (lift _) => apply keeps_lift
  | |- keeps_language (call_r _ _) => apply keeps_call_r
  | |- keeps_language (call _ _) => apply keeps_call
  | |- keeps_language get_reindex => apply keeps_get_reindex
  | |- keeps_language get_detected_language => apply keeps_get_detected_language
  | |- emits _ (match ?x with _ => _ end) => destruct x
  | |- keeps_language (match ?x with _ => _ end) => destruct x
  | |- forall _, _ => intro
  end.

Ltac frame := repeat frame_step; auto.

Section FunctionFrames.

Variable W : World.
Variable P : Event -> Prop.

Hypothesis P_browser : forall op, P (EBrowser op).
Hypothesis P_get : forall u b, P (EGet u b).
Hypothesis P_file_write : forall f c, P (EFileWrite f c).
Hypothesis P_delete : forall d, P (EPostDelete d).
Hypothesis P_index : forall d, P (EPostIndex d).
Hypothesis P_detect : forall t, P (EDetect t).

Lemma emits_fetch url timeout : emits P (fetch_content_with_timeout W url timeout).
Proof. unfold fetch_content_with_timeout, fetch_attempt. frame. Qed.

Lemma keeps_fetch url timeout :
  keeps_language (fetch_content_with_timeout W url timeout).
Proof. unfold fetch_content_with_timeout, fetch_attempt. frame. Qed.

Lemma emits_get_content_and_title html url lang :
  emits P (get_content_and_title W html url lang).
Proof.
  unfold get_content_and_title, get_content_with_goose3,
    get_content_with_justext. frame.
Qed.

Lemma keeps_get_content_and_title html url lang :
  keeps_language (get_content_and_title W html url lang).
Proof.
  unfold get_content_and_title, get_content_with_goose3,
    get_content_with_justext. frame.
Qed.

Lemma emits_delete_doc d : emits P (delete_doc W d).
Proof. unfold delete_doc. frame. Qed.

Lemma keeps_delete_doc d : keeps_language (delete_doc W d).
Proof. unfold delete_doc. frame. Qed.

Lemma emits_index_document doc : emits P (index_document W doc).
Proof. unfold index_document. frame; apply emits_delete_doc. Qed.

Lemma keeps_index_document doc : keeps_language (index_document W doc).
Proof. unfold index_document. frame; apply keeps_delete_doc. Qed.

Lemma emits_index_segments doc_id parts metadatas doc_metadata title :
  emits P (index_segments W doc_id parts metadatas doc_metadata title).
Proof. unfold index_segments. frame; apply emits_index_document. Qed.

Lemma keeps_index_segments doc_id parts metadatas doc_metadata title :
  keeps_language (index_segments W doc_id parts metadatas doc_metadata title).
Proof. unfold index_segments. frame; apply keeps_index_document. Qed.

Lemma emits_detect_language text : emits P (detect_language W text).
Proof. unfold detect_language. frame. Qed.

Lemma keeps_detect_language text : keeps_language (detect_language W text).
Proof. unfold detect_language. frame. Qed.

Lemma emits_probe url : emits P (probe_content_type W url).
Proof. unfold probe_content_type. frame. Qed.

Lemma keeps_probe url : keeps_language (probe_content_type W url).
Proof. unfold probe_content_type. frame. Qed.

Lemma emits_extract_pdf url : emits P (extract_pdf W url).
Proof. unfold extract_pdf. frame. Qed.

Lemma keeps_extract_pdf url : keeps_language (extract_pdf W url).
Proof. unfold extract_pdf. frame. Qed.

Lemma emits_extract_markup url : emits P (extract_markup W url).
Proof. unfold extract_markup, html_to_text. frame. Qed.

Lemma keeps_extract_markup url : keeps_language (extract_markup W url).
Proof. unfold extract_markup, html_to_text. frame. Qed.

Lemma emits_extract_rendered url : emits P (extract_rendered W url).
Proof.
  unfold extract_rendered. frame;
    try apply emits_fetch; try apply emits_detect_language;
    try apply emits_get_content_and_title.
Qed.

Lemma emits_extract url : emits P (extract W url).
Proof.
  unfold extract. frame;
    try apply emits_probe; try apply emits_extract_pdf;
    try apply emits_extract_markup; try apply emits_extract_rendered.
Qed.

End FunctionFrames.

(** ** The sections of a submitted document *)

Lemma build_sections_texts (W : World) parts metadatas sections :
  build_sections W parts metadatas = Ok sections ->
  map sec_text sections
  = firstn (Nat.min (List.length parts) (List.length metadatas)) parts.
Proof.
  revert metadatas sections.
  induction parts as [|part parts IH]; intros [|md metadatas] sections H;
    cbn in H; try (injection H as <-; reflexivity).
  destruct (dumps W md) as [m|e]; [|discriminate].
  destruct (build_sections W parts metadatas) as [rest|e] eqn:E; [|discriminate].
  injection H as <-. cbn. f_equal. apply IH, E.
Qed.

Lemma build_sections_length (W : World) parts metadatas sections :
  build_sections W parts metadatas = Ok sections ->
  List.length sections
  = Nat.min (List.length parts) (List.length metadatas).
Proof.
  intros H. apply build_sections_texts in H.
  rewrite <- (length_map sec_text), H, length_firstn. lia.
Qed.

Lemma build_sections_total (W : World) parts metadatas :
  Forall (fun md => exists m, dumps W md = Ok m)
         (firstn (List.length parts) metadatas) ->
  exists sections, build_sections W parts metadatas = Ok sections.
Proof.
  revert metadatas.
  induction parts as [|part parts IH]; intros [|md metadatas] H; cbn;
    try (eexists; reflexivity).
  cbn in H. inversion H as [|? ? (m & Hm) Hrest]; subst.
  rewrite Hm. destruct (IH _ Hrest) as (rest & ->). eexists; reflexivity.
Qed.

(** [index_document] talks to the corpus about its document only *)
Lemma index_document_own_events (W : World) doc :
  emits (fun e => e = EPostIndex doc \/ e = EPostDelete (documentId doc))
        (index_document W doc).
Proof. unfold index_document, delete_doc. frame. Qed.

(** when the request can be written, it is posted *)
Lemma index_document_posts (W : World) doc st :
  serializable W doc = true ->
  grows (fun _ => True) (EPostIndex doc :: history st)
        (history (snd (index_document W doc st))).
Proof.
  intros Hser. unfold index_document, dumps_request, delete_doc.
  rewrite Hser. run. repeat branch.
  all: cbn [snd history];
    repeat first [apply grows_refl | apply grows_cons; [exact I|]].
Qed.

(** C9: the document [index_segments] submits has as many sections as
    the shorter of [parts] and [metadatas], with the texts of the leading
    parts in their order; the parts beyond are in no section.  When the
    metadata and the request can be written, the document is submitted. *)
Theorem index_segments_zips_parts_and_metadatas
        (W : World) (doc_id : str) (parts : list str)
        (metadatas : list json) (doc_metadata : json) (title : str)
        (st : State) :
  let n := Nat.min (List.length parts) (List.length metadatas) in
  exists new,
    history (snd (index_segments W doc_id parts metadatas doc_metadata title st))
    = new ++ history st /\
    (forall d, In (EPostIndex d) new ->
               List.length (section d) = n /\
               map sec_text (section d) = firstn n parts) /\
    (Forall (fun md => exists m, dumps W md = Ok m)
            (firstn (List.length parts) metadatas) ->
     (exists m, dumps W doc_metadata = Ok m) ->
     (forall d, serializable W d = true) ->
     exists d, In (EPostIndex d) new).
Proof.
  intros n. unfold index_segments.
  destruct (build_sections W parts metadatas) as [sections|e] eqn:E.
  - pose proof (build_sections_texts _ _ _ _ E) as Ht.
    pose proof (build_sections_length _ _ _ _ E) as Hl.
    fold n in Ht, Hl.
    unfold bind at 1, lift at 1.
    destruct (truthy doc_metadata).
    + destruct (dumps W doc_metadata) as [m|e] eqn:Em.
      * cbv beta iota delta [bind lift ret].
        set (doc := mkDocument _ _ _ _).
        destruct (index_document_own_events W doc st) as [_ (new & Hn & Hf)].
        exists new. split; [exact Hn|]. split.
        -- intros d Hd. rewrite Forall_forall in Hf.
           destruct (Hf _ Hd) as [H|H]; [|discriminate].
           injection H as ->. cbn. split; assumption.
        -- intros _ _ Hser. exists doc.
           destruct (index_document_posts W doc st (Hser doc)) as (n2 & Hn2 & _).
           rewrite Hn in Hn2.
           assert (new = n2 ++ [EPostIndex doc]) as ->.
           { apply (app_inv_tail (history st)).
             rewrite Hn2, <- app_assoc. reflexivity. }
           apply in_or_app. right. left. reflexivity.
      * cbv beta iota delta [bind lift ret]. exists []. split; [reflexivity|].
        split; [intros d []|].
        intros _ (m & Hm). discriminate.
    + cbv beta iota delta [bind lift ret].
      set (doc := mkDocument _ _ _ _).
      destruct (index_document_own_events W doc st) as [_ (new & Hn & Hf)].
      exists new. split; [exact Hn|]. split.
      * intros d Hd. rewrite Forall_forall in Hf.
        destruct (Hf _ Hd) as [H|H]; [|discriminate].
        injection H as ->. cbn. split; assumption.
      * intros _ _ Hser. exists doc.
        destruct (index_document_posts W doc st (Hser doc)) as (n2 & Hn2 & _).
        rewrite Hn in Hn2.
        assert (new = n2 ++ [EPostIndex doc]) as ->.
        { apply (app_inv_tail (history st)).
          rewrite Hn2, <- app_assoc. reflexivity. }
        apply in_or_app. right. left. reflexivity.
  - unfold bind at 1, lift at 1. exists []. split; [reflexivity|].
    split; [intros d []|].
    intros Hall. destruct (build_sections_total W parts metadatas Hall) as (s & Hs).
    congruence.
Qed.

Lemma index_segments_zips_parts_and_metadatas_witness :
  exists new,
    history (snd (index_segments accepting ("d" : str)
                    ["a" : str; "b" : str; "c" : str] [JObj []; JObj []]
                    (JObj []) ("t" : str) (init true)))
    = new ++ [] /\
    (forall d, In (EPostIndex d) new ->
               List.length (section d) = 2 /\
               map sec_text (section d) = ["a" : str; "b" : str]) /\
    exists d, In (EPostIndex d) new.
Proof.
  destruct (index_segments_zips_parts_and_metadatas
              accepting ("d" : str) ["a" : str; "b" : str; "c" : str]
              [JObj []; JObj []] (JObj []) ("t" : str) (init true))
    as (new & H1 & H2 & H3).
  exists new. split; [exact H1|]. split; [exact H2|].
  apply H3.
  - repeat constructor; exists ("{}" : str); reflexivity.
  - exists ("{}" : str); reflexivity.
  - intros d. reflexivity.
Defined.

(** ** The PDF branch of [index_url] *)

(** C5 (as stated) fails: for the elements [Title("Report")],
    [NarrativeText("Body text over ten chars")] the title is not
    [Report]: the document [index_url] submits is titled [unknown]. *)
Lemma pdf_report_title_is_not_report :
  pdf_title report_elements <> ("Report" : str)
  /\ index_url (pdf_world report_elements) ("http://h/report.pdf" : str)
               (JObj []) (init true)
     = (Ok true,
        mkState true []
          [EPostIndex
             (mkDocument ("http://h/report.pdf" : str)
                (Some ("unknown" : str))
                [mkSection ("Body text over ten chars" : str) None
                           (Some ("{}" : str))]
                None);
           EFileWrite ("tmp.pdf" : str) ("%PDF-1.4" : str);
           EGet ("http://h/report.pdf" : str) false;
           EGet ("http://h/report.pdf" : str) true]).
Proof.
  split.
  - vm_compute. discriminate.
  - vm_compute. reflexivity.
Qed.

Lemma pdf_titles_find elements :
  pdf_title elements
  = match find (fun x => is_Title (el_type x) && (20 <? List.length (el_str x)))
               elements with
    | Some x => el_str x
    | None => "unknown" : str
    end.
Proof.
  unfold pdf_title, pdf_titles.
  induction elements as [|x elements IH]; [reflexivity|].
  cbn [filter find].
  destruct (is_Title (el_type x) && (20 <? List.length (el_str x)));
    [reflexivity | exact IH].
Qed.

(** C5 (as amended): when the partition of the PDF is [Title("Report")],
    [NarrativeText("Body text over ten chars")], the PDF branch yields the
    text parts [["Body text over ten chars"]] and the title [unknown]; in
    general the title is the text of the first title element longer than
    20 characters, and [unknown] when there is none. *)
Theorem pdf_report_extraction
        (W : World) (url : str) (st : State) (response : Response) :
  http W (EGet url false :: history st) = Ok response ->
  raise_for_status response = Ok tt ->
  fs_io W (EFileWrite ("tmp.pdf" : str) (content response)
           :: EGet url false :: history st) = Ok tt ->
  partition W (content response) = Ok report_elements ->
  extract_pdf W url st
  = (Ok (Continue (url, ["Body text over ten chars" : str],
                   Some ("unknown" : str))),
     mkState (reindex st) (detected_language st)
             (EFileWrite ("tmp.pdf" : str) (content response)
              :: EGet url false :: history st))
  /\ forall elements,
       pdf_title elements
       = match find (fun x => is_Title (el_type x)
                              && (20 <? List.length (el_str x))) elements with
         | Some x => el_str x
         | None => "unknown" : str
         end.
Proof.
  intros Hget Hst Hw Hp. split; [|apply pdf_titles_find].
  unfold extract_pdf. run. rewrite Hget, Hst. cbn. rewrite Hw, Hp.
  reflexivity.
Qed.

Lemma pdf_report_extraction_witness :
  extract_pdf (pdf_world report_elements) ("http://h/report.pdf" : str)
              (init true)
  = (Ok (Continue ("http://h/report.pdf" : str,
                   ["Body text over ten chars" : str],
                   Some ("unknown" : str))),
     mkState true []
             [EFileWrite ("tmp.pdf" : str) ("%PDF-1.4" : str);
              EGet ("http://h/report.pdf" : str) false]).
Proof.
  apply (pdf_report_extraction
           (pdf_world report_elements) ("http://h/report.pdf" : str)
           (init true)
           (mkResponse 200 (Some ("application/pdf" : str))
                       ("%PDF-1.4" : str) None));
    reflexivity.
Defined.

(** ** Exceptions in [index_url] *)

Lemma try_except_total A (m : M A) (b : A) st :
  exists a, fst (try_except m (fun _ => ret b) st) = Ok a.
Proof.
  unfold try_except, ret. destruct (m st) as [[a|e] st1]; eexists; reflexivity.
Qed.

(** the probe, the PDF branch and the rendered branch turn every
    exception into [return False] *)
Lemma guarded_branches_never_raise (W : World) url st :
  (exists f, fst (probe_content_type W url st) = Ok f) /\
  (exists f, fst (extract_pdf W url st) = Ok f) /\
  (exists f, fst (extract_rendered W url st) = Ok f).
Proof.
  repeat split; apply try_except_total.
Qed.

(** C2 fails on the Markdown, reStructuredText and notebook branch, which
    has no handler: the probe of [README.md] succeeds, the download fails,
    and the exception of the transport leaves [index_url]. *)
Theorem index_url_markup_branch_raises :
  index_url probe_then_unreachable ("http://example.com/README.md" : str)
            (JObj []) (init true)
  = (Raise ConnectionError,
     mkState true []
             [EGet ("http://example.com/README.md" : str) false;
              EGet ("http://example.com/README.md" : str) true]).
Proof. vm_compute. reflexivity. Qed.

(** ** The parts [index_url] hands to [index_segments] *)

Lemma returns_ret A (Q : A -> Prop) a : Q a -> returns Q (ret a).
Proof. intros H st a' st' E. injection E as <- _. exact H. Qed.

Lemma returns_raise A (Q : A -> Prop) e : returns Q (raise e).
Proof. intros st a st' E. discriminate E. Qed.

Lemma returns_bind A B (Q : B -> Prop) (m : M A) (k : A -> M B) :
  (forall a, returns Q (k a)) -> returns Q (bind m k).
Proof.
  intros Hk st b st' E. unfold bind in E.
  destruct (m st) as [[a|e] st1]; [|discriminate].
  eapply Hk, E.
Qed.

Lemma returns_bind_lift A B (Q : B -> Prop) (r : outcome A) (k : A -> M B) :
  (forall a, r = Ok a -> returns Q (k a)) -> returns Q (bind (lift r) k).
Proof.
  intros Hk st b st' E. unfold bind, lift in E.
  destruct r as [a|e]; [|discriminate].
  eapply (Hk a eq_refl), E.
Qed.

Lemma returns_bind_call_r A B (Q : B -> Prop) ev
      (oracle : list Event -> outcome A) (k : A -> M B) :
  (forall a, returns Q (k a)) -> returns Q (bind (call_r ev oracle) k).
Proof. apply returns_bind. Qed.

Lemma returns_try_except A (Q : A -> Prop) (m : M A) (h : exn -> M A) :
  returns Q m -> (forall e, returns Q (h e)) -> returns Q (try_except m h).
Proof.
  intros Hm Hh st a st' E. unfold try_except in E.
  destruct (m st) as [[a1|e] st1] eqn:Em.
  - injection E as <- <-. eapply Hm, Em.
  - eapply Hh, E.
Qed.

Lemma extract_pdf_inv (W : World) url st0 url' parts title st1 :
  extract_pdf W url st0 = (Ok (Continue (url', parts, title)), st1) ->
  url' = url /\ pdf_extraction W url st0 parts.
Proof.
  unfold extract_pdf, pdf_extraction. run.
  destruct (http W (EGet url false :: history st0)) as [response|e];
    [|discriminate].
  destruct (raise_for_status response) as [[]|e] eqn:Es; [|discriminate].
  cbn [fst snd history reindex detected_language].
  destruct (fs_io W _) as [u|e]; [|discriminate].
  destruct (partition W (content response)) as [elements|e] eqn:Ep;
    [|discriminate].
  intros H. injection H as <- <- _ _.
  split; [reflexivity|]. exists response, elements. repeat split; assumption.
Qed.

Lemma extract_markup_inv (W : World) url st0 url' parts title st1 :
  extract_markup W url st0 = (Ok (Continue (url', parts, title)), st1) ->
  url' = url /\ markup_extraction W url st0 parts.
Proof.
  unfold extract_markup, markup_extraction, markup_converter, html_to_text.
  run.
  destruct (http W (EGet url false :: history st0)) as [response|e];
    [|discriminate].
  destruct (raise_for_status response) as [[]|e] eqn:Es; [|discriminate].
  destruct (decode_utf8 W (content response)) as [dl|e] eqn:Ed;
    [|discriminate].
  destruct (ends_with ("rst" : str) url).
  - destruct (publish_string W dl) as [html|e] eqn:Eh; [|discriminate].
    destruct (soup_get_text W html) as [text|e] eqn:Et; [|discriminate].
    intros H. injection H as <- <- _ _. split; [reflexivity|].
    exists response, dl, html, text. repeat split; assumption.
  - destruct (ends_with ("md" : str) url).
    + destruct (markdown W dl) as [html|e] eqn:Eh; [|discriminate].
      destruct (soup_get_text W html) as [text|e] eqn:Et; [|discriminate].
      intros H. injection H as <- <- _ _. split; [reflexivity|].
      exists response, dl, html, text. repeat split; assumption.
    + destruct (ends_with ("ipynb" : str) (lower url)); [|discriminate].
      destruct (notebook_to_html W dl) as [html|e] eqn:Eh; [|discriminate].
      destruct (soup_get_text W html) as [text|e] eqn:Et; [|discriminate].
      intros H. injection H as <- <- _ _. split; [reflexivity|].
      exists response, dl, html, text. repeat split; assumption.
Qed.

Lemma extract_rendered_inv (W : World) url st0 url' parts title st1 :
  extract_rendered W url st0 = (Ok (Continue (url', parts, title)), st1) ->
  rendered_extraction W url st0 url' parts st1.
Proof.
  unfold extract_rendered, rendered_extraction, try_except.
  unfold bind at 1.
  pose proof (keeps_fetch W url 30 st0) as Hk.
  destruct (fetch_content_with_timeout W url 30 st0)
    as [[[actual_url html_content]|e] st_f] eqn:Ef; [|discriminate].
  cbn [snd] in Hk.
  destruct (List.length html_content <? 3) eqn:Hlen; [discriminate|].
  apply Nat.ltb_ge in Hlen.
  unfold bind at 1, get_detected_language at 1. cbv beta iota.
  unfold bind at 1.
  match goal with
  | |- context [match ?b st_f with (_, _) => _ end] => set (block := b)
  end.
  assert (detected_language st_f <> [] -> block st_f = (Ok tt, st_f)) as Hb.
  { intros Hne. subst block.
    destruct (detected_language st_f); [contradiction | reflexivity]. }
  destruct (block st_f) as [[[]|e] st_d] eqn:Eb; [|discriminate].
  unfold bind at 1, get_detected_language at 1. cbv beta iota.
  unfold bind at 1.
  destruct (get_content_and_title W html_content actual_url
                                  (detected_language st_d) st_d)
    as [[r|e] st2] eqn:Eg; [|discriminate].
  unfold ret. intros H. injection H as <- <- _ <-.
  exists html_content, st_f, st_d, r.
  split; [reflexivity|]. split; [exact Hlen|]. split; [exact Eg|].
  split; [reflexivity|].
  intros Hne. rewrite <- Hk in Hne. specialize (Hb Hne).
  congruence.
Qed.

(** what [extract] went on with comes from the branch the content type
    and the URL select *)
Lemma extract_inv (W : World) url st url' parts title st1 :
  extract W url st = (Ok (Continue (url', parts, title)), st1) ->
  exists content_type st0,
    probe_content_type W url st = (Ok (Continue content_type), st0) /\
    if is_pdf content_type url
    then url' = url /\ pdf_extraction W url st0 parts
    else if is_markup url
         then url' = url /\ markup_extraction W url st0 parts
         else rendered_extraction W url st0 url' parts st1.
Proof.
  intros E. unfold extract, bind in E.
  destruct (probe_content_type W url st) as [[[b|ct]|e] st0];
    try discriminate.
  exists ct, st0. split; [reflexivity|].
  fold (is_pdf ct url) in E. fold (is_markup url) in E.
  destruct (is_pdf ct url).
  - apply extract_pdf_inv in E. exact E.
  - destruct (is_markup url).
    + apply extract_markup_inv in E. exact E.
    + apply extract_rendered_inv in E. exact E.
Qed.

Lemma index_segments_posted_texts
      (W : World) doc_id parts metadatas doc_metadata title :
  emits (fun e => forall d, e = EPostIndex d ->
                   map sec_text (section d)
                   = firstn (Nat.min (List.length parts) (List.length metadatas))
                            parts)
        (index_segments W doc_id parts metadatas doc_metadata title).
Proof.
  assert (forall sections mj,
             build_sections W parts metadatas = Ok sections ->
             emits (fun e => forall d, e = EPostIndex d ->
                      map sec_text (section d)
                      = firstn (Nat.min (List.length parts)
                                        (List.length metadatas)) parts)
                   (index_document W
                      (mkDocument doc_id
                         match title with [] => None | _ :: _ => Some title end
                         sections mj))) as Hdoc.
  { intros sections mj E.
    eapply emits_weaken; [|apply index_document_own_events].
    intros ev [->| ->] d Hd; [|discriminate].
    injection Hd as <-. cbn. apply (build_sections_texts _ _ _ _ E). }
  intros st. unfold index_segments.
  destruct (build_sections W parts metadatas) as [sections|e] eqn:E.
  - unfold bind at 1, lift at 1.
    destruct (truthy doc_metadata).
    + destruct (dumps W doc_metadata) as [m|e];
        cbv beta iota delta [bind lift ret].
      * apply (Hdoc sections (Some m) eq_refl).
      * split; [reflexivity | apply grows_refl].
    + cbv beta iota delta [bind lift ret].
      apply (Hdoc sections None eq_refl).
  - unfold bind at 1, lift at 1. split; [reflexivity | apply grows_refl].
Qed.

Lemma probe_gives_up_or_goes_on (W : World) url :
  returns (fun f => match f with Return b => b = false | Continue _ => True end)
          (probe_content_type W url).
Proof.
  unfold probe_content_type. apply returns_try_except.
  - apply returns_bind. intros response.
    destruct (negb (status_code response =? 200)%Z).
    + apply returns_ret. reflexivity.
    + destruct (content_type response).
      * apply returns_ret. exact I.
      * apply returns_raise.
  - intros e. apply returns_ret. reflexivity.
Qed.

Lemma extract_pdf_goes_on (W : World) url :
  returns (goes_on_with url) (extract_pdf W url).
Proof.
  unfold extract_pdf. apply returns_try_except.
  - repeat (apply returns_bind; intro). apply returns_ret. reflexivity.
  - intros e. apply returns_ret. reflexivity.
Qed.

Lemma extract_markup_goes_on (W : World) url :
  returns (goes_on_with url) (extract_markup W url).
Proof.
  unfold extract_markup.
  repeat (apply returns_bind; intro). apply returns_ret. reflexivity.
Qed.

Lemma extract_rendered_gives_up_or_goes_on (W : World) url :
  returns gives_up_or_goes_on (extract_rendered W url).
Proof.
  unfold extract_rendered. apply returns_try_except.
  - apply returns_bind. intros [actual_url html_content].
    destruct (List.length html_content <? 3).
    + apply returns_ret. reflexivity.
    + repeat (apply returns_bind; intro). apply returns_ret. exact I.
  - intros e. apply returns_ret. reflexivity.
Qed.

Lemma goes_on_weaken url f : goes_on_with url f -> gives_up_or_goes_on f.
Proof. destruct f as [b|[[u p] t]]; cbn; auto. Qed.

Lemma extract_gives_up (W : World) url st b st1 :
  extract W url st = (Ok (Return b), st1) -> b = false.
Proof.
  unfold extract, bind.
  pose proof (probe_gives_up_or_goes_on W url st) as Hp.
  destruct (probe_content_type W url st) as [[[b0|ct]|e] st0];
    try discriminate.
  - intros E. injection E as -> _. exact (Hp _ _ eq_refl).
  - destruct (str_eqb ct ("application/pdf" : str) || ends_with (".pdf" : str) url).
    + intros E. apply extract_pdf_goes_on in E. exact E.
    + destruct (ends_with (".md" : str) url || ends_with (".rst" : str) url
                || ends_with (".ipynb" : str) (lower url)).
      * intros E. apply extract_markup_goes_on in E. exact E.
      * intros E. apply extract_rendered_gives_up_or_goes_on in E. exact E.
Qed.

Lemma index_document_unfold (W : World) doc st :
  index_document W doc st
  = if serializable W doc then
      match http W (EPostIndex doc :: history st) with
      | Raise _ =>
          (Ok false, mkState (reindex st) (detected_language st)
                             (EPostIndex doc :: history st))
      | Ok response =>
          let st1 := mkState (reindex st) (detected_language st)
                             (EPostIndex doc :: history st) in
          if negb (status_code response =? 200)%Z then (Ok false, st1)
          else
            match response_json response with
            | Raise e => (Raise e, st1)
            | Ok result =>
                match already_exists result with
                | Raise e => (Raise e, st1)
                | Ok true =>
                    if reindex st then
                      ((delete_doc W (documentId doc) ;;;
                        call_r (EPostIndex doc) (http W) ;;;
                        ret true) st1)
                    else (Ok false, st1)
                | Ok false =>
                    match status_ok result with
                    | Raise e => (Raise e, st1)
                    | Ok ok => (Ok ok, st1)
                    end
                end
            end
      end
    else (Ok false, st).
Proof.
  unfold index_document, dumps_request.
  destruct (serializable W doc) eqn:Hser; [|reflexivity].
  run.
  destruct (http W (EPostIndex doc :: history st)) as [response|e];
    [|reflexivity].
  destruct (negb (status_code response =? 200)%Z); [reflexivity|].
  destruct (response_json response) as [result|e]; [|reflexivity].
  destruct (already_exists result) as [[|]|e]; try reflexivity.
  - destruct (reindex st); [|reflexivity].
    reflexivity.
  - destruct (status_ok result) as [[|]|e]; reflexivity.
Qed.

(** the delete call and the resubmission of the reindexing branch *)
Lemma resubmission_cases (W : World) doc st :
  let D := EPostDelete (documentId doc) in
  let P := EPostIndex doc in
  let tail := (delete_doc W (documentId doc) ;;;
               call_r P (http W) ;;; ret true) st in
  (exists e, tail = (Raise e, mkState (reindex st) (detected_language st)
                                      (D :: history st)))
  \/ (exists e, tail = (Raise e, mkState (reindex st) (detected_language st)
                                         (P :: D :: history st)))
  \/ tail = (Ok true, mkState (reindex st) (detected_language st)
                              (P :: D :: history st)).
Proof.
  intros D P tail. subst tail D P. unfold delete_doc. run.
  destruct (http W (EPostDelete (documentId doc) :: history st)) as [rd|e].
  - destruct (negb (status_code rd =? 200)%Z); cbn;
      destruct (http W (EPostIndex doc :: EPostDelete (documentId doc)
                        :: history st)) as [r2|e];
      first [ right; right; reflexivity
            | right; left; exists e; reflexivity ].
  - left. exists e. reflexivity.
Qed.

Lemma index_document_true_records (W : World) doc st st' :
  index_document W doc st = (Ok true, st') ->
  exists new, history st' = new ++ history st /\ In (EPostIndex doc) new.
Proof.
  rewrite index_document_unfold. intros H.
  destruct (serializable W doc); [|discriminate].
  destruct (http W (EPostIndex doc :: history st)) as [response|e];
    [|discriminate].
  cbv zeta in H.
  destruct (negb (status_code response =? 200)%Z); [discriminate|].
  destruct (response_json response) as [result|e]; [|discriminate].
  destruct (already_exists result) as [[|]|e]; [| |discriminate].
  - destruct (reindex st); [|discriminate].
    pose proof (resubmission_cases W doc
                  (mkState true (detected_language st)
                           (EPostIndex doc :: history st))) as Hr.
    cbv zeta in Hr. cbn [reindex detected_language history] in Hr.
    destruct Hr as [(e & Hr) | [(e & Hr) | Hr]]; rewrite Hr in H;
      try discriminate.
    injection H as <-.
    exists [EPostIndex doc; EPostDelete (documentId doc); EPostIndex doc].
    split; [reflexivity | left; reflexivity].
  - destruct (status_ok result) as [ok|e]; [|discriminate].
    injection H as _ <-.
    exists [EPostIndex doc]. split; [reflexivity | left; reflexivity].
Qed.

Lemma index_segments_true_records
      (W : World) doc_id parts metadatas doc_metadata title st st' :
  index_segments W doc_id parts metadatas doc_metadata title st = (Ok true, st') ->
  exists d new, history st' = new ++ history st /\ In (EPostIndex d) new.
Proof.
  unfold index_segments, bind, lift. intros H.
  destruct (build_sections W parts metadatas) as [sections|e]; [|discriminate].
  destruct (truthy doc_metadata).
  - destruct (dumps W doc_metadata) as [m|e]; [|discriminate].
    cbv beta iota delta [ret] in H.
    eexists. apply (index_document_true_records _ _ _ _ H).
  - cbv beta iota delta [ret] in H.
    eexists. apply (index_document_true_records _ _ _ _ H).
Qed.

(** what [index_url] records: a submission when it answers [True], and
    in every submission the parts the extraction went on with *)
Lemma index_url_posted (W : World) (url : str) (metadata : json) (st : State) :
  exists new,
    history (snd (index_url W url metadata st)) = new ++ history st /\
    (fst (index_url W url metadata st) = Ok true ->
     exists d, In (EPostIndex d) new) /\
    forall d, In (EPostIndex d) new ->
      exists url' parts title st1,
        extract W url st = (Ok (Continue (url', parts, title)), st1) /\
        map sec_text (section d) = parts.
Proof.
  assert (emits (fun e => forall d, e <> EPostIndex d) (extract W url)) as Hex.
  { apply emits_extract; intros; discriminate. }
  destruct (Hex st) as [_ (new1 & Hn1 & Hf1)].
  rewrite Forall_forall in Hf1.
  unfold index_url, bind.
  destruct (extract W url st) as [[[b|[[url' parts] title]]|e] st1] eqn:E;
    cbn [snd] in Hn1.
  - exists new1. split; [exact Hn1|]. split.
    + cbn [fst ret]. intros Hb. pose proof (extract_gives_up W url st b st1 E).
      congruence.
    + intros d Hd. destruct (Hf1 _ Hd d eq_refl).
  - match goal with
    | |- context [index_segments W ?i ?p ?ms ?dm ?t st1] =>
        pose proof (index_segments_posted_texts W i p ms dm t st1) as [_ Hseg];
          pose proof (index_segments_true_records W i p ms dm t st1) as Hrec;
          destruct (index_segments W i p ms dm t st1) as [[succeeded|e] st2]
    end;
      cbn [snd] in Hseg; destruct Hseg as (new2 & Hn2 & Hf2);
      rewrite Forall_forall in Hf2;
      exists (new2 ++ new1).
    + split.
      { destruct succeeded; cbn; rewrite Hn2, Hn1; apply app_assoc. }
      split.
      { destruct succeeded; cbn [fst ret]; [|discriminate]. intros _.
        destruct (Hrec st2 eq_refl) as (d & new & Hn & Hin).
        exists d. apply in_or_app. left.
        rewrite Hn2 in Hn. apply app_inv_tail in Hn. subst new2. exact Hin. }
      intros d Hd. apply in_app_or in Hd. destruct Hd as [Hd|Hd].
      * exists url', parts, title, st1. split; [reflexivity|].
        rewrite (Hf2 _ Hd d eq_refl), repeat_length, Nat.min_id.
        apply firstn_all.
      * destruct (Hf1 _ Hd d eq_refl).
    + split.
      { cbn; rewrite Hn2, Hn1; apply app_assoc. }
      split; [discriminate|].
      intros d Hd. apply in_app_or in Hd. destruct Hd as [Hd|Hd].
      * exists url', parts, title, st1. split; [reflexivity|].
        rewrite (Hf2 _ Hd d eq_refl), repeat_length, Nat.min_id.
        apply firstn_all.
      * destruct (Hf1 _ Hd d eq_refl).
  - exists new1. split; [exact Hn1|]. split; [discriminate|].
    intros d Hd. destruct (Hf1 _ Hd d eq_refl).
Qed.

(** C3 (as amended): when [index_url] answers [True] it has submitted a
    document, and every document it submits holds the parts the
    extraction went on with, one section for each part, in order.  On the
    PDF branch (content type [application/pdf], or a URL ending in [.pdf])
    the parts are the non-title elements of the partition of the file that
    was downloaded.  On the Markdown, reStructuredText and notebook branch
    there is exactly one part, the text of the HTML the downloaded file
    was converted to.  On the rendered branch there is exactly one part,
    the text [get_content_and_title] extracts from the page the browser
    loaded. *)
Theorem index_url_sections
        (W : World) (url : str) (metadata : json) (st : State) :
  exists new,
    history (snd (index_url W url metadata st)) = new ++ history st /\
    (fst (index_url W url metadata st) = Ok true ->
     exists d, In (EPostIndex d) new) /\
    forall d, In (EPostIndex d) new ->
      exists content_type st0 url' parts title st1,
        probe_content_type W url st = (Ok (Continue content_type), st0) /\
        extract W url st = (Ok (Continue (url', parts, title)), st1) /\
        map sec_text (section d) = parts /\
        if is_pdf content_type url
        then url' = url /\ pdf_extraction W url st0 parts
        else if is_markup url
             then url' = url /\ markup_extraction W url st0 parts
             else rendered_extraction W url st0 url' parts st1.
Proof.
  destruct (index_url_posted W url metadata st) as (new & Hn & Hok & Hd).
  exists new. split; [exact Hn|]. split; [exact Hok|].
  intros d Hin.
  destruct (Hd d Hin) as (url' & parts & title & st1 & E & Hmap).
  destruct (extract_inv W url st url' parts title st1 E)
    as (ct & st0 & Hp & Hparts).
  exists ct, st0, url', parts, title, st1.
  repeat split; assumption.
Qed.

(** C3 (as stated) fails: a PDF with two paragraphs is processed
    successfully and the document submitted has two sections. *)
Lemma index_url_pdf_two_sections :
  index_url (pdf_world two_paragraphs) ("http://h/a.pdf" : str)
            (JObj []) (init true)
  = (Ok true,
     mkState true []
       [EPostIndex
          (mkDocument ("http://h/a.pdf" : str) (Some ("unknown" : str))
             [mkSection ("The first paragraph." : str) None (Some ("{}" : str));
              mkSection ("The second paragraph." : str) None (Some ("{}" : str))]
             None);
        EFileWrite ("tmp.pdf" : str) ("%PDF-1.4" : str);
        EGet ("http://h/a.pdf" : str) false;
        EGet ("http://h/a.pdf" : str) true]).
Proof. vm_compute. reflexivity. Qed.

Lemma index_url_sections_witness :
  (exists new,
      history (snd (index_url (pdf_world two_paragraphs)
                              ("http://h/a.pdf" : str) (JObj []) (init true)))
      = new ++ [] /\
      exists d, In (EPostIndex d) new /\
                map sec_text (section d) = pdf_parts two_paragraphs) /\
  (exists new,
      history (snd (index_url markdown_world
                              ("http://h/README.md" : str) (JObj []) (init true)))
      = new ++ [] /\
      exists d, In (EPostIndex d) new /\
                map sec_text (section d) = [("Read me first." : str)]) /\
  (exists new,
      history (snd (index_url page_world ("http://h/a" : str) (JObj [])
                              (mkState true ("eo" : str) [])))
      = new ++ [] /\
      exists d, In (EPostIndex d) new /\
                map sec_text (section d) = [("Saluton" : str)]).
Proof.
  split; [|split].
  - destruct (index_url_sections (pdf_world two_paragraphs)
                ("http://h/a.pdf" : str) (JObj []) (init true))
      as (new & Hn & Hok & Hd).
    exists new. split; [exact Hn|].
    destruct (Hok ltac:(vm_compute; reflexivity)) as (d & Hin).
    exists d. split; [exact Hin|].
    destruct (Hd d Hin)
      as (ct & st0 & url' & parts & title & st1 & Hp & _ & <- & Hbr).
    vm_compute in Hp. injection Hp as <- <-.
    change (is_pdf _ _) with true in Hbr.
    destruct Hbr as (_ & response & elements & H1 & _ & H2 & ->).
    vm_compute in H2. injection H2 as <-. reflexivity.
  - destruct (index_url_sections markdown_world
                ("http://h/README.md" : str) (JObj []) (init true))
      as (new & Hn & Hok & Hd).
    exists new. split; [exact Hn|].
    destruct (Hok ltac:(vm_compute; reflexivity)) as (d & Hin).
    exists d. split; [exact Hin|].
    destruct (Hd d Hin)
      as (ct & st0 & url' & parts & title & st1 & Hp & _ & <- & Hbr).
    vm_compute in Hp. injection Hp as <- <-.
    change (is_pdf _ _) with false in Hbr.
    change (is_markup _) with true in Hbr.
    destruct Hbr as (_ & response & dl & html & text & H1 & _ & H2 & H3 & H4 & ->).
    vm_compute in H1. injection H1 as <-.
    vm_compute in H2. injection H2 as <-.
    vm_compute in H3. injection H3 as <-.
    vm_compute in H4. injection H4 as <-.
    reflexivity.
  - destruct (index_url_sections page_world
                ("http://h/a" : str) (JObj []) (mkState true ("eo" : str) []))
      as (new & Hn & Hok & Hd).
    exists new. split; [exact Hn|].
    destruct (Hok ltac:(vm_compute; reflexivity)) as (d & Hin).
    exists d. split; [exact Hin|].
    destruct (Hd d Hin)
      as (ct & st0 & url' & parts & title & st1 & Hp & _ & <- & Hbr).
    vm_compute in Hp. injection Hp as <- <-.
    change (is_pdf _ _) with false in Hbr.
    change (is_markup _) with false in Hbr.
    destruct Hbr as (html & st_f & st_d & r & Hf' & _ & Hg & -> & Hsame).
    specialize (Hsame ltac:(discriminate)). subst st_d.
    assert (fst (fetch_content_with_timeout page_world
                   ("http://h/a" : str) 30
                   (mkState true ("eo" : str) [EGet ("http://h/a" : str) true]))
            = Ok (("http://h/" : str),
                  ("<html><body>Saluton</body></html>" : str))) as Hf
        by (vm_compute; reflexivity).
    assert (detected_language
              (snd (fetch_content_with_timeout page_world
                      ("http://h/a" : str) 30
                      (mkState true ("eo" : str)
                               [EGet ("http://h/a" : str) true])))
            = ("eo" : str)) as Hlang
        by (vm_compute; reflexivity).
    change (fetch_content_with_timeout page_world _ 30 _)
      with (fetch_content_with_timeout page_world
              ("http://h/a" : str) 30
              (mkState true ("eo" : str) [EGet ("http://h/a" : str) true]))
      in Hf'.
    rewrite Hf' in Hf, Hlang. cbn [fst snd] in Hf, Hlang.
    injection Hf as -> ->. rewrite Hlang in Hg.
    vm_compute in Hg. injection Hg as <- _. reflexivity.
Defined.

(** ** Language detection *)

Lemma language_step_refl st : language_step st st.
Proof. left. split; reflexivity. Qed.

Lemma language_step_trans st1 st2 st3 :
  language_step st1 st2 -> language_step st2 st3 -> language_step st1 st3.
Proof.
  intros [[Hl1 Hd1] | (He1 & Hn1 & Hd1)] [[Hl2 Hd2] | (He2 & Hn2 & Hd2)].
  - left. split; congruence.
  - right. repeat split; congruence.
  - right. repeat split; congruence.
  - contradiction.
Qed.

Lemma steps_ret A (a : A) : language_steps (ret a).
Proof. intros st. apply language_step_refl. Qed.

Lemma steps_bind A B (m : M A) (k : A -> M B) :
  language_steps m -> (forall a, language_steps (k a)) ->
  language_steps (bind m k).
Proof.
  intros Hm Hk st. unfold bind.
  specialize (Hm st). destruct (m st) as [[a|e] st1]; cbn in Hm.
  - eapply language_step_trans; [exact Hm | apply Hk].
  - exact Hm.
Qed.

Lemma steps_try_except A (m : M A) (h : exn -> M A) :
  language_steps m -> (forall e, language_steps (h e)) ->
  language_steps (try_except m h).
Proof.
  intros Hm Hh st. unfold try_except.
  specialize (Hm st). destruct (m st) as [[a|e] st1]; cbn in Hm.
  - exact Hm.
  - eapply language_step_trans; [exact Hm | apply Hh].
Qed.

Lemma detections_grows h h' :
  grows (fun e => is_detect e = false) h h' -> detections h' = detections h.
Proof.
  intros (new & -> & Hf). unfold detections.
  rewrite filter_app, length_app.
  assert (filter is_detect new = []) as ->; [|reflexivity].
  induction Hf as [|e new He _ IH]; [reflexivity|].
  cbn. rewrite He. exact IH.
Qed.

(** a computation that records no detection and keeps the language *)
Lemma steps_quiet A (m : M A) :
  emits (fun e => is_detect e = false) m -> keeps_language m ->
  language_steps m.
Proof.
  intros He Hk st. left. split; [apply Hk|].
  apply detections_grows, He.
Qed.

Section Detection.

Variable W : World.
Hypothesis detect_ok : detect_names_a_language W.

Lemma detect_language_result text st :
  exists l,
    detect_language W text st
    = (Ok l, mkState (reindex st) (detected_language st)
                     (EDetect text :: history st))
    /\ l <> [].
Proof.
  unfold detect_language. run.
  destruct (detect W (EDetect text :: history st)) as [[l|]|e] eqn:E.
  - exists l. split; [reflexivity | exact (detect_ok _ _ E)].
  - exists ("en" : str). split; [reflexivity | discriminate].
  - exists ("en" : str). split; [reflexivity | discriminate].
Qed.

(** the block of [index_url] that detects the language when none is
    stored *)
Lemma steps_detection_block html_content :
  language_steps
    (language <- get_detected_language ;;
     match language with
     | [] =>
         soup_body <- lift (soup_body_text W html_content) ;;
         match soup_body with
         | Some body_text =>
             l <- detect_language W body_text ;; set_detected_language l
         | None => ret tt
         end
     | _ :: _ => ret tt
     end).
Proof.
  intros st. unfold bind at 1, get_detected_language.
  destruct (detected_language st) as [|c l0] eqn:El;
    [|apply language_step_refl].
  unfold bind at 1, lift.
  destruct (soup_body_text W html_content) as [[body_text|]|e];
    try apply language_step_refl.
  unfold bind.
  destruct (detect_language_result body_text st) as (l & -> & Hl).
  cbn. right. repeat split; [exact El | exact Hl].
Qed.

Lemma steps_extract_rendered url : language_steps (extract_rendered W url).
Proof.
  unfold extract_rendered. apply steps_try_except;
    [|intros; apply steps_ret].
  apply steps_bind.
  - apply steps_quiet; [apply emits_fetch|apply keeps_fetch]; reflexivity.
  - intros [actual_url html_content].
    destruct (List.length html_content <? 3); [apply steps_ret|].
    apply (steps_bind _ _ _ _ (steps_detection_block html_content)).
    intros _. apply steps_bind.
    + apply steps_quiet; [apply emits_get_detected_language
                         |apply keeps_get_detected_language].
    + intros language. apply steps_bind; [|intros; apply steps_ret].
      apply steps_quiet;
        [apply emits_get_content_and_title
        |apply keeps_get_content_and_title].
Qed.

Lemma steps_extract url : language_steps (extract W url).
Proof.
  unfold extract. apply steps_bind.
  - apply steps_quiet; [apply emits_probe|apply keeps_probe]; reflexivity.
  - intros [b|ct]; [apply steps_ret|].
    destruct (_ || _).
    + apply steps_quiet; [apply emits_extract_pdf|apply keeps_extract_pdf];
        reflexivity.
    + destruct (_ || _).
      * apply steps_quiet;
          [apply emits_extract_markup|apply keeps_extract_markup];
          reflexivity.
      * apply steps_extract_rendered.
Qed.

Lemma steps_index_url url metadata : language_steps (index_url W url metadata).
Proof.
  unfold index_url. apply steps_bind; [apply steps_extract|].
  intros [b|[[url' parts] title]]; [apply steps_ret|].
  apply steps_bind.
  - apply steps_quiet;
      [apply emits_index_segments|apply keeps_index_segments]; reflexivity.
  - intros [|]; apply steps_ret.
Qed.

End Detection.

Lemma language_step_invariant st st' :
  language_step st st' ->
  detections (history st) <= 1 /\
  (detected_language st = [] -> detections (history st) = 0) ->
  detections (history st') <= 1 /\
  (detected_language st' = [] -> detections (history st') = 0).
Proof.
  intros [[Hl Hd] | (He & Hn & Hd)] [H1 H0].
  - rewrite Hl, Hd. split; assumption.
  - rewrite Hd, (H0 He). split; [lia | intros; contradiction].
Qed.

Lemma run_urls_invariant (W : World) calls st :
  detect_names_a_language W ->
  detections (history st) <= 1 /\
  (detected_language st = [] -> detections (history st) = 0) ->
  detections (history (run_urls W calls st)) <= 1 /\
  (detected_language (run_urls W calls st) = [] ->
   detections (history (run_urls W calls st)) = 0).
Proof.
  intros HW. revert st. unfold run_urls.
  induction calls as [|[url metadata] calls IH]; intros st Hst; [exact Hst|].
  cbn [fold_left fst snd]. apply IH.
  eapply language_step_invariant; [|exact Hst].
  apply steps_index_url, HW.
Qed.

Lemma rendered_sets_language
      (W : World) st url actual_url html_content st1 body_text :
  detect_names_a_language W ->
  detected_language st = [] ->
  fetch_content_with_timeout W url 30 st
  = (Ok (actual_url, html_content), st1) ->
  3 <= List.length html_content ->
  soup_body_text W html_content = Ok (Some body_text) ->
  detected_language (snd (extract_rendered W url st)) <> [] /\
  Ok (detected_language (snd (extract_rendered W url st)))
  = fst (detect_language W body_text st1) /\
  detections (history (snd (extract_rendered W url st)))
  = S (detections (history st)).
Proof.
  intros HW Hempty Hfetch Hlen Hbody.
  pose proof (keeps_fetch W url 30 st) as Hk1.
  pose proof (emits_fetch W (fun e => is_detect e = false)
                          (fun _ => eq_refl) url 30 st) as [_ He1].
  rewrite Hfetch in Hk1, He1. cbn [snd] in Hk1, He1.
  apply detections_grows in He1.
  destruct (detect_language_result W HW body_text st1) as (l & Hdl & Hl).
  rewrite Hdl. cbn [fst].
  remember (extract_rendered W url st) as R eqn:ER.
  unfold extract_rendered, try_except in ER. unfold bind at 1 in ER.
  rewrite Hfetch in ER.
  assert ((List.length html_content <? 3) = false) as Hlt
      by (apply Nat.ltb_ge; lia).
  rewrite Hlt in ER.
  unfold bind at 1 in ER. unfold bind at 1 in ER.
  unfold get_detected_language at 1 in ER. rewrite Hk1, Hempty in ER.
  unfold bind at 1, lift at 1 in ER. rewrite Hbody in ER.
  unfold bind at 1 in ER. rewrite Hdl in ER.
  unfold set_detected_language at 1 in ER.
  cbn [reindex detected_language history] in ER.
  set (st3 := mkState _ _ _) in ER.
  match type of ER with
  | context [(bind get_detected_language ?k) st3] =>
      set (rest := bind get_detected_language k) in ER
  end.
  assert (keeps_language rest) as Hkr.
  { subst rest. frame. apply keeps_get_content_and_title. }
  assert (emits (fun e => is_detect e = false) rest) as Her.
  { subst rest. frame. apply emits_get_content_and_title. }
  specialize (Hkr st3). destruct (Her st3) as [_ Hgr].
  apply detections_grows in Hgr.
  assert (snd R = snd (rest st3)) as ->.
  { rewrite ER. destruct (rest st3) as [[f|e] st4]; reflexivity. }
  rewrite Hkr, Hgr. subst st3. cbn [detected_language history].
  split; [exact Hl|]. split; [reflexivity|].
  unfold detections in *. cbn. rewrite He1. reflexivity.
Qed.

Lemma try_except_at A (m m' : M A) (h : exn -> M A) st :
  m st = m' st -> try_except m h st = try_except m' h st.
Proof. intros E. unfold try_except. rewrite E. reflexivity. Qed.

Lemma bind_at A B (m : M A) (k k' : A -> M B) st :
  (forall a st1, m st = (Ok a, st1) -> k a st1 = k' a st1) ->
  bind m k st = bind m k' st.
Proof.
  intros E. unfold bind. destruct (m st) as [[a|e] st1]; [|reflexivity].
  apply E. reflexivity.
Qed.

(** with a language stored, the rendered branch detects nothing and
    extracts with the stored language *)
Lemma rendered_reuses_language (W : World) st url :
  detected_language st <> [] ->
  extract_rendered W url st
  = extract_rendered_with W (detected_language st) url st.
Proof.
  intros Hne. unfold extract_rendered, extract_rendered_with.
  apply try_except_at, bind_at.
  intros [actual_url html_content] st1 Hf.
  pose proof (keeps_fetch W url 30 st) as Hk.
  rewrite Hf in Hk. cbn [snd] in Hk.
  destruct (List.length html_content <? 3); [reflexivity|].
  destruct (detected_language st) as [|c l] eqn:El; [contradiction|].
  unfold bind at 1. unfold get_detected_language at 1. rewrite Hk.
  unfold bind at 1. unfold ret at 1.
  unfold bind at 1. unfold get_detected_language at 1. rewrite Hk.
  reflexivity.
Qed.

(** a call that renders a page with a [<body>] while no language is
    stored stores what the detector names *)
Lemma index_url_sets_language
      (W : World) st url metadata ct st0 actual_url html_content st1 body_text :
  detect_names_a_language W ->
  detected_language st = [] ->
  probe_content_type W url st = (Ok (Continue ct), st0) ->
  is_pdf ct url = false ->
  is_markup url = false ->
  fetch_content_with_timeout W url 30 st0
  = (Ok (actual_url, html_content), st1) ->
  3 <= List.length html_content ->
  soup_body_text W html_content = Ok (Some body_text) ->
  detected_language (snd (index_url W url metadata st)) <> [] /\
  detected_language (snd (index_url W url metadata st))
  = match detect W (EDetect body_text :: history st1) with
    | Ok (Some l) => l
    | _ => "en" : str
    end /\
  detections (history (snd (index_url W url metadata st)))
  = S (detections (history st)).
Proof.
  intros HW Hempty Hp Hpdf Hmk Hfetch Hlen Hbody.
  pose proof (keeps_probe W url st) as Hk0.
  assert (emits (fun e => is_detect e = false) (probe_content_type W url))
    as He0 by (apply emits_probe; reflexivity).
  destruct (He0 st) as [_ Hg0]. apply detections_grows in Hg0.
  rewrite Hp in Hk0, Hg0. cbn [snd] in Hk0, Hg0.
  rewrite Hempty in Hk0.
  destruct (rendered_sets_language W st0 url actual_url html_content st1
              body_text HW Hk0 Hfetch Hlen Hbody) as (Hne & Hl & Hd).
  assert (detected_language (snd (extract_rendered W url st0))
          = match detect W (EDetect body_text :: history st1) with
            | Ok (Some l) => l
            | _ => "en" : str
            end) as Hl'.
  { revert Hl. unfold detect_language. run.
    destruct (detect W (EDetect body_text :: history st1)) as [[l|]|e];
      cbn [fst]; intros Hl; injection Hl as ->; reflexivity. }
  assert (detected_language (snd (index_url W url metadata st))
          = detected_language (snd (extract_rendered W url st0)) /\
          detections (history (snd (index_url W url metadata st)))
          = detections (history (snd (extract_rendered W url st0)))) as [E1 E2].
  { remember (index_url W url metadata st) as R eqn:ER.
    unfold index_url in ER. unfold bind at 1 in ER.
    unfold extract in ER. unfold bind at 1 in ER.
    rewrite Hp in ER. fold (is_pdf ct url) in ER. fold (is_markup url) in ER.
    rewrite Hpdf, Hmk in ER.
    destruct (extract_rendered W url st0) as [[[b|[[url' parts] title]]|e] st2];
      cbn [snd]; try (subst R; split; reflexivity).
    unfold bind in ER.
    match type of ER with
    | context [index_segments W ?i ?p ?ms ?dm ?t st2] =>
        pose proof (keeps_index_segments W i p ms dm t st2) as Hk;
          assert (emits (fun e => is_detect e = false)
                        (index_segments W i p ms dm t)) as He
            by (apply emits_index_segments; reflexivity);
          destruct (He st2) as [_ Hg]; apply detections_grows in Hg;
          destruct (index_segments W i p ms dm t st2) as [[[|]|e] st3]
    end; subst R; cbn [snd] in *; split; assumption. }
  rewrite E1, E2, Hd, Hg0. repeat split; assumption.
Qed.

(** with a language stored, [index_url] does not depend on the detector
    nor on the test for a [<body>] *)
Lemma index_url_ignores_detector (W : World) d b url metadata st :
  detected_language st <> [] ->
  index_url (with_detector W d b) url metadata st = index_url W url metadata st.
Proof.
  intros Hne.
  assert (extract (with_detector W d b) url st = extract W url st) as E.
  { unfold extract.
    change (probe_content_type (with_detector W d b) url)
      with (probe_content_type W url).
    unfold bind.
    pose proof (keeps_probe W url st) as Hk.
    destruct (probe_content_type W url st) as [[[b0|ct]|e] st0];
      try reflexivity.
    cbn [snd] in Hk. rewrite <- Hk in Hne.
    destruct (_ || _); [reflexivity|].
    destruct (_ || _); [reflexivity|].
    rewrite !rendered_reuses_language by exact Hne.
    reflexivity. }
  unfold index_url, bind. rewrite E. reflexivity.
Qed.

(** with a language stored, what the rendered branch submits is what
    the two strategies, given that language, extracted from the page *)
Lemma index_url_rendered_posted
      (W : World) st url metadata new d ct st0 :
  detected_language st <> [] ->
  history (snd (index_url W url metadata st)) = new ++ history st ->
  In (EPostIndex d) new ->
  probe_content_type W url st = (Ok (Continue ct), st0) ->
  is_pdf ct url = false ->
  is_markup url = false ->
  exists actual_url html_content st_f r1 st_g r2 st1,
    fetch_content_with_timeout W url 30 st0
    = (Ok (actual_url, html_content), st_f) /\
    get_content_with_goose3 W html_content actual_url (detected_language st) st_f
    = (Ok r1, st_g) /\
    get_content_with_justext W html_content actual_url (detected_language st) st_g
    = (Ok r2, st1) /\
    map sec_text (section d)
    = [fst (if List.length (fst r2) <? List.length (fst r1) then r1 else r2)].
Proof.
  intros Hne Hn Hin Hp Hpdf Hmk.
  destruct (index_url_posted W url metadata st) as (new' & Hn' & _ & Hd).
  rewrite Hn in Hn'. apply app_inv_tail in Hn'. subst new'.
  destruct (Hd d Hin) as (url' & parts & title & st1 & E & Hmap).
  destruct (extract_inv W url st url' parts title st1 E)
    as (ct' & st0' & Hp' & Hbr).
  rewrite Hp in Hp'. injection Hp' as <- <-.
  rewrite Hpdf, Hmk in Hbr.
  destruct Hbr as (html_content & st_f & st_d & r & Hf & _ & Hg & Hparts & Hsame).
  pose proof (keeps_probe W url st) as Hk0.
  rewrite Hp in Hk0. cbn [snd] in Hk0.
  pose proof (keeps_fetch W url 30 st0) as Hk1.
  rewrite Hf in Hk1. cbn [snd] in Hk1.
  rewrite <- Hk0 in Hne. specialize (Hsame Hne). subst st_d.
  rewrite Hk1, Hk0 in Hg.
  unfold get_content_and_title in Hg. unfold bind at 1 in Hg.
  destruct (get_content_with_goose3 W html_content url' (detected_language st)
                                    st_f) as [[r1|e] st_g] eqn:E1;
    [|discriminate].
  unfold bind at 1 in Hg.
  destruct (get_content_with_justext W html_content url' (detected_language st)
                                     st_g) as [[r2|e] st2] eqn:E2;
    [|discriminate].
  exists url', html_content, st_f, r1, st_g, r2, st1.
  split; [exact Hf|]. split; [exact E1|].
  destruct (List.length (fst r2) <? List.length (fst r1));
    unfold ret in Hg; injection Hg as <- <-;
    (split; [exact E2|]); rewrite Hmap, Hparts; reflexivity.
Qed.




(** ** Strings *)

Lemma starts_with_app p t : starts_with p (p ++ t) = true.
Proof.
  induction p as [|a p IH]; [reflexivity|].
  cbn. rewrite Ascii.eqb_refl. exact IH.
Qed.

Lemma starts_with_inv p s : starts_with p s = true -> exists t, s = p ++ t.
Proof.
  revert s. induction p as [|a p IH]; intros s H.
  - exists s. reflexivity.
  - destruct s as [|b s]; [discriminate|]. cbn in H.
    apply andb_true_iff in H. destruct H as [Hab H].
    apply Ascii.eqb_eq in Hab. subst b.
    destruct (IH _ H) as (t & ->). exists t. reflexivity.
Qed.

Lemma starts_with_long p x y :
  List.length p <= List.length x ->
  starts_with p (x ++ y) = starts_with p x.
Proof.
  revert x. induction p as [|a p IH]; intros x H; [reflexivity|].
  destruct x as [|b x]; [cbn in H; lia|].
  cbn. f_equal. apply IH. cbn in H. lia.
Qed.

Lemma starts_with_short p s :
  List.length s < List.length p -> starts_with p s = false.
Proof.
  revert s. induction p as [|a p IH]; intros s H; [cbn in H; lia|].
  destruct s as [|b s]; [reflexivity|].
  cbn. rewrite IH; [apply andb_false_r | cbn in H; lia].
Qed.

Lemma contains_short sub s :
  List.length s < List.length sub -> contains sub s = false.
Proof.
  induction s as [|c s IH]; intros H; cbn.
  - rewrite starts_with_short by exact H. reflexivity.
  - rewrite starts_with_short by exact H.
    apply IH. cbn in H. lia.
Qed.

Lemma contains_app_r sub a b :
  contains sub b = true -> contains sub (a ++ b) = true.
Proof.
  intros H. induction a as [|c a IH]; [exact H|].
  cbn. rewrite IH. apply orb_true_r.
Qed.

Lemma contains_mid sub a b : contains sub (a ++ sub ++ b) = true.
Proof.
  apply contains_app_r. destruct sub; cbn.
  - destruct b; reflexivity.
  - rewrite Ascii.eqb_refl, starts_with_app. reflexivity.
Qed.

Lemma has_char_app c a b :
  has_char c (a ++ b) = has_char c a || has_char c b.
Proof. apply existsb_app. Qed.

Lemma has_char_cons c x s :
  has_char c (x :: s) = Ascii.eqb x c || has_char c s.
Proof. reflexivity. Qed.

Lemma has_char_In c s : has_char c s = true <-> In c s.
Proof.
  unfold has_char. rewrite existsb_exists. split.
  - intros (x & Hx & E). apply Ascii.eqb_eq in E. subst. exact Hx.
  - intros H. exists c. split; [exact H | apply Ascii.eqb_refl].
Qed.

Lemma avoids_app bad a b :
  avoids bad (a ++ b) = avoids bad a && avoids bad b.
Proof. apply forallb_app. Qed.

Lemma avoids_cons bad c s :
  avoids bad (c :: s) = negb (has_char c bad) && avoids bad s.
Proof. reflexivity. Qed.

Lemma avoids_firstn bad n s :
  avoids bad s = true -> avoids bad (firstn n s) = true.
Proof.
  intros H. rewrite <- (firstn_skipn n s), avoids_app in H.
  apply andb_true_iff in H. apply H.
Qed.

Lemma avoids_skipn bad n s :
  avoids bad s = true -> avoids bad (skipn n s) = true.
Proof.
  intros H. rewrite <- (firstn_skipn n s), avoids_app in H.
  apply andb_true_iff in H. apply H.
Qed.

Lemma avoids_has_char bad c s :
  avoids bad s = true -> has_char c bad = true -> has_char c s = false.
Proof.
  intros Ha Hc. induction s as [|x s IH]; [reflexivity|].
  rewrite avoids_cons in Ha. apply andb_true_iff in Ha.
  destruct Ha as [Hx Hs]. rewrite has_char_cons.
  rewrite (IH Hs), orb_false_r.
  destruct (Ascii.eqb_spec x c) as [->|]; [|reflexivity].
  rewrite Hc in Hx. discriminate.
Qed.

Lemma avoids_single c s : avoids [c] s = negb (has_char c s).
Proof.
  induction s as [|x s IH]; [reflexivity|].
  rewrite avoids_cons, IH, !has_char_cons. cbn. rewrite orb_false_r.
  rewrite (Ascii.eqb_sym c x). symmetry. apply negb_orb.
Qed.

Lemma avoids_sub bad bad' s :
  (forall c, has_char c bad' = true -> has_char c bad = true) ->
  avoids bad s = true -> avoids bad' s = true.
Proof.
  intros Hsub H. induction s as [|x s IH]; [reflexivity|].
  rewrite avoids_cons in *. apply andb_true_iff in H.
  destruct H as [Hx Hs]. rewrite (IH Hs), andb_true_r.
  destruct (has_char x bad') eqn:E; [|reflexivity].
  rewrite (Hsub _ E) in Hx. discriminate.
Qed.

Lemma find_char_None c s : find_char c s = None <-> has_char c s = false.
Proof.
  induction s as [|x s IH]; cbn; [tauto|].
  destruct (Ascii.eqb x c); cbn; [split; discriminate|].
  destruct (find_char c s); cbn.
  - split; [discriminate|]. intros H. apply IH in H. discriminate.
  - split; [|reflexivity]. intros _. apply IH. reflexivity.
Qed.

Lemma find_char_Some c s i :
  find_char c s = Some i ->
  s = firstn i s ++ c :: skipn (S i) s /\
  has_char c (firstn i s) = false /\ i < List.length s.
Proof.
  revert i. induction s as [|x s IH]; intros i H; [discriminate|].
  cbn in H. destruct (Ascii.eqb_spec x c) as [->|Hne].
  - injection H as <-. cbn. repeat split. lia.
  - destruct (find_char c s) as [j|]; [|discriminate].
    injection H as <-. destruct (IH j eq_refl) as (Hs & Hn & Hl).
    cbn [firstn skipn app]. repeat split.
    + f_equal. exact Hs.
    + rewrite has_char_cons, Hn, orb_false_r.
      apply Ascii.eqb_neq. exact Hne.
    + cbn. lia.
Qed.

Lemma find_char_first c a b :
  has_char c a = false -> find_char c (a ++ c :: b) = Some (List.length a).
Proof.
  intros H. induction a as [|x a IH]; cbn.
  - rewrite Ascii.eqb_refl. reflexivity.
  - rewrite has_char_cons in H. apply orb_false_iff in H.
    destruct H as [Hx Ha].
    rewrite Hx, (IH Ha). reflexivity.
Qed.

Lemma firstn_app_exact {A} (a b : list A) : firstn (List.length a) (a ++ b) = a.
Proof.
  rewrite firstn_app, Nat.sub_diag, firstn_all. cbn. apply app_nil_r.
Qed.

Lemma skipn_app_exact {A} (a b : list A) : skipn (List.length a) (a ++ b) = b.
Proof.
  rewrite skipn_app, Nat.sub_diag, skipn_all. reflexivity.
Qed.

(** [s.split(c, 1)], by cases *)
Lemma split_once_absent c s :
  has_char c s = false -> split_once c s = (s, None).
Proof.
  intros H. unfold split_once. apply find_char_None in H. rewrite H.
  reflexivity.
Qed.

Lemma split_once_first c a b :
  has_char c a = false -> split_once c (a ++ c :: b) = (a, Some b).
Proof.
  intros H. unfold split_once. rewrite (find_char_first c a b H).
  rewrite firstn_app_exact.
  change (S (List.length a)) with (1 + List.length a).
  rewrite <- skipn_skipn, skipn_app_exact. reflexivity.
Qed.

Lemma split_once_cases c s :
  (has_char c s = false /\ split_once c s = (s, None)) \/
  (exists a b, s = a ++ c :: b /\ has_char c a = false /\
               split_once c s = (a, Some b)).
Proof.
  destruct (find_char c s) as [i|] eqn:E.
  - right. destruct (find_char_Some _ _ _ E) as (Hs & Hn & _).
    exists (firstn i s), (skipn (S i) s). split; [exact Hs|].
    split; [exact Hn|]. rewrite Hs at 1. apply split_once_first, Hn.
  - left. apply find_char_None in E. split; [exact E|].
    apply split_once_absent, E.
Qed.

(** the part [split_tail] keeps is a prefix without the separator *)
Lemma split_tail_prefix c s :
  exists w, s = fst (split_tail c s) ++ w /\
            has_char c (fst (split_tail c s)) = false.
Proof.
  unfold split_tail.
  destruct (split_once_cases c s) as [[Hn ->] | (a & b & -> & Hn & ->)]; cbn.
  - exists []. rewrite app_nil_r. split; [reflexivity | exact Hn].
  - exists (c :: b). split; [reflexivity | exact Hn].
Qed.

Lemma split_tail_absent c s :
  has_char c s = false -> split_tail c s = (s, []).
Proof.
  intros H. unfold split_tail. rewrite (split_once_absent _ _ H). reflexivity.
Qed.

(** removing one character is filtering *)
Lemma replace_single b s :
  replace [b] [] s = filter (fun x => negb (Ascii.eqb x b)) s.
Proof.
  unfold replace. induction s as [|c s IH]; [reflexivity|].
  cbn. rewrite andb_true_r, (Ascii.eqb_sym b c).
  destruct (Ascii.eqb c b); cbn; rewrite IH; reflexivity.
Qed.

Lemma replace_go_avoids bad old k s :
  avoids bad s = true -> avoids bad (replace_go old [] k s) = true.
Proof.
  revert k. induction s as [|c s IH]; intros k H; [reflexivity|].
  rewrite avoids_cons in H. apply andb_true_iff in H. destruct H as [Hc Hs].
  cbn [replace_go app]. destruct k as [|k]; [|apply IH, Hs].
  destruct (starts_with old (c :: s)); [apply IH, Hs|].
  rewrite avoids_cons, Hc. apply IH, Hs.
Qed.

Lemma replace_avoids bad old s :
  avoids bad s = true -> avoids bad (replace old [] s) = true.
Proof. apply replace_go_avoids. Qed.

(** where [old] does not occur nothing is replaced *)
Lemma replace_absent old new s :
  contains old s = false -> replace old new s = s.
Proof.
  unfold replace. induction s as [|c s IH]; intros H; [reflexivity|].
  cbn in H. apply orb_false_iff in H. destruct H as [Hst Hc].
  cbn [replace_go]. rewrite Hst, (IH Hc). reflexivity.
Qed.

Lemma replace_go_skip old new a b :
  replace_go old new (List.length a) (a ++ b) = replace_go old new 0 b.
Proof.
  induction a as [|c a IH]; [reflexivity|]. cbn. exact IH.
Qed.

(** at an occurrence, the occurrence goes and the rest is treated alike *)
Lemma replace_at_occurrence old new t :
  old <> [] -> replace old new (old ++ t) = new ++ replace old new t.
Proof.
  intros Hne. unfold replace. destruct old as [|c old]; [contradiction|].
  cbn [app replace_go].
  change (starts_with (c :: old) (c :: old ++ t))
    with (starts_with (c :: old) ((c :: old) ++ t)).
  rewrite starts_with_app.
  replace (List.length (c :: old) - 1) with (List.length old)
    by (cbn; lia).
  rewrite replace_go_skip. reflexivity.
Qed.

Lemma replace_cons_no_match old new c s :
  starts_with old (c :: s) = false ->
  replace old new (c :: s) = c :: replace old new s.
Proof. intros H. unfold replace. cbn [replace_go]. rewrite H. reflexivity. Qed.

(** ** Removing every occurrence *)

Lemma contains_nil_of_nonempty old : old <> [] -> contains old [] = false.
Proof. destruct old; [contradiction | reflexivity]. Qed.

Lemma removed_cons old c s r :
  removed old s r -> starts_with old (c :: s) = false ->
  removed old (c :: s) (c :: r).
Proof.
  intros H Hst. destruct H as [s Hc | a b b' Ha Hb].
  - apply removed_none. cbn [contains]. rewrite Hst. exact Hc.
  - change (c :: a ++ old ++ b) with ((c :: a) ++ old ++ b).
    change (c :: a ++ b') with ((c :: a) ++ b').
    apply removed_first; [|exact Hb].
    cbn [app contains]. rewrite Ha, orb_false_r.
    destruct old as [|o old]; [discriminate Hst|].
    set (old' := o :: old) in *.
    assert (old' = removelast old' ++ [last old' o]) as Eold
        by (apply app_removelast_last; discriminate).
    assert (c :: a ++ old' ++ b
            = (c :: a ++ removelast old') ++ (last old' o :: b)) as E.
    { rewrite Eold at 1. cbn [app]. rewrite <- !app_assoc. reflexivity. }
    rewrite E, starts_with_long in Hst; [exact Hst|].
    apply (f_equal (@List.length ascii)) in Eold.
    rewrite length_app in Eold. cbn [List.length] in Eold |- *.
    rewrite length_app. lia.
Qed.

Lemma replace_removed old :
  old <> [] -> forall n s, List.length s <= n -> removed old s (replace old [] s).
Proof.
  intros Hne. induction n as [|n IH]; intros s Hl.
  - destruct s; [|cbn in Hl; lia].
    apply removed_none, contains_nil_of_nonempty, Hne.
  - destruct s as [|c s].
    + apply removed_none, contains_nil_of_nonempty, Hne.
    + destruct (starts_with old (c :: s)) eqn:E.
      * destruct (starts_with_inv _ _ E) as (t & Ht). rewrite Ht.
        rewrite (replace_at_occurrence old [] t Hne).
        apply (removed_first old [] t (replace old [] t)).
        -- apply contains_short. cbn [app].
           destruct old as [|o old]; [contradiction|].
           rewrite (app_removelast_last o (l := o :: old)) at 2 by discriminate.
           rewrite length_app. cbn. lia.
        -- apply IH.
           assert (List.length (c :: s) = List.length (old ++ t)) as Hlen
               by (rewrite Ht; reflexivity).
           rewrite length_app in Hlen. cbn [List.length] in Hl, Hlen.
           destruct old; [contradiction|]. cbn [List.length] in Hlen. lia.
      * rewrite (replace_cons_no_match _ _ _ _ E).
        apply removed_cons; [|exact E].
        apply IH. cbn in Hl. lia.
Qed.

(** ** [urlsplit] and [urlparse], stage by stage *)

Lemma str_eqb_eq a b : str_eqb a b = true <-> a = b.
Proof.
  unfold str_eqb. destruct (list_eq_dec ascii_dec a b); split;
    congruence.
Qed.

Lemma str_eqb_refl a : str_eqb a a = true.
Proof. apply str_eqb_eq. reflexivity. Qed.

Lemma str_eqb_neq a b : str_eqb a b = false <-> a <> b.
Proof.
  unfold str_eqb. destruct (list_eq_dec ascii_dec a b); split;
    congruence.
Qed.

Lemma urlparse_inv chk u p :
  urlparse chk u = Ok p ->
  exists rest rest2,
    split_scheme (sanitize u) = (scheme p, rest) /\
    split_netloc chk rest = Ok (netloc p, rest2) /\
    path p
    = strip_params (scheme p)
                   (fst (split_tail "?" (fst (split_tail "#" rest2)))).
Proof.
  unfold urlparse, urlsplit, strip_params. intros H.
  destruct (split_scheme (sanitize u)) as [s rest].
  destruct (split_netloc chk rest) as [[nl rest2]|e] eqn:En; [|discriminate].
  exists rest, rest2.
  destruct (split_tail "#" rest2) as [u1 fragment]. cbn [fst].
  destruct (split_tail "?" u1) as [u2 query]. cbn [fst].
  cbv beta iota zeta in H.
  destruct (str_in s uses_params && has_char ";" u2) eqn:Eb;
    [destruct (splitparams u2) as [u3 ps] eqn:Es|];
    injection H as <-; cbn [scheme netloc path fst]; rewrite Eb;
    repeat split; exact En.
Qed.

Lemma removelast_prefix {A} (l : list A) : exists w, l = removelast l ++ w.
Proof.
  destruct l as [|a l]; [exists []; reflexivity|].
  exists [last (a :: l) a]. apply app_removelast_last. discriminate.
Qed.

Lemma splitparams_prefix url : exists w, url = fst (splitparams url) ++ w.
Proof.
  unfold splitparams.
  destruct (has_char "/" url).
  - destruct (rfind_char "/" url) as [r|];
      [|exists []; symmetry; apply app_nil_r].
    destruct (find_from ";" r url) as [i|];
      [|exists []; symmetry; apply app_nil_r].
    exists (skipn i url). symmetry. apply firstn_skipn.
  - destruct (find_char ";" url) as [i|].
    + exists (skipn i url). symmetry. apply firstn_skipn.
    + apply removelast_prefix.
Qed.

Lemma strip_params_prefix s url : exists w, url = strip_params s url ++ w.
Proof.
  unfold strip_params.
  destruct (str_in s uses_params && has_char ";" url).
  - apply splitparams_prefix.
  - exists []. symmetry. apply app_nil_r.
Qed.

Lemma has_char_prefix c a w : has_char c (a ++ w) = false -> has_char c a = false.
Proof.
  rewrite has_char_app. intros H. apply orb_false_iff in H. apply H.
Qed.

(** the path of a parsed URL has no question mark and no hash *)
Lemma urlparse_path_plain chk u p :
  urlparse chk u = Ok p ->
  has_char "?" (path p) = false /\ has_char "#" (path p) = false.
Proof.
  intros H. destruct (urlparse_inv _ _ _ H) as (rest & rest2 & _ & _ & ->).
  destruct (split_tail_prefix "#" rest2) as (w1 & _ & H1).
  set (u1 := fst (split_tail "#" rest2)) in *.
  destruct (split_tail_prefix "?" u1) as (w2 & E2 & H2).
  set (u2 := fst (split_tail "?" u1)) in *.
  destruct (strip_params_prefix (scheme p) u2) as (w3 & E3).
  split.
  - apply (has_char_prefix _ _ w3). rewrite <- E3. exact H2.
  - apply (has_char_prefix _ _ w3). rewrite <- E3.
    apply (has_char_prefix _ _ w2). rewrite <- E2. exact H1.
Qed.

(** ** What [normalize_url] does to the host *)

Lemma normalize_url_unfold chk url :
  normalize_url chk url
  = match urlparse chk (with_scheme url) with
    | Raise e => Raise e
    | Ok p =>
        Ok (geturl (mkParse (scheme p)
                            (replace ("www." : str) [] (netloc p))
                            (path p) [] [] []))
    end.
Proof.
  unfold normalize_url. fold (with_scheme url).
  destruct (urlparse chk (with_scheme url)) as [p|e] eqn:E; [|reflexivity].
  destruct (urlparse_path_plain _ _ _ E) as [Hq _].
  rewrite (split_once_absent _ _ Hq). reflexivity.
Qed.

(** C7 (as amended): [normalize_url] deletes every occurrence of [www.]
    in the network location, found from left to right, the leading one
    and the others alike, and leaves its other characters as they are;
    scheme and path are the parsed ones.  A URL that [urlparse] rejects is
    rejected. *)
Theorem normalize_url_removes_every_www
        (check_bracketed_host : str -> bool) (url : str) :
  match urlparse check_bracketed_host (with_scheme url) with
  | Ok p =>
      exists host,
        removed ("www." : str) (netloc p) host /\
        normalize_url check_bracketed_host url
        = Ok (geturl (mkParse (scheme p) host (path p) [] [] []))
  | Raise e => normalize_url check_bracketed_host url = Raise e
  end.
Proof.
  rewrite normalize_url_unfold.
  destruct (urlparse check_bracketed_host (with_scheme url)) as [p|e];
    [|reflexivity].
  exists (replace ("www." : str) [] (netloc p)). split; [|reflexivity].
  assert (("www." : str) <> []) as Hwww by (cbv; discriminate).
  apply (replace_removed _ Hwww (List.length (netloc p))).
  apply Nat.le_refl.
Qed.

(** C7 (as stated) fails: the [www.] inside [en.www.example.com] is not
    preserved. *)
Lemma normalize_url_inner_www_removed :
  normalize_url (fun _ => true) ("http://en.www.example.com/a" : str)
  = Ok ("http://en.example.com/a" : str).
Proof. vm_compute. reflexivity. Qed.

Lemma normalize_url_removes_every_www_witness :
  exists host,
    removed ("www." : str) ("en.www.example.com" : str) host /\
    normalize_url (fun _ => true) ("http://en.www.example.com/a" : str)
    = Ok (geturl (mkParse ("http" : str) host ("/a" : str) [] [] [])).
Proof.
  exact (normalize_url_removes_every_www
           (fun _ => true) ("http://en.www.example.com/a" : str)).
Defined.

(** ** Character classes *)

Ltac each_char c := destruct c as [[] [] [] [] [] [] [] []].

Lemma alpha_not_stripped c :
  is_ascii_alpha c = true -> has_char c C0_CONTROL_OR_SPACE = false.
Proof. each_char c; vm_compute; congruence. Qed.

Lemma unsafe_stripped c :
  has_char c UNSAFE_URL_BYTES_TO_REMOVE = true ->
  has_char c C0_CONTROL_OR_SPACE = true.
Proof. each_char c; vm_compute; congruence. Qed.

Lemma scheme_char_plain c :
  is_scheme_char c = true ->
  Ascii.eqb c ":" = false /\
  has_char c UNSAFE_URL_BYTES_TO_REMOVE = false.
Proof. each_char c; vm_compute; intros H; split; congruence. Qed.

Lemma lower_char_facts c :
  lower_char (lower_char c) = lower_char c /\
  is_ascii_alpha (lower_char c) = is_ascii_alpha c /\
  (is_scheme_char c = true -> is_scheme_char (lower_char c) = true).
Proof. each_char c; vm_compute; repeat split; congruence. Qed.

Lemma lower_idempotent s : lower (lower s) = lower s.
Proof.
  unfold lower. rewrite map_map. apply map_ext.
  intros c. apply lower_char_facts.
Qed.

Lemma scheme_chars_plain s :
  forallb is_scheme_char s = true ->
  has_char ":" s = false /\ avoids UNSAFE_URL_BYTES_TO_REMOVE s = true.
Proof.
  induction s as [|c s IH]; intros H; [split; reflexivity|].
  cbn [forallb] in H. apply andb_true_iff in H. destruct H as [Hc Hs].
  destruct (IH Hs) as [H1 H2].
  destruct (scheme_char_plain c Hc) as [Hc1 Hc2].
  split.
  - rewrite has_char_cons, H1, orb_false_r. exact Hc1.
  - rewrite avoids_cons, Hc2, H2. reflexivity.
Qed.

(** the scheme [split_scheme] finds is a valid one *)
Lemma lower_valid raw :
  match raw with [] => false | c :: _ => is_ascii_alpha c end = true ->
  forallb is_scheme_char raw = true ->
  valid_scheme (lower raw).
Proof.
  intros Hh Hs. unfold valid_scheme. split; [|split].
  - destruct raw as [|c raw]; [discriminate|]. cbn.
    destruct (lower_char_facts c) as (_ & -> & _). exact Hh.
  - unfold lower. rewrite forallb_forall in *.
    intros c Hc. apply in_map_iff in Hc. destruct Hc as (x & <- & Hx).
    apply lower_char_facts, Hs, Hx.
  - apply lower_idempotent.
Qed.

(** ** Sanitizing *)

Lemma sanitize_filter url :
  sanitize url
  = filter (fun c => negb (has_char c UNSAFE_URL_BYTES_TO_REMOVE))
           (lstrip C0_CONTROL_OR_SPACE url).
Proof.
  unfold sanitize, UNSAFE_URL_BYTES_TO_REMOVE. cbn [fold_left].
  rewrite !replace_single.
  induction (lstrip C0_CONTROL_OR_SPACE url) as [|c l IH]; [reflexivity|].
  cbn [filter]. rewrite <- IH. unfold has_char. cbn [existsb].
  rewrite (Ascii.eqb_sym (ascii_of_nat 9) c),
    (Ascii.eqb_sym (ascii_of_nat 13) c), (Ascii.eqb_sym (ascii_of_nat 10) c).
  destruct (Ascii.eqb c (ascii_of_nat 9)); cbn [negb orb filter];
    [reflexivity|].
  destruct (Ascii.eqb c (ascii_of_nat 13)); cbn [negb orb filter];
    [reflexivity|].
  destruct (Ascii.eqb c (ascii_of_nat 10)); cbn [negb orb filter];
    reflexivity.
Qed.

Lemma lstrip_head chars s :
  match lstrip chars s with
  | [] => True
  | c :: _ => has_char c chars = false
  end.
Proof.
  induction s as [|c s IH]; cbn [lstrip]; [exact I|].
  destruct (has_char c chars) eqn:E; [exact IH | exact E].
Qed.

Lemma filter_avoids bad s :
  avoids bad (filter (fun c => negb (has_char c bad)) s) = true.
Proof.
  induction s as [|c s IH]; [reflexivity|]. cbn [filter].
  destruct (has_char c bad) eqn:E; cbn [negb]; [exact IH|].
  rewrite avoids_cons, E. exact IH.
Qed.

Lemma filter_avoiding bad s :
  avoids bad s = true -> filter (fun c => negb (has_char c bad)) s = s.
Proof.
  induction s as [|c s IH]; intros H; [reflexivity|].
  rewrite avoids_cons in H. apply andb_true_iff in H. destruct H as [Hc Hs].
  cbn [filter]. rewrite Hc, (IH Hs). reflexivity.
Qed.

Lemma sanitize_tidy url : tidy (sanitize url).
Proof.
  rewrite sanitize_filter. split; [|apply filter_avoids].
  pose proof (lstrip_head C0_CONTROL_OR_SPACE url) as Hh.
  destruct (lstrip C0_CONTROL_OR_SPACE url) as [|c l]; [exact I|].
  cbn [filter].
  destruct (has_char c UNSAFE_URL_BYTES_TO_REMOVE) eqn:E.
  - rewrite (unsafe_stripped c E) in Hh. discriminate.
  - exact Hh.
Qed.

Lemma sanitize_id v : tidy v -> sanitize v = v.
Proof.
  intros [Hh Hc]. rewrite sanitize_filter.
  assert (lstrip C0_CONTROL_OR_SPACE v = v) as ->.
  { destruct v as [|c v]; [reflexivity|].
    cbn [lstrip]. rewrite Hh. reflexivity. }
  apply filter_avoiding, Hc.
Qed.

Lemma tidy_prefix a w : tidy (a ++ w) -> tidy a.
Proof.
  intros [Hh Hc]. split.
  - destruct a; [exact I | exact Hh].
  - rewrite avoids_app in Hc. apply andb_true_iff in Hc. apply Hc.
Qed.

Lemma tidy_clean s : tidy s -> avoids UNSAFE_URL_BYTES_TO_REMOVE s = true.
Proof. intros [_ H]. exact H. Qed.

(** ** The scheme *)

Lemma valid_scheme_nonempty s : valid_scheme s -> s <> [].
Proof. intros [H _] ->. exact H. Qed.

Lemma split_scheme_valid s rest :
  valid_scheme s -> split_scheme (s ++ ":"%char :: rest) = (s, rest).
Proof.
  intros (Hh & Hs & Hl). unfold split_scheme.
  destruct (scheme_chars_plain s Hs) as [Hc _].
  rewrite (find_char_first _ _ _ Hc).
  rewrite firstn_app_exact, Hs.
  change (S (List.length s)) with (1 + List.length s).
  rewrite <- skipn_skipn, skipn_app_exact. cbn [skipn].
  destruct s as [|c s]; [contradiction|].
  cbn [app List.length Nat.ltb Nat.leb]. rewrite Hh, Hl. reflexivity.
Qed.

Lemma split_scheme_cases url :
  (split_scheme url = ([], url)) \/
  (exists raw rest,
      url = raw ++ ":"%char :: rest /\
      split_scheme url = (lower raw, rest) /\ valid_scheme (lower raw)).
Proof.
  unfold split_scheme.
  destruct (find_char ":" url) as [i|] eqn:E; [|left; reflexivity].
  destruct ((0 <? i)
            && match url with [] => false | c :: _ => is_ascii_alpha c end
            && forallb is_scheme_char (firstn i url)) eqn:Ec;
    [|left; reflexivity].
  right. apply andb_true_iff in Ec. destruct Ec as [Ec Hs].
  apply andb_true_iff in Ec. destruct Ec as [Hi Hh].
  destruct (find_char_Some _ _ _ E) as (Hurl & _ & Hlt).
  exists (firstn i url), (skipn (S i) url).
  split; [exact Hurl|]. split; [reflexivity|].
  apply lower_valid; [|exact Hs].
  destruct url as [|c url]; [discriminate|].
  destruct i; [discriminate|]. exact Hh.
Qed.

Lemma find_char_app_l c v w i :
  find_char c v = Some i -> find_char c (v ++ w) = Some i.
Proof.
  intros H. destruct (find_char_Some _ _ _ H) as (Hv & Hn & _).
  rewrite Hv, <- app_assoc. cbn [app].
  rewrite (find_char_first _ _ _ Hn).
  f_equal. rewrite length_firstn. apply find_char_Some in H. lia.
Qed.

(** where no scheme is found, none is found in a prefix *)
Lemma split_scheme_prefix v w :
  split_scheme (v ++ w) = ([], v ++ w) -> split_scheme v = ([], v).
Proof.
  intros H. unfold split_scheme in *.
  destruct (find_char ":" v) as [i|] eqn:E; [|reflexivity].
  rewrite (find_char_app_l _ _ _ _ E) in H.
  destruct (find_char_Some _ _ _ E) as (_ & _ & Hlt).
  rewrite firstn_app in H.
  replace (i - List.length v) with 0 in H by lia.
  cbn [firstn] in H. rewrite app_nil_r in H.
  assert (match v ++ w with [] => false | c :: _ => is_ascii_alpha c end
          = match v with [] => false | c :: _ => is_ascii_alpha c end) as Hh.
  { destruct v; [cbn in Hlt; lia | reflexivity]. }
  rewrite Hh in H.
  destruct ((0 <? i)
            && match v with [] => false | c :: _ => is_ascii_alpha c end
            && forallb is_scheme_char (firstn i v)) eqn:Ec; [|reflexivity].
  exfalso. injection H as H _.
  apply andb_true_iff in Ec. destruct Ec as [Ec _].
  apply andb_true_iff in Ec. destruct Ec as [Hi _].
  apply Nat.ltb_lt in Hi.
  apply (f_equal (@List.length ascii)) in H.
  unfold lower in H. rewrite length_map, length_firstn in H. cbn in H. lia.
Qed.

Lemma split_scheme_slash x : split_scheme ("/"%char :: x) = ([], "/"%char :: x).
Proof.
  unfold split_scheme.
  destruct (find_char ":" ("/"%char :: x)); [|reflexivity].
  cbn [is_ascii_alpha]. rewrite andb_false_r. reflexivity.
Qed.

(** ** The network location *)

Lemma span_avoids bad s : avoids bad (firstn (span_avoiding bad s) s) = true.
Proof.
  induction s as [|c s IH]; [reflexivity|]. cbn [span_avoiding].
  destruct (has_char c bad) eqn:E; [reflexivity|].
  cbn [firstn]. rewrite avoids_cons, E. exact IH.
Qed.

Lemma span_stops bad s :
  skipn (span_avoiding bad s) s = [] \/
  exists c rest, skipn (span_avoiding bad s) s = c :: rest /\
                 has_char c bad = true.
Proof.
  induction s as [|c s IH]; [left; reflexivity|]. cbn [span_avoiding].
  destruct (has_char c bad) eqn:E.
  - right. exists c, s. split; [reflexivity | exact E].
  - exact IH.
Qed.

Lemma span_exact bad a b :
  avoids bad a = true ->
  match b with [] => True | c :: _ => has_char c bad = true end ->
  span_avoiding bad (a ++ b) = List.length a.
Proof.
  intros Ha Hb. induction a as [|c a IH]; cbn [app span_avoiding List.length].
  - destruct b as [|c b]; [reflexivity|]. cbn [span_avoiding].
    rewrite Hb. reflexivity.
  - rewrite avoids_cons in Ha. apply andb_true_iff in Ha.
    destruct Ha as [Hc Ha]. apply negb_true_iff in Hc. rewrite Hc.
    f_equal. apply IH, Ha.
Qed.

Lemma span_le bad s : span_avoiding bad s <= List.length s.
Proof.
  induction s as [|c s IH]; cbn; [lia|].
  destruct (has_char c bad); lia.
Qed.

(** [_splitnetloc] cuts at the first of [/?#] *)
Lemma splitnetloc_span t :
  splitnetloc ("/"%char :: "/"%char :: t) 2
  = (firstn (span_avoiding ("/?#" : str) t) t,
     skipn (span_avoiding ("/?#" : str) t) t).
Proof.
  unfold splitnetloc, slice, find_from.
  change (list_ascii_of_string "/?#") with ["/"%char; "?"%char; "#"%char].
  cbn [fold_left skipn List.length].
  assert (forall t,
    match option_map (fun i => 2 + i) (find_char "#" t) with
    | Some w =>
        Nat.min
          match option_map (fun i => 2 + i) (find_char "?" t) with
          | Some w0 =>
              Nat.min
                match option_map (fun i => 2 + i) (find_char "/" t) with
                | Some w1 => Nat.min (S (S (List.length t))) w1
                | None => S (S (List.length t))
                end w0
          | None =>
              match option_map (fun i => 2 + i) (find_char "/" t) with
              | Some w1 => Nat.min (S (S (List.length t))) w1
              | None => S (S (List.length t))
              end
          end w
    | None =>
        match option_map (fun i => 2 + i) (find_char "?" t) with
        | Some w0 =>
            Nat.min
              match option_map (fun i => 2 + i) (find_char "/" t) with
              | Some w1 => Nat.min (S (S (List.length t))) w1
              | None => S (S (List.length t))
              end w0
        | None =>
            match option_map (fun i => 2 + i) (find_char "/" t) with
            | Some w1 => Nat.min (S (S (List.length t))) w1
            | None => S (S (List.length t))
            end
        end
    end = 2 + span_avoiding ["/"%char; "?"%char; "#"%char] t) as Hd.
  { clear t. induction t as [|x t IH]; [reflexivity|].
    cbn [find_char span_avoiding List.length].
    unfold has_char. cbn [existsb].
    rewrite (Ascii.eqb_sym "/" x), (Ascii.eqb_sym "?" x),
      (Ascii.eqb_sym "#" x), orb_false_r.
    revert IH.
    destruct (find_char "/" t), (find_char "?" t), (find_char "#" t);
      destruct (Ascii.eqb x "/"), (Ascii.eqb x "?"), (Ascii.eqb x "#");
      cbn [option_map orb]; intros IH; lia. }
  rewrite Hd. cbn [Nat.add skipn Nat.sub]. rewrite Nat.sub_0_r. reflexivity.
Qed.

Lemma starts_with_slashes url :
  str_eqb (firstn 2 url) ("//" : str) = true ->
  exists t, url = "/"%char :: "/"%char :: t.
Proof.
  intros H. apply str_eqb_eq in H.
  destruct url as [|a [|b t]]; try discriminate.
  cbn in H. injection H as -> ->. exists t. reflexivity.
Qed.

Lemma split_netloc_slashes chk t :
  split_netloc chk ("/"%char :: "/"%char :: t)
  = let nl := firstn (span_avoiding ("/?#" : str) t) t in
    if netloc_accepted chk nl
    then Ok (nl, skipn (span_avoiding ("/?#" : str) t) t)
    else Raise ValueError.
Proof.
  unfold split_netloc, netloc_accepted.
  change (str_eqb (firstn 2 ("/"%char :: "/"%char :: t)) ("//" : str))
    with true.
  cbv iota. rewrite splitnetloc_span. cbv zeta.
  destruct ((has_char "[" _ && negb (has_char "]" _))
            || (has_char "]" _ && negb (has_char "[" _))); [reflexivity|].
  destruct (has_char "[" _ && has_char "]" _); [|reflexivity].
  destruct (check_bracketed_netloc chk _); reflexivity.
Qed.

Lemma split_netloc_plain chk url :
  str_eqb (firstn 2 url) ("//" : str) = false ->
  split_netloc chk url = Ok ([], url).
Proof. intros H. unfold split_netloc. rewrite H. reflexivity. Qed.

(** what [split_netloc] returns: a netloc without [/?#] and the rest,
    which begins with one of them when the netloc is not the whole *)
Lemma split_netloc_inv chk url nl rest :
  split_netloc chk url = Ok (nl, rest) ->
  (str_eqb (firstn 2 url) ("//" : str) = false /\ nl = [] /\ rest = url) \/
  (url = "/"%char :: "/"%char :: nl ++ rest /\
   avoids ("/?#" : str) nl = true /\
   netloc_accepted chk nl = true /\
   match rest with
   | [] => True
   | c :: _ => has_char c ("/?#" : str) = true
   end).
Proof.
  intros H.
  destruct (str_eqb (firstn 2 url) ("//" : str)) eqn:E.
  - right. destruct (starts_with_slashes _ E) as (t & ->).
    rewrite split_netloc_slashes in H. cbv zeta in H.
    destruct (netloc_accepted chk _) eqn:Ea; [|discriminate].
    injection H as <- <-.
    rewrite firstn_skipn. split; [reflexivity|].
    split; [apply span_avoids|]. split; [exact Ea|].
    destruct (span_stops ("/?#" : str) t) as [-> | (c & r & -> & Hc)];
      [exact I | exact Hc].
  - left. rewrite (split_netloc_plain _ _ E) in H.
    injection H as <- <-. repeat split.
Qed.

Lemma split_netloc_compose chk nl p :
  avoids ("/?#" : str) nl = true ->
  match p with [] => True | c :: _ => has_char c ("/?#" : str) = true end ->
  split_netloc chk ("/"%char :: "/"%char :: nl ++ p)
  = if netloc_accepted chk nl then Ok (nl, p) else Raise ValueError.
Proof.
  intros Hn Hp. rewrite split_netloc_slashes. cbv zeta.
  rewrite (span_exact _ _ _ Hn Hp), firstn_app_exact, skipn_app_exact.
  reflexivity.
Qed.

(** ** Parameters *)

Lemma rfind_char_None c s : rfind_char c s = None <-> has_char c s = false.
Proof.
  induction s as [|x s IH]; cbn [rfind_char]; [split; reflexivity|].
  rewrite has_char_cons.
  destruct (rfind_char c s) as [i|].
  - split; [discriminate|]. intros H. apply orb_false_iff in H.
    destruct H as [_ H]. apply IH in H. discriminate.
  - assert (has_char c s = false) as -> by (apply IH; reflexivity).
    rewrite orb_false_r. destruct (Ascii.eqb x c); split; congruence.
Qed.

Lemma rfind_char_Some c s r :
  rfind_char c s = Some r ->
  s = firstn r s ++ c :: skipn (S r) s /\ has_char c (skipn (S r) s) = false.
Proof.
  revert r. induction s as [|x s IH]; intros r H; [discriminate|].
  cbn [rfind_char] in H.
  destruct (rfind_char c s) as [i|] eqn:E.
  - injection H as <-. destruct (IH i eq_refl) as [Hs Hn].
    cbn [firstn skipn app]. split; [f_equal; exact Hs | exact Hn].
  - destruct (Ascii.eqb_spec x c) as [->|]; [|discriminate].
    injection H as <-. cbn [firstn skipn app]. split; [reflexivity|].
    apply rfind_char_None, E.
Qed.

Lemma rfind_char_last c a b :
  has_char c b = false -> rfind_char c (a ++ c :: b) = Some (List.length a).
Proof.
  intros H. induction a as [|x a IH]; cbn [app rfind_char List.length].
  - apply rfind_char_None in H. rewrite H, Ascii.eqb_refl. reflexivity.
  - rewrite IH. reflexivity.
Qed.

Lemma last_part_after a b :
  has_char "/" b = false ->
  last_part (a ++ "/"%char :: b) = "/"%char :: b.
Proof.
  intros H. unfold last_part. rewrite (rfind_char_last _ _ _ H).
  apply skipn_app_exact.
Qed.

Lemma last_part_no_slash x : has_char "/" x = false -> last_part x = x.
Proof.
  intros H. unfold last_part. apply rfind_char_None in H. rewrite H.
  reflexivity.
Qed.

(** a string with a slash, cut at its last slash *)
Lemma cut_at_last_slash x :
  has_char "/" x = true ->
  exists a b, x = a ++ "/"%char :: b /\ has_char "/" b = false.
Proof.
  intros H. destruct (rfind_char "/" x) as [r|] eqn:E.
  - destruct (rfind_char_Some _ _ _ E) as [Hx Hn].
    exists (firstn r x), (skipn (S r) x). split; assumption.
  - apply rfind_char_None in E. congruence.
Qed.

Lemma splitparams_slash a b :
  has_char "/" b = false ->
  splitparams (a ++ "/"%char :: b)
  = match find_char ";" b with
    | Some j => (a ++ "/"%char :: firstn j b, skipn (S j) b)
    | None => (a ++ "/"%char :: b, [])
    end.
Proof.
  intros Hb. unfold splitparams.
  rewrite has_char_app, has_char_cons, Ascii.eqb_refl, orb_true_r.
  rewrite (rfind_char_last _ _ _ Hb). unfold find_from.
  rewrite skipn_app_exact. cbn [find_char].
  change (Ascii.eqb "/" ";") with false. cbv iota.
  destruct (find_char ";" b) as [j|]; [|reflexivity].
  cbn [option_map].
  replace (List.length a + S j) with (List.length (a ++ ["/"%char]) + j)
    by (rewrite length_app; cbn; lia).
  replace (a ++ "/"%char :: b) with ((a ++ ["/"%char]) ++ b)
    by (rewrite <- app_assoc; reflexivity).
  f_equal.
  - rewrite firstn_app, firstn_all2 by lia.
    replace (List.length (a ++ ["/"%char]) + j - List.length (a ++ ["/"%char]))
      with j by lia.
    rewrite <- app_assoc. reflexivity.
  - change (S (List.length (a ++ ["/"%char]) + j))
      with (S (List.length (a ++ ["/"%char])) + j).
    rewrite skipn_app.
    rewrite skipn_all2 by lia.
    cbn [app]. f_equal. lia.
Qed.

(** where the last segment has no semicolon, [urlparse] cuts nothing *)
Lemma params_free_kept s x :
  params_free s x = true ->
  (if str_in s uses_params && has_char ";" x
   then splitparams x else (x, [])) = (x, []).
Proof.
  unfold params_free. intros H.
  destruct (str_in s uses_params); [|reflexivity].
  cbn [negb orb andb] in *. apply negb_true_iff in H.
  destruct (has_char ";" x) eqn:Esemi; [|reflexivity].
  destruct (has_char "/" x) eqn:Eslash.
  - destruct (cut_at_last_slash _ Eslash) as (a & b & -> & Hb).
    rewrite (last_part_after a b Hb), has_char_cons in H.
    apply orb_false_iff in H. destruct H as [_ H].
    rewrite (splitparams_slash _ _ Hb).
    apply find_char_None in H. rewrite H. reflexivity.
  - rewrite (last_part_no_slash _ Eslash) in H. congruence.
Qed.

Lemma strip_params_free s x : params_free s x = true -> strip_params s x = x.
Proof.
  intros H. unfold strip_params. rewrite (params_free_kept _ _ H). reflexivity.
Qed.

(** what [urlparse] keeps has no parameters left *)
Lemma strip_params_params_free s x : params_free s (strip_params s x) = true.
Proof.
  unfold params_free, strip_params.
  destruct (str_in s uses_params); [|reflexivity].
  cbn [negb orb andb]. apply negb_true_iff.
  destruct (has_char ";" x) eqn:Esemi.
  - destruct (has_char "/" x) eqn:Eslash.
    + destruct (cut_at_last_slash _ Eslash) as (a & b & -> & Hb).
      rewrite (splitparams_slash _ _ Hb).
      destruct (find_char ";" b) as [j|] eqn:Ej; cbn [fst].
      * destruct (find_char_Some _ _ _ Ej) as (_ & Hn & _).
        rewrite last_part_after.
        -- rewrite has_char_cons, Hn. reflexivity.
        -- rewrite <- (firstn_skipn j b), has_char_app in Hb.
           apply orb_false_iff in Hb. apply Hb.
      * rewrite (last_part_after _ _ Hb), has_char_cons.
        apply find_char_None in Ej. rewrite Ej. reflexivity.
    + unfold splitparams. rewrite Eslash.
      destruct (find_char ";" x) as [i|] eqn:Ei; cbn [fst].
      * destruct (find_char_Some _ _ _ Ei) as (_ & Hn & _).
        rewrite last_part_no_slash; [exact Hn|].
        rewrite <- (firstn_skipn i x), has_char_app in Eslash.
        apply orb_false_iff in Eslash. apply Eslash.
      * apply find_char_None in Ei. congruence.
  - cbn [fst]. unfold last_part.
    destruct (rfind_char "/" x) as [r|]; [|exact Esemi].
    rewrite <- (firstn_skipn r x), has_char_app in Esemi.
    apply orb_false_iff in Esemi. apply Esemi.
Qed.

(** a path that begins at a slash has the last segment of the whole *)
Lemma params_free_suffix s a p :
  params_free s (a ++ "/"%char :: p) = true ->
  params_free s ("/"%char :: p) = true.
Proof.
  unfold params_free. destruct (str_in s uses_params); [|reflexivity].
  cbn [negb orb]. intros H.
  destruct (has_char "/" p) eqn:E.
  - destruct (cut_at_last_slash _ E) as (p1 & p2 & -> & Hp2).
    replace (a ++ "/"%char :: p1 ++ "/"%char :: p2)
      with ((a ++ "/"%char :: p1) ++ "/"%char :: p2) in H
      by (rewrite <- app_assoc; reflexivity).
    rewrite (last_part_after _ _ Hp2) in H.
    change ("/"%char :: p1 ++ "/"%char :: p2)
      with (("/"%char :: p1) ++ "/"%char :: p2).
    rewrite (last_part_after _ _ Hp2). exact H.
  - rewrite (last_part_after _ _ E) in H.
    change ("/"%char :: p) with ([] ++ "/"%char :: p).
    rewrite (last_part_after [] _ E). exact H.
Qed.

Lemma params_free_nil s : params_free s [] = true.
Proof. unfold params_free. cbn. apply orb_true_r. Qed.

(** ** Parsing a URL put together from its parts *)

(** the literals, spelled out *)
Ltac lits :=
  change (list_ascii_of_string ":") with [":"%char] in *;
  change (list_ascii_of_string "/") with ["/"%char] in *;
  change (list_ascii_of_string "//") with ["/"%char; "/"%char] in *;
  change (list_ascii_of_string "://") with [":"%char; "/"%char; "/"%char] in *.

Lemma slashed_head p :
  slashed p ->
  match p with
  | [] => True
  | c :: _ => has_char c ("/?#" : str) = true
  end.
Proof. intros [-> | (p' & ->)]; [exact I | reflexivity]. Qed.

Lemma tidy_scheme_rest s rest :
  valid_scheme s -> avoids UNSAFE_URL_BYTES_TO_REMOVE rest = true ->
  tidy (s ++ ":"%char :: rest).
Proof.
  intros (Hh & Hs & _) Hr.
  destruct (scheme_chars_plain s Hs) as [_ Hc]. split.
  - destruct s as [|c s]; [contradiction|].
    cbn [app]. apply alpha_not_stripped, Hh.
  - rewrite avoids_app, Hc, avoids_cons, Hr. reflexivity.
Qed.

Lemma urlparse_after_scheme chk s rest r :
  valid_scheme s -> avoids UNSAFE_URL_BYTES_TO_REMOVE rest = true ->
  urlparse chk (s ++ ":"%char :: rest) = Ok r ->
  scheme r = s /\
  exists rest2,
    split_netloc chk rest = Ok (netloc r, rest2) /\
    path r = strip_params s (fst (split_tail "?" (fst (split_tail "#" rest2)))).
Proof.
  intros Hs Hr H.
  destruct (urlparse_inv _ _ _ H) as (rest' & rest2 & Hsch & Hnl & Hp).
  rewrite (sanitize_id _ (tidy_scheme_rest _ _ Hs Hr)) in Hsch.
  rewrite (split_scheme_valid _ _ Hs) in Hsch.
  injection Hsch as Hs1 Hs2. subst rest'. rewrite <- Hs1 in *.
  split; [reflexivity|]. exists rest2. split; assumption.
Qed.

Lemma urlparse_composed chk s nl p :
  valid_scheme s ->
  avoids ("/?#" : str) nl = true ->
  avoids UNSAFE_URL_BYTES_TO_REMOVE nl = true ->
  slashed p ->
  has_char "?" p = false -> has_char "#" p = false ->
  avoids UNSAFE_URL_BYTES_TO_REMOVE p = true ->
  params_free s p = true ->
  urlparse chk (s ++ ":"%char :: "/"%char :: "/"%char :: nl ++ p)
  = if netloc_accepted chk nl
    then Ok (mkParse s nl p [] [] [])
    else Raise ValueError.
Proof.
  intros Hs Hn Hnc Hp Hq Hf Hpc Hfree.
  assert (avoids UNSAFE_URL_BYTES_TO_REMOVE
                 ("/"%char :: "/"%char :: nl ++ p) = true) as Hrest.
  { rewrite !avoids_cons, avoids_app, Hnc, Hpc. reflexivity. }
  unfold urlparse, urlsplit.
  rewrite (sanitize_id _ (tidy_scheme_rest s _ Hs Hrest)).
  rewrite (split_scheme_valid _ _ Hs).
  rewrite (split_netloc_compose chk nl p Hn (slashed_head _ Hp)).
  destruct (netloc_accepted chk nl); [|reflexivity].
  rewrite (split_tail_absent _ _ Hf), (split_tail_absent _ _ Hq).
  rewrite (params_free_kept _ _ Hfree). reflexivity.
Qed.

(** a URL with a scheme, a host without [www.] and a clean path is its
    own normal form *)
Lemma normalize_canonical chk s nl p :
  valid_scheme s ->
  nl <> [] ->
  avoids ("/?#" : str) nl = true ->
  avoids UNSAFE_URL_BYTES_TO_REMOVE nl = true ->
  slashed p ->
  has_char "?" p = false -> has_char "#" p = false ->
  avoids UNSAFE_URL_BYTES_TO_REMOVE p = true ->
  params_free s p = true ->
  netloc_accepted chk nl = true ->
  contains ("www." : str) nl = false ->
  normalize_url chk (s ++ ":"%char :: "/"%char :: "/"%char :: nl ++ p)
  = Ok (s ++ ":"%char :: "/"%char :: "/"%char :: nl ++ p).
Proof.
  intros Hs Hne Hn Hnc Hp Hq Hf Hpc Hfree Hacc Hwww.
  rewrite normalize_url_unfold.
  assert (with_scheme (s ++ ":"%char :: "/"%char :: "/"%char :: nl ++ p)
          = s ++ ":"%char :: "/"%char :: "/"%char :: nl ++ p) as ->.
  { unfold with_scheme. lits.
    change (s ++ ":"%char :: "/"%char :: "/"%char :: nl ++ p)
      with (s ++ [":"%char; "/"%char; "/"%char] ++ (nl ++ p)).
    rewrite contains_mid. reflexivity. }
  rewrite (urlparse_composed chk s nl p Hs Hn Hnc Hp Hq Hf Hpc Hfree), Hacc.
  cbn [scheme netloc path]. rewrite (replace_absent _ _ _ Hwww).
  f_equal. unfold geturl, urlunparse, urlunsplit. lits.
  rewrite (str_eqb_refl []). cbn [negb].
  assert (str_eqb nl [] = false) as -> by (apply str_eqb_neq, Hne).
  assert (str_eqb s [] = false) as ->
      by (apply str_eqb_neq, valid_scheme_nonempty, Hs).
  cbn [negb orb].
  destruct Hp as [-> | (p' & ->)].
  - rewrite (str_eqb_refl []). cbn [negb andb]. reflexivity.
  - cbn [firstn]. rewrite (str_eqb_refl ["/"%char]).
    cbn [negb andb]. rewrite andb_false_r. reflexivity.
Qed.

(** ** What a parsed URL is made of *)

Lemma avoids_suffix bad a b : avoids bad (a ++ b) = true -> avoids bad b = true.
Proof.
  rewrite avoids_app. intros H. apply andb_true_iff in H. apply H.
Qed.

Lemma avoids_prefix bad a b : avoids bad (a ++ b) = true -> avoids bad a = true.
Proof.
  rewrite avoids_app. intros H. apply andb_true_iff in H. apply H.
Qed.

Lemma slashed_scheme p : slashed p -> split_scheme p = ([], p).
Proof.
  intros [-> | (p' & ->)]; [reflexivity | apply split_scheme_slash].
Qed.

Lemma slashed_tidy p :
  slashed p -> avoids UNSAFE_URL_BYTES_TO_REMOVE p = true -> tidy p.
Proof.
  intros [-> | (p' & ->)] H; split; try exact H; try exact I.
  reflexivity.
Qed.

(** the path kept is a prefix of what follows the netloc *)
Lemma path_prefix s rest2 :
  exists w,
    rest2
    = strip_params s (fst (split_tail "?" (fst (split_tail "#" rest2)))) ++ w.
Proof.
  destruct (split_tail_prefix "#" rest2) as (w1 & E1 & _).
  set (u1 := fst (split_tail "#" rest2)) in *.
  destruct (split_tail_prefix "?" u1) as (w2 & E2 & _).
  set (u2 := fst (split_tail "?" u1)) in *.
  destruct (strip_params_prefix s u2) as (w3 & E3).
  exists (w3 ++ w2 ++ w1).
  rewrite E1 at 1. rewrite E2 at 1. rewrite E3 at 1.
  rewrite <- !app_assoc. reflexivity.
Qed.

Lemma urlparse_facts chk u p :
  urlparse chk u = Ok p ->
  (scheme p = [] \/ valid_scheme (scheme p)) /\
  avoids ("/?#" : str) (netloc p) = true /\
  avoids UNSAFE_URL_BYTES_TO_REMOVE (netloc p) = true /\
  avoids UNSAFE_URL_BYTES_TO_REMOVE (path p) = true /\
  has_char "?" (path p) = false /\
  has_char "#" (path p) = false /\
  params_free (scheme p) (path p) = true /\
  (netloc p <> [] -> slashed (path p)) /\
  (scheme p = [] -> split_scheme (path p) = ([], path p) /\ tidy (path p)).
Proof.
  intros H. destruct (urlparse_path_plain _ _ _ H) as [Hq Hf].
  destruct (urlparse_inv _ _ _ H) as (rest & rest2 & Hsch & Hnl & Hp).
  pose proof (sanitize_tidy u) as Htidy.
  set (u1 := sanitize u) in *.
  destruct (path_prefix (scheme p) rest2) as (w & Hw). rewrite <- Hp in Hw.
  assert (avoids UNSAFE_URL_BYTES_TO_REMOVE rest = true) as Hrest.
  { destruct (split_scheme_cases u1) as [E | (raw & rest' & Eu & E & _)];
      rewrite E in Hsch; injection Hsch as _ <-.
    - apply tidy_clean, Htidy.
    - apply tidy_clean in Htidy. rewrite Eu in Htidy.
      apply avoids_suffix in Htidy. rewrite avoids_cons in Htidy.
      apply andb_true_iff in Htidy. apply Htidy. }
  assert (scheme p = [] \/ valid_scheme (scheme p)) as Hscheme.
  { destruct (split_scheme_cases u1) as [E | (raw & rest' & Eu & E & Hv)];
      rewrite E in Hsch; injection Hsch as <- _; [left | right]; auto. }
  destruct (split_netloc_inv _ _ _ _ Hnl)
    as [(Hno & Hnil & ->) | (Erest & Hav & _ & Hhead)].
  - (* no netloc: the path is a prefix of the sanitized URL *)
    rewrite Hnil.
    assert (avoids UNSAFE_URL_BYTES_TO_REMOVE (path p) = true) as Hpc.
    { rewrite Hw in Hrest. apply avoids_prefix in Hrest. exact Hrest. }
    assert (params_free (scheme p) (path p) = true) as Hfree
        by (rewrite Hp; apply strip_params_params_free).
    assert (scheme p = [] ->
            split_scheme (path p) = ([], path p) /\ tidy (path p)) as Hnone.
    { intros Hs0.
      destruct (split_scheme_cases u1) as [E | (raw & rest' & Eu & E & Hv)];
        rewrite E in Hsch; injection Hsch as Es Er.
      - subst rest. split.
        + rewrite Hw in E. apply split_scheme_prefix in E. exact E.
        + rewrite Hw in Htidy. apply tidy_prefix in Htidy. exact Htidy.
      - rewrite <- Es in Hs0. destruct Hv as [Hv _].
        rewrite Hs0 in Hv. contradiction. }
    repeat (split; [first [assumption | reflexivity]|]).
    split; [intros Hne; contradiction | exact Hnone].
  - (* a netloc: the path is empty or begins with a slash *)
    assert (avoids UNSAFE_URL_BYTES_TO_REMOVE (netloc p) = true /\
            avoids UNSAFE_URL_BYTES_TO_REMOVE rest2 = true) as [Hnc Hr2].
    { rewrite Erest, !avoids_cons, avoids_app in Hrest.
      apply andb_true_iff in Hrest. destruct Hrest as [_ Hrest].
      apply andb_true_iff in Hrest. destruct Hrest as [_ Hrest].
      apply andb_true_iff in Hrest. exact Hrest. }
    assert (avoids UNSAFE_URL_BYTES_TO_REMOVE (path p) = true) as Hpc.
    { rewrite Hw in Hr2. apply avoids_prefix in Hr2. exact Hr2. }
    assert (slashed (path p)) as Hsl.
    { destruct (path p) as [|c p'] eqn:Epath; [left; reflexivity|].
      right. exists p'. f_equal.
      rewrite Hw in Hhead. cbn [app] in Hhead.
      rewrite has_char_cons in Hq, Hf.
      apply orb_false_iff in Hq. destruct Hq as [Hq _].
      apply orb_false_iff in Hf. destruct Hf as [Hf _].
      unfold has_char in Hhead. lits.
      change (list_ascii_of_string "/?#")
        with ["/"%char; "?"%char; "#"%char] in Hhead.
      cbn [existsb] in Hhead.
      rewrite (Ascii.eqb_sym "?" c), (Ascii.eqb_sym "#" c), Hq, Hf in Hhead.
      rewrite !orb_false_r in Hhead. apply Ascii.eqb_eq in Hhead.
      symmetry. exact Hhead. }
    assert (params_free (scheme p) (path p) = true) as Hfree
        by (rewrite Hp; apply strip_params_params_free).
    repeat (split; [first [assumption | reflexivity]|]).
    split; [intros _; exact Hsl|].
    intros _. split; [apply slashed_scheme, Hsl | apply slashed_tidy; assumption].
Qed.

(** ** Normalizing twice *)

Lemma Ok_inj A (a b : A) : Ok a = Ok b -> a = b.
Proof. intros H. injection H as H. exact H. Qed.

(** a URL that begins with a slash has no scheme *)
Lemma urlparse_slash_no_scheme chk x r :
  urlparse chk ("/"%char :: x) = Ok r -> scheme r = [].
Proof.
  intros H. destruct (urlparse_inv _ _ _ H) as (rest & rest2 & Hsch & _).
  rewrite sanitize_filter in Hsch.
  change (lstrip C0_CONTROL_OR_SPACE ("/"%char :: x)) with ("/"%char :: x) in Hsch.
  cbn [filter] in Hsch.
  change (has_char "/" UNSAFE_URL_BYTES_TO_REMOVE) with false in Hsch.
  cbn [negb] in Hsch. rewrite split_scheme_slash in Hsch.
  injection Hsch as <- _. reflexivity.
Qed.

(** C6 (as amended): normalizing the normal form [v] of a URL gives [v]
    again whenever [v] parses into a scheme and a network location that
    are not empty and the network location has no [www.] in it. *)
Theorem normalize_url_idempotent_on_plain_hosts
        (check_bracketed_host : str -> bool) (u v : str) (r : ParseResult) :
  normalize_url check_bracketed_host u = Ok v ->
  urlparse check_bracketed_host v = Ok r ->
  scheme r <> [] ->
  netloc r <> [] ->
  contains ("www." : str) (netloc r) = false ->
  normalize_url check_bracketed_host v = Ok v.
Proof.
  set (chk := check_bracketed_host).
  intros Hu Hv Hs Hn Hwww.
  rewrite normalize_url_unfold in Hu.
  destruct (urlparse chk (with_scheme u)) as [p|e] eqn:Ep; [|discriminate].
  destruct (urlparse_facts _ _ _ Ep)
    as (Hscheme & Hndel & Hnclean & Hpclean & Hq & Hf & Hfree & Hslashed & Hnone).
  apply Ok_inj in Hu.
  set (s0 := scheme p) in *. set (p0 := path p) in *.
  set (nl := replace ("www." : str) [] (netloc p)) in *.
  assert (avoids ("/?#" : str) nl = true) as Hnl_del
      by (apply replace_avoids, Hndel).
  assert (avoids UNSAFE_URL_BYTES_TO_REMOVE nl = true) as Hnl_clean
      by (apply replace_avoids, Hnclean).
  assert (nl <> [] -> slashed p0) as Hsl.
  { intros Hne. apply Hslashed. intros E. apply Hne. subst nl.
    rewrite E. reflexivity. }
  unfold geturl, urlunparse, urlunsplit in Hu. lits.
  rewrite (str_eqb_refl []) in Hu. cbn [negb] in Hu.
  destruct (str_eqb nl []) eqn:En.
  - (* the host is gone *)
    apply str_eqb_eq in En. cbn [negb orb] in Hu.
    destruct (str_eqb s0 []) eqn:Es.
    + (* no scheme: the normal form is the path, which has no scheme *)
      apply str_eqb_eq in Es. cbn [negb andb] in Hu. subst v.
      destruct (Hnone Es) as [Hsch Htidy].
      destruct (urlparse_inv _ _ _ Hv) as (rest & rest2 & Hsch' & _).
      rewrite (sanitize_id _ Htidy), Hsch in Hsch'.
      injection Hsch' as Hs' _. symmetry in Hs'. contradiction.
    + apply str_eqb_neq in Es.
      destruct Hscheme as [Hs0 | Hvalid]; [contradiction|].
      cbn [negb andb] in Hu.
      destruct (str_in s0 uses_netloc
                && negb (str_eqb (firstn 2 p0) [ "/"%char; "/"%char ])) eqn:Ec.
      * (* an empty host is written out, and read back empty *)
        rewrite En in Hu. cbn [app] in Hu.
        set (p1 := if negb (str_eqb p0 [])
                      && negb (str_eqb (firstn 1 p0) ["/"%char])
                   then "/"%char :: p0 else p0) in *.
        assert (slashed p1) as Hsl1.
        { subst p1. destruct p0 as [|c p0']; [left; reflexivity|].
          cbn [firstn].
          destruct (str_eqb [c] ["/"%char]) eqn:Ecs; cbn [negb andb].
          - apply str_eqb_eq in Ecs. injection Ecs as ->.
            right. eexists. reflexivity.
          - assert (str_eqb (c :: p0') [] = false) as ->
                by (apply str_eqb_neq; discriminate).
            right. eexists. reflexivity. }
        assert (avoids UNSAFE_URL_BYTES_TO_REMOVE p1 = true) as Hp1.
        { subst p1.
          destruct (negb (str_eqb p0 [])
                    && negb (str_eqb (firstn 1 p0) ["/"%char]));
            [|exact Hpclean].
          rewrite avoids_cons, Hpclean. reflexivity. }
        subst v.
        assert (avoids UNSAFE_URL_BYTES_TO_REMOVE
                       ("/"%char :: "/"%char :: p1) = true) as Hrest
            by (rewrite !avoids_cons, Hp1; reflexivity).
        destruct (urlparse_after_scheme _ _ _ _ Hvalid Hrest Hv)
          as (_ & rest2 & Hnl2 & _).
        change ("/"%char :: "/"%char :: p1)
          with ("/"%char :: "/"%char :: [] ++ p1) in Hnl2.
        rewrite (split_netloc_compose chk [] p1 eq_refl (slashed_head _ Hsl1))
          in Hnl2.
        change (netloc_accepted chk []) with true in Hnl2.
        injection Hnl2 as Hnl2 _. symmetry in Hnl2. contradiction.
      * (* the path is read back as host and path *)
        subst v.
        destruct (urlparse_after_scheme _ _ _ _ Hvalid Hpclean Hv)
          as (Hsr & rest2 & Hnl2 & Hpr).
        destruct (split_netloc_inv _ _ _ _ Hnl2)
          as [(_ & Hnil & _) | (Ep0 & Hav & Hacc & Hhead)];
          [contradiction|].
        assert (avoids UNSAFE_URL_BYTES_TO_REMOVE (netloc r) = true /\
                avoids UNSAFE_URL_BYTES_TO_REMOVE rest2 = true) as [Hc1 Hc2].
        { rewrite Ep0, !avoids_cons, avoids_app in Hpclean.
          apply andb_true_iff in Hpclean. destruct Hpclean as [_ Hpclean].
          apply andb_true_iff in Hpclean. destruct Hpclean as [_ Hpclean].
          apply andb_true_iff in Hpclean. exact Hpclean. }
        assert (has_char "?" rest2 = false /\ has_char "#" rest2 = false)
          as [Hq2 Hf2].
        { rewrite Ep0 in Hq, Hf.
          change ("/"%char :: "/"%char :: netloc r ++ rest2)
            with (("/"%char :: "/"%char :: netloc r) ++ rest2) in Hq, Hf.
          rewrite has_char_app in Hq, Hf.
          apply orb_false_iff in Hq. apply orb_false_iff in Hf.
          split; [apply Hq | apply Hf]. }
        assert (slashed rest2) as Hsl2.
        { destruct rest2 as [|c rest2']; [left; reflexivity|].
          right. exists rest2'. f_equal.
          rewrite has_char_cons in Hq2, Hf2.
          apply orb_false_iff in Hq2. destruct Hq2 as [Hq2 _].
          apply orb_false_iff in Hf2. destruct Hf2 as [Hf2 _].
          unfold has_char in Hhead.
          change (list_ascii_of_string "/?#")
            with ["/"%char; "?"%char; "#"%char] in Hhead.
          cbn [existsb] in Hhead.
          rewrite (Ascii.eqb_sym "?" c), (Ascii.eqb_sym "#" c), Hq2, Hf2
            in Hhead.
          rewrite !orb_false_r in Hhead. apply Ascii.eqb_eq in Hhead.
          symmetry. exact Hhead. }
        assert (params_free s0 rest2 = true) as Hfree2.
        { destruct Hsl2 as [-> | (p' & ->)]; [apply params_free_nil|].
          rewrite Ep0 in Hfree.
          change ("/"%char :: "/"%char :: netloc r ++ "/"%char :: p')
            with (("/"%char :: "/"%char :: netloc r) ++ "/"%char :: p')
            in Hfree.
          apply params_free_suffix in Hfree. exact Hfree. }
        rewrite Ep0.
        apply normalize_canonical; assumption.
  - (* a host is left *)
    apply str_eqb_neq in En. cbn [negb orb] in Hu.
    specialize (Hsl En).
    assert ((if negb (str_eqb p0 []) && negb (str_eqb (firstn 1 p0) ["/"%char])
             then ["/"%char] ++ p0 else p0) = p0) as Ep0.
    { destruct Hsl as [-> | (p' & ->)]; [reflexivity|].
      cbn [firstn]. rewrite (str_eqb_refl ["/"%char]).
      cbn [negb]. rewrite andb_false_r. reflexivity. }
    rewrite Ep0 in Hu.
    destruct (str_eqb s0 []) eqn:Es; cbn [negb] in Hu.
    + (* no scheme: the normal form begins with a slash *)
      subst v. cbn [app] in Hv.
      apply urlparse_slash_no_scheme in Hv. contradiction.
    + apply str_eqb_neq in Es.
      destruct Hscheme as [Hs0 | Hvalid]; [contradiction|].
      subst v. cbn [app] in Hv |- *.
      rewrite (urlparse_composed chk s0 nl p0) in Hv by assumption.
      destruct (netloc_accepted chk nl) eqn:Hacc; [|discriminate].
      injection Hv as <-. cbn [netloc] in Hwww.
      apply normalize_canonical; assumption.
Qed.

Lemma normalize_url_idempotent_on_plain_hosts_witness :
  normalize_url (fun _ => true) ("http://example.com/a" : str)
  = Ok ("http://example.com/a" : str).
Proof.
  apply (normalize_url_idempotent_on_plain_hosts
           (fun _ => true)
           ("http://www.example.com/a?x=1" : str)
           ("http://example.com/a" : str)
           (mkParse ("http" : str) ("example.com" : str) ("/a" : str)
                    [] [] [])).
  - vm_compute. reflexivity.
  - vm_compute. reflexivity.
  - cbv. discriminate.
  - cbv. discriminate.
  - vm_compute. reflexivity.
Defined.

(** C6 (as stated) fails in three ways: a [www.] that the removal itself
    puts together is removed by the second pass; a URL whose only [://]
    is in the query comes out without a scheme and gets the default one
    in the second pass; a URL with a scheme that takes no network location
    and an empty host comes out with a single slash and is read as a host
    in the second pass. *)
Lemma normalize_url_twice_differs :
  normalize_url (fun _ => true) ("wwww.ww.a.com" : str)
  = Ok ("http://www.a.com" : str) /\
  normalize_url (fun _ => true) ("http://www.a.com" : str)
  = Ok ("http://a.com" : str) /\
  normalize_url (fun _ => true) ("a.com?u=http://b" : str)
  = Ok ("a.com" : str) /\
  normalize_url (fun _ => true) ("a.com" : str)
  = Ok ("http://a.com" : str) /\
  normalize_url (fun _ => true) ("foo:///bar" : str)
  = Ok ("foo:/bar" : str) /\
  normalize_url (fun _ => true) ("foo:/bar" : str)
  = Ok ("http://foo:/bar" : str).
Proof. repeat split; vm_compute; reflexivity. Qed.

(** * Further properties of [core/indexer.py] *)

(** ** What [index_document] tells and does *)

Lemma py_in_mentions k v : py_in k v = Ok true -> mentions k v.
Proof.
  destruct v as [| | |s|l|m]; cbn; try discriminate; intros H;
    injection H as H.
  - exact H.
  - apply existsb_exists in H. destruct H as ([| | |s| |] & Hin & E);
      try discriminate.
    apply str_eqb_eq in E. subst s. exact Hin.
  - destruct (dict_get m k) as [x|]; [|discriminate]. exists x. reflexivity.
Qed.

Lemma py_in_not_mentions k v : py_in k v = Ok false -> ~ mentions k v.
Proof.
  destruct v as [| | |s|l|m]; cbn; try discriminate; intros H;
    injection H as H.
  - rewrite H. discriminate.
  - intros Hin.
    assert (existsb (fun x => match x with
                              | JStr s => str_eqb s k
                              | _ => false
                              end) l = true) as E.
    { apply existsb_exists. exists (JStr k).
      split; [exact Hin | apply str_eqb_refl]. }
    congruence.
  - intros (x & E). rewrite E in H. discriminate.
Qed.

Lemma status_code_found result status code :
  py_in ("status" : str) result = Ok true ->
  py_getitem result ("status" : str) = Ok status ->
  truthy status = true ->
  py_getitem status ("code" : str) = Ok code ->
  exists sm, status = JObj sm /\ status_code_of result sm code.
Proof.
  intros _ Hg Ht Hc.
  destruct result as [| | | | |m]; try discriminate.
  cbn [py_getitem] in Hg.
  destruct (dict_get m ("status" : str)) as [x|] eqn:Em; [|discriminate].
  injection Hg as ->.
  destruct status as [| | | | |sm]; try discriminate.
  cbn [py_getitem] in Hc.
  destruct (dict_get sm ("code" : str)) as [c|] eqn:Ec; [|discriminate].
  injection Hc as ->.
  exists sm. split; [reflexivity|]. exists m.
  repeat split; try assumption.
  intros ->. discriminate Ht.
Qed.

Lemma already_exists_true result :
  already_exists result = Ok true ->
  exists status code,
    status_code_of result status code /\
    (mentions ("ALREADY_EXISTS" : str) code \/
     (mentions ("CONFLICT" : str) code /\
      exists detail,
        dict_get status ("statusDetail" : str) = Some detail /\
        mentions ("Indexing doesn't support updating documents" : str) detail)).
Proof.
  unfold already_exists.
  destruct (py_in ("status" : str) result) as [[|]|e] eqn:E1; try discriminate.
  destruct (py_getitem result ("status" : str)) as [status|e] eqn:E2;
    [|discriminate].
  destruct (truthy status) eqn:E3; [|discriminate]. cbn [negb].
  destruct (py_getitem status ("code" : str)) as [code|e] eqn:E4;
    [|discriminate].
  destruct (status_code_found _ _ _ E1 E2 E3 E4) as (sm & -> & Hs).
  destruct (py_in ("ALREADY_EXISTS" : str) code) as [[|]|e] eqn:E5;
    try discriminate.
  - intros _. exists sm, code. split; [exact Hs|].
    left. apply py_in_mentions, E5.
  - destruct (py_in ("CONFLICT" : str) code) as [[|]|e] eqn:E6;
      try discriminate.
    cbn [py_getitem].
    destruct (dict_get sm ("statusDetail" : str)) as [detail|] eqn:E7;
      [|discriminate].
    intros E8. exists sm, code. split; [exact Hs|].
    right. split; [apply py_in_mentions, E6|].
    exists detail. split; [exact E7 | apply py_in_mentions, E8].
Qed.

Lemma status_ok_true result :
  already_exists result = Ok false ->
  status_ok result = Ok true ->
  exists status code,
    status_code_of result status code /\
    mentions ("OK" : str) code /\
    ~ mentions ("ALREADY_EXISTS" : str) code.
Proof.
  unfold already_exists, status_ok.
  destruct (py_in ("status" : str) result) as [[|]|e] eqn:E1; try discriminate.
  destruct (py_getitem result ("status" : str)) as [status|e] eqn:E2;
    [|discriminate].
  destruct (truthy status) eqn:E3; [|discriminate]. cbn [negb].
  destruct (py_getitem status ("code" : str)) as [code|e] eqn:E4;
    [|discriminate].
  destruct (status_code_found _ _ _ E1 E2 E3 E4) as (sm & -> & Hs).
  destruct (py_in ("ALREADY_EXISTS" : str) code) as [[|]|e] eqn:E5;
    try discriminate.
  intros _ E6. exists sm, code. split; [exact Hs|].
  split; [apply py_in_mentions, E6 | apply py_in_not_mentions, E5].
Qed.

(** X1: [index_document] answers [True] only when the request could be
    written and the first submission came back with HTTP 200 and a JSON
    object whose [status] is a non-empty object with a [code] that
    contains [OK] and not [ALREADY_EXISTS], or that, with reindexing
    enabled, contains [ALREADY_EXISTS], or contains [CONFLICT] while
    [statusDetail] contains the sentence about updating documents.  A code
    contains a text when it is a string with that text somewhere in it, a
    list with that text as an element, or an object with that text as a
    key: a code [NOT_OK] contains [OK]. *)
Theorem index_document_true_only_if
        (W : World) (doc : Document) (st st' : State) :
  index_document W doc st = (Ok true, st') ->
  serializable W doc = true /\
  exists response m status code,
    http W (EPostIndex doc :: history st) = Ok response /\
    status_code response = 200%Z /\
    body response = Some (JObj m) /\
    dict_get m ("status" : str) = Some (JObj status) /\
    status <> [] /\
    dict_get status ("code" : str) = Some code /\
    ((mentions ("OK" : str) code /\ ~ mentions ("ALREADY_EXISTS" : str) code)
     \/
     (reindex st = true /\
      (mentions ("ALREADY_EXISTS" : str) code \/
       (mentions ("CONFLICT" : str) code /\
        exists detail,
          dict_get status ("statusDetail" : str) = Some detail /\
          mentions ("Indexing doesn't support updating documents" : str)
                   detail)))).
Proof.
  rewrite index_document_unfold. intros H.
  destruct (serializable W doc); [|discriminate].
  split; [reflexivity|].
  destruct (http W (EPostIndex doc :: history st)) as [response|e];
    [|discriminate].
  cbv zeta in H.
  destruct (status_code response =? 200)%Z eqn:Hc; [|discriminate].
  apply Z.eqb_eq in Hc. cbn [negb] in H.
  unfold response_json in H.
  destruct (body response) as [result|] eqn:Hb; [|discriminate].
  destruct (already_exists result) as [[|]|e] eqn:Ea; [| |discriminate].
  - destruct (reindex st); [|discriminate].
    destruct (already_exists_true result Ea)
      as (status & code & (m & -> & Hm & Hne & Hcode) & Hcases).
    exists response, m, status, code.
    repeat (split; [first [reflexivity | assumption]|]).
    right. split; [reflexivity | exact Hcases].
  - destruct (status_ok result) as [[|]|e] eqn:Es; try discriminate.
    destruct (status_ok_true result Ea Es)
      as (status & code & (m & -> & Hm & Hne & Hcode) & Hok).
    exists response, m, status, code.
    repeat (split; [first [reflexivity | assumption]|]).
    left. exact Hok.
Qed.

Lemma index_document_true_only_if_witness :
  serializable accepting doc1 = true /\
  exists response m status code,
    http accepting [EPostIndex doc1] = Ok response /\
    status_code response = 200%Z /\
    body response = Some (JObj m) /\
    dict_get m ("status" : str) = Some (JObj status) /\
    status <> [] /\
    dict_get status ("code" : str) = Some code /\
    ((mentions ("OK" : str) code /\ ~ mentions ("ALREADY_EXISTS" : str) code)
     \/
     (true = true /\
      (mentions ("ALREADY_EXISTS" : str) code \/
       (mentions ("CONFLICT" : str) code /\
        exists detail,
          dict_get status ("statusDetail" : str) = Some detail /\
          mentions ("Indexing doesn't support updating documents" : str)
                   detail)))).
Proof.
  apply (index_document_true_only_if
           accepting doc1 (init true)
           (mkState true [] [EPostIndex doc1])).
  reflexivity.
Defined.

(** X2: until the first submission has come back with HTTP 200,
    [index_document] answers every failure with [False]: a request that
    cannot be written, a submission that raises, a reply with another
    status.  It raises only after that: the body cannot be read as the code
    expects, or, with reindexing enabled, the delete call or the
    resubmission fails. *)
Theorem index_document_raises_only_after_ok_reply
        (W : World) (doc : Document) (st : State) :
  let st1 := mkState (reindex st) (detected_language st)
                     (EPostIndex doc :: history st) in
  (serializable W doc = false ->
   index_document W doc st = (Ok false, st)) /\
  (forall e,
      serializable W doc = true ->
      http W (EPostIndex doc :: history st) = Raise e ->
      index_document W doc st = (Ok false, st1)) /\
  (forall response,
      serializable W doc = true ->
      http W (EPostIndex doc :: history st) = Ok response ->
      status_code response <> 200%Z ->
      index_document W doc st = (Ok false, st1)) /\
  (forall e st',
      index_document W doc st = (Raise e, st') ->
      exists response,
        http W (EPostIndex doc :: history st) = Ok response /\
        status_code response = 200%Z /\
        (response_json response = Raise e
         \/ (exists result,
                response_json response = Ok result /\
                (already_exists result = Raise e \/ status_ok result = Raise e))
         \/ (reindex st = true /\
             (http W (EPostDelete (documentId doc) :: EPostIndex doc
                      :: history st)
              = Raise e
              \/ http W (EPostIndex doc :: EPostDelete (documentId doc)
                         :: EPostIndex doc :: history st) = Raise e)))).
Proof.
  intros st1. subst st1. rewrite index_document_unfold.
  split; [|split; [|split]].
  - intros ->. reflexivity.
  - intros e -> ->. reflexivity.
  - intros response -> -> Hc. cbv zeta.
    apply Z.eqb_neq in Hc. rewrite Hc. reflexivity.
  - intros e st' H.
    destruct (serializable W doc); [|discriminate].
    destruct (http W (EPostIndex doc :: history st)) as [response|e0];
      [|discriminate].
    cbv zeta in H.
    destruct (status_code response =? 200)%Z eqn:Hc; [|discriminate].
    apply Z.eqb_eq in Hc. cbn [negb] in H.
    destruct (response_json response) as [result|e0] eqn:Ej.
    + destruct (already_exists result) as [[|]|e0] eqn:Ea.
      * destruct (reindex st) eqn:Hre; [|discriminate].
        revert H. unfold delete_doc. run.
        destruct (http W (EPostDelete (documentId doc) :: EPostIndex doc
                          :: history st)) as [rd|e1].
        -- destruct (negb (status_code rd =? 200)%Z); cbn;
             destruct (http W (EPostIndex doc :: EPostDelete (documentId doc)
                               :: EPostIndex doc :: history st)) as [r2|e2];
             intros H; try discriminate; injection H as -> _;
             exists response; (split; [reflexivity|]); (split; [exact Hc|]);
             right; right; (split; [reflexivity|]); right; reflexivity.
        -- intros H. injection H as -> _.
           exists response. split; [reflexivity|]. split; [exact Hc|].
           right. right. split; [reflexivity|]. left. reflexivity.
      * destruct (status_ok result) as [ok|e0] eqn:Es; [discriminate|].
        injection H as -> _.
        exists response. split; [reflexivity|]. split; [exact Hc|].
        right. left. exists result. split; [exact Ej|]. right. exact Es.
      * injection H as -> _.
        exists response. split; [reflexivity|]. split; [exact Hc|].
        right. left. exists result. split; [exact Ej|]. left. exact Ea.
    + injection H as -> _.
      exists response. split; [reflexivity|]. split; [exact Hc|].
      left. exact Ej.
Qed.

Lemma index_document_raises_only_after_ok_reply_witness :
  index_document dead_world doc1 (init true)
  = (Ok false, mkState true [] [EPostIndex doc1]) /\
  exists response,
    http conflict_then_unreachable [EPostIndex doc1] = Ok response /\
    status_code response = 200%Z /\
    (response_json response = Raise ConnectionError
     \/ (exists result,
            response_json response = Ok result /\
            (already_exists result = Raise ConnectionError
             \/ status_ok result = Raise ConnectionError))
     \/ (true = true /\
         (http conflict_then_unreachable
               [EPostDelete ("doc-1" : str); EPostIndex doc1]
          = Raise ConnectionError
          \/ http conflict_then_unreachable
                  [EPostIndex doc1; EPostDelete ("doc-1" : str); EPostIndex doc1]
             = Raise ConnectionError))).
Proof.
  split.
  - apply (index_document_raises_only_after_ok_reply
             dead_world doc1 (init true)) with (e := ConnectionError);
      reflexivity.
  - apply (index_document_raises_only_after_ok_reply
             conflict_then_unreachable doc1 (init true))
      with (e := ConnectionError)
           (st' := mkState true []
                           [EPostDelete ("doc-1" : str); EPostIndex doc1]).
    reflexivity.
Defined.

Lemma resubmission_calls (W : World) doc st :
  let D := EPostDelete (documentId doc) in
  let P := EPostIndex doc in
  let tail := (delete_doc W (documentId doc) ;;;
               call_r P (http W) ;;; ret true) st in
  (history (snd tail) = D :: history st /\
   exists e, http W (D :: history st) = Raise e)
  \/ (history (snd tail) = P :: D :: history st /\
      exists rd, http W (D :: history st) = Ok rd).
Proof.
  intros D P tail. subst tail D P. unfold delete_doc. run.
  destruct (http W (EPostDelete (documentId doc) :: history st)) as [rd|e].
  - right.
    destruct (negb (status_code rd =? 200)%Z); cbn;
      destruct (http W (EPostIndex doc :: EPostDelete (documentId doc)
                        :: history st)) as [r2|e];
      (split; [reflexivity | exists rd; reflexivity]).
  - left. split; [reflexivity | exists e; reflexivity].
Qed.

(** X3: [index_document] makes no call at all, when the request cannot
    be written; or the submission alone; or, with reindexing enabled, the
    submission and then the delete call for the document's id, which
    raised; or the submission, the delete call, which did not raise, and
    the resubmission.  Nothing else is recorded (the lists hold the newest
    call first). *)
Theorem index_document_calls (W : World) (doc : Document) (st : State) :
  let P := EPostIndex doc in
  let D := EPostDelete (documentId doc) in
  exists new,
    history (snd (index_document W doc st)) = new ++ history st /\
    ((new = [] /\ serializable W doc = false) \/
     (new = [P] /\ serializable W doc = true) \/
     (reindex st = true /\ new = [D; P] /\
      exists e, http W (D :: P :: history st) = Raise e) \/
     (reindex st = true /\ new = [P; D; P] /\
      exists rd, http W (D :: P :: history st) = Ok rd)).
Proof.
  intros P D. subst P D. rewrite index_document_unfold.
  destruct (serializable W doc);
    [|exists []; split; [reflexivity | left; split; reflexivity]].
  assert (forall (r : outcome bool),
             exists new,
               history (snd (r, mkState (reindex st) (detected_language st)
                                        (EPostIndex doc :: history st)))
               = new ++ history st /\
               ((new = [] /\ true = false) \/
                (new = [EPostIndex doc] /\ true = true) \/
                (reindex st = true /\
                 new = [EPostDelete (documentId doc); EPostIndex doc] /\
                 exists e, http W (EPostDelete (documentId doc)
                                   :: EPostIndex doc :: history st) = Raise e) \/
                (reindex st = true /\
                 new = [EPostIndex doc; EPostDelete (documentId doc);
                        EPostIndex doc] /\
                 exists rd, http W (EPostDelete (documentId doc)
                                    :: EPostIndex doc :: history st) = Ok rd)))
    as Hone.
  { intros r. exists [EPostIndex doc].
    split; [reflexivity | right; left; split; reflexivity]. }
  destruct (http W (EPostIndex doc :: history st)) as [response|e];
    [|apply Hone].
  cbv zeta.
  destruct (negb (status_code response =? 200)%Z); [apply Hone|].
  destruct (response_json response) as [result|e]; [|apply Hone].
  destruct (already_exists result) as [[|]|e]; [| |apply Hone].
  - destruct (reindex st) eqn:Hre; [|apply Hone].
    pose proof (resubmission_calls W doc
                  (mkState true (detected_language st)
                           (EPostIndex doc :: history st))) as H.
    cbv zeta in H. cbn [reindex detected_language history] in H.
    destruct H as [[-> He] | [-> Hrd]].
    + exists [EPostDelete (documentId doc); EPostIndex doc].
      split; [reflexivity|]. right. right. left.
      split; [reflexivity|]. split; [reflexivity | exact He].
    + exists [EPostIndex doc; EPostDelete (documentId doc); EPostIndex doc].
      split; [reflexivity|]. right. right. right.
      split; [reflexivity|]. split; [reflexivity | exact Hrd].
  - destruct (status_ok result) as [ok|e]; apply Hone.
Qed.

(** ** What [index_url] tells and does *)

Lemma index_document_true_posted (W : World) doc st st' :
  index_document W doc st = (Ok true, st') ->
  exists response,
    http W (EPostIndex doc :: history st) = Ok response /\
    status_code response = 200%Z.
Proof.
  rewrite index_document_unfold. intros H.
  destruct (serializable W doc); [|discriminate].
  destruct (http W (EPostIndex doc :: history st)) as [response|e];
    [|discriminate].
  cbv zeta in H.
  destruct (status_code response =? 200)%Z eqn:Hc; [|discriminate].
  exists response. split; [reflexivity | apply Z.eqb_eq, Hc].
Qed.

Lemma index_segments_true_posted
      (W : World) doc_id parts metadatas doc_metadata title st st' :
  index_segments W doc_id parts metadatas doc_metadata title st = (Ok true, st') ->
  exists doc response,
    documentId doc = doc_id /\
    http W (EPostIndex doc :: history st) = Ok response /\
    status_code response = 200%Z.
Proof.
  unfold index_segments, bind, lift. intros H.
  destruct (build_sections W parts metadatas) as [sections|e]; [|discriminate].
  destruct (truthy doc_metadata).
  - destruct (dumps W doc_metadata) as [m|e]; [|discriminate].
    cbv beta iota delta [ret] in H.
    destruct (index_document_true_posted _ _ _ _ H) as (response & H1 & H2).
    eexists _, response. split; [|split; eassumption]. reflexivity.
  - cbv beta iota delta [ret] in H.
    destruct (index_document_true_posted _ _ _ _ H) as (response & H1 & H2).
    eexists _, response. split; [|split; eassumption]. reflexivity.
Qed.

(** X4: [index_url] answers [True] only when the probe was answered, the
    extraction went on with some URL, parts and title, and the corpus
    answered HTTP 200 to the submission of a document whose id is the slug
    of that URL; the URL is the one given except on the rendered branch,
    where it is the address the browser ended on. *)
Theorem index_url_true_only_if
        (W : World) (url : str) (metadata : json) (st st' : State) :
  index_url W url metadata st = (Ok true, st') ->
  exists content_type st0 url' parts title st1 doc response,
    probe_content_type W url st = (Ok (Continue content_type), st0) /\
    extract W url st = (Ok (Continue (url', parts, title)), st1) /\
    documentId doc = slugify W url' /\
    http W (EPostIndex doc :: history st1) = Ok response /\
    status_code response = 200%Z /\
    (is_pdf content_type url || is_markup url = true -> url' = url).
Proof.
  intros H. unfold index_url, bind in H.
  destruct (extract W url st) as [[[b|[[url' parts] title]]|e] st1] eqn:E;
    [| |discriminate].
  - exfalso. injection H as -> _.
    revert E. unfold extract, bind.
    pose proof (probe_gives_up_or_goes_on W url st) as Hp.
    destruct (probe_content_type W url st) as [[[b|ct]|e] st0];
      try discriminate.
    + intros E. injection E as -> _. specialize (Hp _ _ eq_refl).
      discriminate Hp.
    + destruct (str_eqb ct ("application/pdf" : str) || ends_with (".pdf" : str) url).
      * intros E. apply extract_pdf_goes_on in E. discriminate E.
      * destruct (ends_with (".md" : str) url || ends_with (".rst" : str) url
                  || ends_with (".ipynb" : str) (lower url)).
        -- intros E. apply extract_markup_goes_on in E. discriminate E.
        -- intros E. apply extract_rendered_gives_up_or_goes_on in E.
           discriminate E.
  - match type of H with
    | context [index_segments W ?i ?p ?ms ?dm ?t st1] =>
        destruct (index_segments W i p ms dm t st1) as [[succeeded|e] st2] eqn:Es
    end; [|discriminate].
    destruct succeeded; [|discriminate].
    destruct (index_segments_true_posted _ _ _ _ _ _ _ _ Es)
      as (doc & response & Hid & Hpost & Hcode).
    pose proof E as E'. unfold extract, bind in E'.
    destruct (probe_content_type W url st) as [[[b|ct]|e] st0] eqn:Ep;
      try discriminate.
    exists ct, st0, url', parts, title, st1, doc, response.
    repeat split; try assumption.
    unfold is_pdf, is_markup.
    destruct (str_eqb ct ("application/pdf" : str) || ends_with (".pdf" : str) url).
    + intros _. apply extract_pdf_goes_on in E'. exact E'.
    + destruct (ends_with (".md" : str) url || ends_with (".rst" : str) url
                || ends_with (".ipynb" : str) (lower url)).
      * intros _. apply extract_markup_goes_on in E'. exact E'.
      * intros Hf. discriminate Hf.
Qed.

Lemma index_url_true_only_if_witness :
  exists content_type st0 url' parts title st1 doc response,
    probe_content_type (pdf_world two_paragraphs) ("http://h/a.pdf" : str)
                       (init true)
    = (Ok (Continue content_type), st0) /\
    extract (pdf_world two_paragraphs) ("http://h/a.pdf" : str) (init true)
    = (Ok (Continue (url', parts, title)), st1) /\
    documentId doc = slugify (pdf_world two_paragraphs) url' /\
    http (pdf_world two_paragraphs) (EPostIndex doc :: history st1)
    = Ok response /\
    status_code response = 200%Z /\
    (is_pdf content_type ("http://h/a.pdf" : str)
     || is_markup ("http://h/a.pdf" : str) = true ->
     url' = ("http://h/a.pdf" : str)).
Proof.
  eapply (index_url_true_only_if
            (pdf_world two_paragraphs) ("http://h/a.pdf" : str) (JObj [])
            (init true)).
  vm_compute. reflexivity.
Defined.

Lemma index_document_no_delete (W : World) doc st :
  reindex st = false ->
  grows not_a_delete (history st) (history (snd (index_document W doc st))).
Proof.
  intros Hre. rewrite index_document_unfold, Hre.
  assert (forall d, not_a_delete (EPostIndex d)) as Hp
      by (intros d d'; discriminate).
  destruct (serializable W doc); [|apply grows_refl].
  destruct (http W (EPostIndex doc :: history st)) as [response|e];
    [|apply grows_cons; [apply Hp | apply grows_refl]].
  cbv zeta.
  destruct (negb (status_code response =? 200)%Z);
    [apply grows_cons; [apply Hp | apply grows_refl]|].
  destruct (response_json response) as [result|e];
    [|apply grows_cons; [apply Hp | apply grows_refl]].
  destruct (already_exists result) as [[|]|e];
    try (apply grows_cons; [apply Hp | apply grows_refl]).
  destruct (status_ok result) as [ok|e];
    apply grows_cons; first [apply Hp | apply grows_refl].
Qed.

(** X5: with reindexing disabled, [index_url], [index_segments],
    [index_document] and [index_file] never make a delete call, whatever
    the remote answers. *)
Theorem no_delete_without_reindex (W : World) (st : State) :
  reindex st = false ->
  (forall url metadata,
      grows not_a_delete (history st)
            (history (snd (index_url W url metadata st)))) /\
  (forall doc_id parts metadatas doc_metadata title,
      grows not_a_delete (history st)
            (history (snd (index_segments W doc_id parts metadatas
                                          doc_metadata title st)))) /\
  (forall doc,
      grows not_a_delete (history st)
            (history (snd (index_document W doc st)))) /\
  (forall filename uri metadata,
      grows not_a_delete (history st)
            (history (snd (index_file W filename uri metadata st)))).
Proof.
  intros Hre.
  assert (forall st1 doc_id parts metadatas doc_metadata title,
             reindex st1 = false ->
             grows not_a_delete (history st1)
                   (history (snd (index_segments W doc_id parts metadatas
                                                 doc_metadata title st1))))
    as Hseg.
  { intros st1 doc_id parts metadatas doc_metadata title Hre1.
    unfold index_segments, bind, lift.
    destruct (build_sections W parts metadatas) as [sections|e];
      [|apply grows_refl].
    destruct (truthy doc_metadata).
    - destruct (dumps W doc_metadata) as [m|e]; [|apply grows_refl].
      apply index_document_no_delete, Hre1.
    - apply index_document_no_delete, Hre1. }
  repeat split.
  - intros url metadata. unfold index_url, bind.
    assert (emits not_a_delete (extract W url)) as Hex.
    { unfold extract, probe_content_type, extract_pdf, extract_markup,
        extract_rendered, html_to_text, fetch_content_with_timeout,
        fetch_attempt, detect_language, get_content_and_title,
        get_content_with_goose3, get_content_with_justext.
      frame; intros d; discriminate. }
    destruct (Hex st) as [Hr Hg].
    destruct (extract W url st) as [[[b|[[url' parts] title]]|e] st1];
      cbn [snd] in Hr, Hg |- *; try exact Hg.
    match goal with
    | |- context [index_segments W ?i ?p ?ms ?dm ?t st1] =>
        pose proof (Hseg st1 i p ms dm t (eq_trans Hr Hre)) as Hs;
          destruct (index_segments W i p ms dm t st1) as [[[|]|e] st2]
    end; cbn [snd] in Hs |- *; eapply grows_trans; eassumption.
  - intros. apply Hseg, Hre.
  - intros doc. apply index_document_no_delete, Hre.
  - intros filename uri metadata. unfold index_file. run.
    rewrite Hre.
    assert (forall a b c d, not_a_delete (EUpload a b c d)) as Hu
        by (intros a b c d d'; discriminate).
    assert (not_a_delete (EFileExists filename)) as Hx
        by (intros d'; discriminate).
    assert (not_a_delete (EFileOpen filename)) as Ho
        by (intros d'; discriminate).
    repeat branch; cbn [snd history];
      repeat first [ apply grows_refl
                   | apply grows_cons; [first [apply Hu | exact Hx | exact Ho]|] ].
Qed.

Lemma no_delete_without_reindex_witness :
  grows not_a_delete []
        (history (snd (index_document conflict_then_refused doc1 (init false)))).
Proof.
  apply (no_delete_without_reindex conflict_then_refused (init false)).
  reflexivity.
Defined.

(** X6: when the probing request of [index_url] raises, or is answered
    with a status other than 200, or with no [Content-Type] header,
    [index_url] answers [False] and the probe is the only call it makes. *)
Theorem index_url_gives_up_after_probe
        (W : World) (url : str) (metadata : json) (st : State) :
  (forall response,
      http W (EGet url true :: history st) = Ok response ->
      status_code response <> 200%Z \/ content_type response = None) ->
  index_url W url metadata st
  = (Ok false,
     mkState (reindex st) (detected_language st)
             (EGet url true :: history st)).
Proof.
  intros H. unfold index_url, extract, probe_content_type. run.
  destruct (http W (EGet url true :: history st)) as [response|e];
    [|reflexivity].
  destruct (H response eq_refl) as [Hc | Hh].
  - apply Z.eqb_neq in Hc. rewrite Hc. reflexivity.
  - destruct (negb (status_code response =? 200)%Z); [reflexivity|].
    rewrite Hh. reflexivity.
Qed.

Lemma index_url_gives_up_after_probe_witness :
  index_url nothing_there ("http://h/page" : str) (JObj []) (init true)
  = (Ok false, mkState true [] [EGet ("http://h/page" : str) true]).
Proof.
  apply (index_url_gives_up_after_probe
           nothing_there ("http://h/page" : str) (JObj []) (init true)).
  intros response H. injection H as <-. left. cbn. discriminate.
Defined.

(** ** The browser in [fetch_content_with_timeout] *)

Ltac each_event :=
  repeat (apply Forall_cons; [assumption|]); apply Forall_nil.

Lemma fetch_attempt_cases (W : World) url timeout st :
  let h := history st in
  exists r context page st1 mid,
    fetch_attempt W url timeout st = (Ok (r, context, page), st1) /\
    reindex st1 = reindex st /\
    detected_language st1 = detected_language st /\
    history st1 = mid ++ h /\
    Forall not_a_close mid /\
    (context = true <-> exists u, browser_do W (EBrowser NewContext :: h) = Ok u) /\
    (page = true <->
     (exists u, browser_do W (EBrowser NewContext :: h) = Ok u) /\
     (exists u, browser_do W (EBrowser NewPage :: EBrowser NewContext :: h) = Ok u)).
Proof.
  intros h. subst h. unfold fetch_attempt. run.
  assert (forall op, op <> CloseContext -> op <> ClosePage ->
                     not_a_close (EBrowser op)) as Hn.
  { intros op H1 H2. split; intros E; injection E as E; contradiction. }
  assert (not_a_close (EBrowser NewContext)) as H1 by (apply Hn; discriminate).
  assert (not_a_close (EBrowser NewPage)) as H2 by (apply Hn; discriminate).
  assert (not_a_close (EBrowser Route)) as H3 by (apply Hn; discriminate).
  assert (not_a_close (EBrowser (Goto url (timeout * 1000)))) as H4
      by (apply Hn; discriminate).
  assert (not_a_close (EBrowser PageContent)) as H5 by (apply Hn; discriminate).
  assert (not_a_close (EBrowser PageUrl)) as H6 by (apply Hn; discriminate).
  destruct (browser_do W (EBrowser NewContext :: history st)) as [u1|e1].
  - destruct (browser_do W (EBrowser NewPage :: EBrowser NewContext
                            :: history st)) as [u2|e2].
    + assert (forall (r : outcome (str * str)) (mid : list Event),
                 Forall not_a_close mid ->
                 exists r' context page st1 mid',
                   (@Ok (outcome (str * str) * bool * bool) (r, true, true),
                    mkState (reindex st) (detected_language st)
                            (mid ++ EBrowser NewPage :: EBrowser NewContext
                                 :: history st))
                   = (Ok (r', context, page), st1) /\
                   reindex st1 = reindex st /\
                   detected_language st1 = detected_language st /\
                   history st1 = mid' ++ history st /\
                   Forall not_a_close mid' /\
                   (context = true <-> exists u : unit, Ok u1 = Ok u) /\
                   (page = true <->
                    (exists u : unit, Ok u1 = Ok u) /\
                    (exists u : unit, Ok u2 = Ok u))) as Hboth.
      { intros r mid Hmid.
        exists r, true, true. eexists.
        exists (mid ++ [EBrowser NewPage; EBrowser NewContext]).
        split; [reflexivity|]. cbn [reindex detected_language history].
        split; [reflexivity|]. split; [reflexivity|].
        split; [rewrite <- app_assoc; reflexivity|].
        split; [apply Forall_app; split;
                [exact Hmid | each_event]|].
        split; split; eauto. }
      destruct (browser_do W (EBrowser Route :: _)) as [u3|e3];
        [|apply (Hboth _ [_]); each_event].
      destruct (browser_do W (EBrowser (Goto _ _) :: _)) as [u4|e4];
        [|apply (Hboth _ [_; _]); each_event].
      destruct (browser_str W (EBrowser PageContent :: _)) as [content|e5];
        [|apply (Hboth _ [_; _; _]); each_event].
      destruct (browser_str W (EBrowser PageUrl :: _)) as [out_url|e6];
        apply (Hboth _ [_; _; _; _]); each_event.
    + exists (Raise e2), true, false. eexists.
      exists [EBrowser NewPage; EBrowser NewContext].
      split; [reflexivity|]. cbn [reindex detected_language history].
      split; [reflexivity|]. split; [reflexivity|]. split; [reflexivity|].
      split; [each_event|].
      split; split; eauto; try discriminate.
      intros (_ & u & Hu). discriminate Hu.
  - exists (Raise e1), false, false. eexists.
    exists [EBrowser NewContext].
    split; [reflexivity|]. cbn [reindex detected_language history].
    split; [reflexivity|]. split; [reflexivity|]. split; [reflexivity|].
    split; [each_event|].
    split; split; try discriminate.
    + intros (u & Hu). discriminate Hu.
    + intros ((u & Hu) & _). discriminate Hu.
Qed.

Lemma fetch_unfold (W : World) url timeout st r context page st1 :
  fetch_attempt W url timeout st = (Ok (r, context, page), st1) ->
  fetch_content_with_timeout W url timeout st
  = try_finally (recover W r) (close_opened W context page) st1.
Proof.
  intros E. unfold fetch_content_with_timeout, bind. rewrite E.
  destruct r as [v|[]]; reflexivity.
Qed.

Lemma recover_quiet (W : World) r : emits not_a_close (recover W r).
Proof.
  assert (forall op, op <> CloseContext -> op <> ClosePage ->
                     not_a_close (EBrowser op)) as Hn.
  { intros op H1 H2. split; intros E; injection E as E; contradiction. }
  destruct r as [v|[]]; cbn [recover]; frame; apply Hn; discriminate.
Qed.

(** the [finally] block asks for the context to be closed when there is
    one, and then, unless that raised, for the page to be closed when there
    is one *)
Lemma close_opened_cases (W : World) context page st :
  let h := history st in
  exists new,
    history (snd (close_opened W context page st)) = new ++ h /\
    (context = true -> In (EBrowser CloseContext) new) /\
    (page = true ->
     (context = true ->
      exists u, browser_do W (EBrowser CloseContext :: h) = Ok u) ->
     In (EBrowser ClosePage) new) /\
    (context = false -> page = false -> new = []).
Proof.
  intros h. subst h. unfold close_opened. run.
  destruct context, page; cbn.
  - destruct (browser_do W (EBrowser CloseContext :: history st)) as [u|e];
      cbn.
    + destruct (browser_do W (EBrowser ClosePage :: EBrowser CloseContext
                              :: history st)) as [u'|e'];
        exists [EBrowser ClosePage; EBrowser CloseContext];
        (split; [reflexivity|]);
        (split; [intros _; right; left; reflexivity|]);
        (split; [intros _ _; left; reflexivity | discriminate]).
    + exists [EBrowser CloseContext].
      split; [reflexivity|].
      split; [intros _; left; reflexivity|].
      split; [|discriminate].
      intros _ H. destruct (H eq_refl) as (u & Hu). discriminate Hu.
  - destruct (browser_do W (EBrowser CloseContext :: history st)) as [u|e];
      exists [EBrowser CloseContext];
      (split; [reflexivity|]);
      (split; [intros _; left; reflexivity|]);
      (split; discriminate).
  - destruct (browser_do W (EBrowser ClosePage :: history st)) as [u|e];
      exists [EBrowser ClosePage];
      (split; [reflexivity|]);
      (split; [discriminate|]);
      (split; [intros _ _; left; reflexivity | discriminate]).
  - exists []. split; [reflexivity|].
    split; [discriminate|]. split; [discriminate | reflexivity].
Qed.

Lemma not_a_close_absent mid :
  Forall not_a_close mid ->
  ~ In (EBrowser CloseContext) mid /\ ~ In (EBrowser ClosePage) mid.
Proof.
  intros H. rewrite Forall_forall in H.
  split; intros Hin; destruct (H _ Hin) as [H1 H2]; congruence.
Qed.

(** X7: [fetch_content_with_timeout] closes what it opened, whatever
    happens in between: when the browser gave it a context, it asks for the
    context to be closed; when it also gave it a page and closing contexts
    does not raise, it asks for the page to be closed; and when no context
    could be opened, it closes nothing. *)
Theorem fetch_closes_what_it_opened
        (W : World) (url : str) (timeout : nat) (st : State) :
  let h := history st in
  exists new,
    history (snd (fetch_content_with_timeout W url timeout st)) = new ++ h /\
    (browser_do W (EBrowser NewContext :: h) = Ok tt ->
     In (EBrowser CloseContext) new) /\
    (browser_do W (EBrowser NewContext :: h) = Ok tt ->
     browser_do W (EBrowser NewPage :: EBrowser NewContext :: h) = Ok tt ->
     (forall h', browser_do W (EBrowser CloseContext :: h') = Ok tt) ->
     In (EBrowser ClosePage) new) /\
    (forall e, browser_do W (EBrowser NewContext :: h) = Raise e ->
               ~ In (EBrowser CloseContext) new /\
               ~ In (EBrowser ClosePage) new).
Proof.
  intros h.
  destruct (fetch_attempt_cases W url timeout st)
    as (r & context & page & st1 & mid & E & _ & _ & Hh & Hmid & Hc & Hp).
  fold h in Hh, Hc, Hp.
  rewrite (fetch_unfold _ _ _ _ _ _ _ _ E). unfold try_finally.
  destruct (recover_quiet W r st1) as [_ (mid2 & Hh2 & Hmid2)].
  destruct (recover W r st1) as [r' st2]. cbn [snd] in Hh2.
  destruct (close_opened_cases W context page st2)
    as (new3 & Hh3 & Hcc & Hcp & Hnone).
  assert (history (snd (let (o, st3) := close_opened W context page st2 in
                        match o with
                        | Ok _ => (r', st3)
                        | Raise e => (Raise e, st3)
                        end))
          = history (snd (close_opened W context page st2))) as ->.
  { destruct (close_opened W context page st2) as [[u|e] st3]; reflexivity. }
  exists (new3 ++ mid2 ++ mid).
  split; [rewrite Hh3, Hh2, Hh, !app_assoc; reflexivity|].
  split; [|split].
  - intros H. apply in_or_app. left. apply Hcc, Hc. eauto.
  - intros H1 H2 H3. apply in_or_app. left. apply Hcp.
    + apply Hp. split; eauto.
    + intros _. eauto.
  - intros e He.
    assert (context = false) as Hcf.
    { destruct context; [|reflexivity].
      destruct (proj1 Hc eq_refl) as (u & Hu). congruence. }
    assert (page = false) as Hpf.
    { destruct page; [|reflexivity].
      destruct (proj1 Hp eq_refl) as ((u & Hu) & _). congruence. }
    rewrite (Hnone Hcf Hpf). cbn [app].
    apply not_a_close_absent, Forall_app. split; assumption.
Qed.

(** X8: when the calls that tidy up never raise, neither does
    [fetch_content_with_timeout]: it answers with the address and the
    content of the page when every step of loading it succeeded, and with
    two empty strings otherwise. *)
Theorem fetch_failures_are_empty_pages
        (W : World) (url : str) (timeout : nat) (st : State) :
  housekeeping_works W ->
  exists v st',
    fetch_content_with_timeout W url timeout st = (Ok v, st') /\
    ((exists st1,
         fetch_attempt W url timeout st = (Ok (Ok v, true, true), st1))
     \/ (v = ([], []) /\
         exists e context page st1,
           fetch_attempt W url timeout st
           = (Ok (Raise e, context, page), st1))).
Proof.
  intros (Hconn & Hlaunch & Hcc & Hcp).
  destruct (fetch_attempt_cases W url timeout st)
    as (r & context & page & st1 & mid & E & _ & _ & _ & _ & Hc & Hp).
  rewrite (fetch_unfold _ _ _ _ _ _ _ _ E). unfold try_finally.
  assert (forall st2, exists st3,
             close_opened W context page st2 = (Ok tt, st3)) as Hfin.
  { intros st2. unfold close_opened. run.
    destruct context, page; cbn; rewrite ?Hcc; cbn; rewrite ?Hcp;
      eexists; reflexivity. }
  assert (forall e0, r = Raise e0 ->
             exists st2, recover W r st1 = (Ok ([], []), st2)) as Hrec.
  { intros e0 ->. cbn [recover].
    assert (exists st2,
               (connected <- call_r (EBrowser IsConnected) (browser_bool W) ;;
                (if negb connected
                 then call_r (EBrowser Launch) (browser_do W)
                 else ret tt) ;;;
                ret (([], []) : str * str)) st1 = (Ok ([], []), st2)) as H.
    { run. destruct (Hconn (history st1)) as (b & ->).
      destruct b; cbn; rewrite ?Hlaunch; eexists; reflexivity. }
    destruct e0; try exact H. eexists; reflexivity. }
  destruct r as [v|e0].
  - cbn [recover]. unfold ret.
    destruct (Hfin st1) as (st3 & ->).
    exists v, st3. split; [reflexivity|]. left.
    assert (context = true /\ page = true) as [-> ->].
    { revert E. unfold fetch_attempt. run.
      repeat branch; intros E; inversion E; subst; split; reflexivity. }
    exists st1. exact E.
  - destruct (Hrec e0 eq_refl) as (st2 & ->).
    destruct (Hfin st2) as (st3 & ->).
    exists ([], []), st3. split; [reflexivity|]. right.
    split; [reflexivity|]. exists e0, context, page, st1. exact E.
Qed.

Lemma fetch_failures_are_empty_pages_witness :
  exists v st',
    fetch_content_with_timeout rendering_world ("http://h/" : str) 30
                               (init true) = (Ok v, st') /\
    ((exists st1,
         fetch_attempt rendering_world ("http://h/" : str) 30 (init true)
         = (Ok (Ok v, true, true), st1))
     \/ (v = ([], []) /\
         exists e context page st1,
           fetch_attempt rendering_world ("http://h/" : str) 30 (init true)
           = (Ok (Raise e, context, page), st1))).
Proof.
  apply (fetch_failures_are_empty_pages
           rendering_world ("http://h/" : str) 30 (init true)).
  repeat split; intros h; try reflexivity.
  exists true. reflexivity.
Defined.

(** ** The two extraction strategies *)

(** X9: [get_content_and_title] answers with what one of the two
    strategies extracted, the one whose text is longer, and that of justext
    when the texts are equally long; the text it answers with is as long
    as the longer of the two. *)
Theorem get_content_and_title_longest
        (W : World) (html_content url detected_language : str)
        (st st' : State) (v : str * option str) :
  get_content_and_title W html_content url detected_language st = (Ok v, st') ->
  exists r1 r2 st1,
    get_content_with_goose3 W html_content url detected_language st
    = (Ok r1, st1) /\
    get_content_with_justext W html_content url detected_language st1
    = (Ok r2, st') /\
    List.length (fst v)
    = Nat.max (List.length (fst r1)) (List.length (fst r2)) /\
    (List.length (fst r2) < List.length (fst r1) -> v = r1) /\
    (List.length (fst r1) <= List.length (fst r2) -> v = r2).
Proof.
  unfold get_content_and_title, bind. intros H.
  destruct (get_content_with_goose3 W html_content url detected_language st)
    as [[r1|e] st1]; [|discriminate].
  destruct (get_content_with_justext W html_content url detected_language st1)
    as [[r2|e] st2] eqn:E2; [|discriminate].
  exists r1, r2, st1.
  destruct (List.length (fst r2) <? List.length (fst r1)) eqn:Hlt;
    injection H as <- <-.
  - apply Nat.ltb_lt in Hlt.
    split; [reflexivity|]. split; [exact E2|].
    split; [rewrite Nat.max_l; [reflexivity | lia]|].
    split; [reflexivity | lia].
  - apply Nat.ltb_ge in Hlt.
    split; [reflexivity|]. split; [exact E2|].
    split; [rewrite Nat.max_r; [reflexivity | lia]|].
    split; [lia | reflexivity].
Qed.

Lemma get_content_and_title_longest_witness :
  exists r1 r2 st1,
    get_content_with_goose3 two_extractors ("<html/>" : str)
                            ("http://h/" : str) ("en" : str) (init true)
    = (Ok r1, st1) /\
    get_content_with_justext two_extractors ("<html/>" : str)
                             ("http://h/" : str) ("en" : str) st1
    = (Ok r2, init true) /\
    List.length ("The text of the page." : str)
    = Nat.max (List.length (fst r1)) (List.length (fst r2)) /\
    (List.length (fst r2) < List.length (fst r1) ->
     ("The text of the page." : str, Some ("A page" : str)) = r1) /\
    (List.length (fst r1) <= List.length (fst r2) ->
     ("The text of the page." : str, Some ("A page" : str)) = r2).
Proof.
  apply (get_content_and_title_longest
           two_extractors ("<html/>" : str) ("http://h/" : str) ("en" : str)
           (init true) (init true)
           ("The text of the page." : str, Some ("A page" : str))).
  reflexivity.
Defined.

(** X10: for a language that is not in [language_stopwords_Goose],
    Goose is not run and [get_content_and_title] answers with what
    [get_content_with_justext] answers, exceptions included. *)
Theorem unsupported_by_goose_is_left_to_justext
        (W : World) (html_content url detected_language : str) (st : State) :
  table_get language_stopwords_Goose detected_language = None ->
  get_content_and_title W html_content url detected_language st
  = get_content_with_justext W html_content url detected_language st.
Proof.
  intros H. unfold get_content_and_title, get_content_with_goose3.
  rewrite H. unfold bind at 1. cbv beta iota delta [ret].
  unfold bind.
  destruct (get_content_with_justext W html_content url detected_language st)
    as [[r2|e] st2]; reflexivity.
Qed.

Lemma unsupported_by_goose_is_left_to_justext_witness :
  get_content_and_title two_extractors ("<html/>" : str) ("http://h/" : str)
                        ("eo" : str) (init true)
  = get_content_with_justext two_extractors ("<html/>" : str)
                             ("http://h/" : str) ("eo" : str) (init true).
Proof.
  apply (unsupported_by_goose_is_left_to_justext
           two_extractors ("<html/>" : str) ("http://h/" : str) ("eo" : str)
           (init true)).
  reflexivity.
Defined.

Lemma str_eqb_sym a b : str_eqb a b = str_eqb b a.
Proof.
  destruct (str_eqb a b) eqn:E.
  - apply str_eqb_eq in E. subst. symmetry. apply str_eqb_refl.
  - apply str_eqb_neq in E. symmetry. apply str_eqb_neq. congruence.
Qed.

Lemma str_in_In s l : str_in s l = true -> In s l.
Proof.
  unfold str_in. intros H. apply existsb_exists in H.
  destruct H as (x & Hx & E). apply str_eqb_eq in E. subst. exact Hx.
Qed.

Lemma justext_with_keyword (W : World) keyword html_content st :
  (paragraphs <-
     (stopwords_keyword <- ret keyword ;;
      stoplist <- lift (get_stoplist W stopwords_keyword) ;;
      lift (justext W html_content stoplist)) ;;
   let text :=
     join NEWLINE
          (map p_text (filter (fun p => negb (is_boilerplate p)) paragraphs)) in
   stitle <- lift (soup_title W html_content) ;;
   match stitle with
   | Some t => ret (text, Some t)
   | None => ret (text, Some ("No title" : str))
   end) st
  = justext_with W keyword html_content st.
Proof.
  unfold justext_with, bind, lift, ret.
  destruct (get_stoplist W keyword) as [stoplist|e]; [|reflexivity].
  destruct (justext W html_content stoplist) as [paragraphs|e]; reflexivity.
Qed.

(** X11: whatever the language, [get_content_with_justext] asks justext
    for a stoplist by name.  For a language that [language_stopwords_JusText]
    lists with a name, it is that name; for English, and for every language
    the table does not list, it is [English].  The entry [None] of English
    never reaches [get_stoplist]. *)
Theorem justext_stoplist_is_named
        (W : World) (html_content url detected_language : str) :
  exists keyword,
    (forall st,
        get_content_with_justext W html_content url detected_language st
        = justext_with W keyword html_content st) /\
    (forall k,
        table_get language_stopwords_JusText detected_language = Some (Some k) ->
        keyword = k) /\
    (keyword = ("English" : str) \/ In keyword stoplist_names) /\
    (table_get language_stopwords_JusText detected_language = None ->
     keyword = ("English" : str)) /\
    (detected_language = ("en" : str) -> keyword = ("English" : str)).
Proof.
  unfold get_content_with_justext.
  destruct (str_eqb detected_language ("en" : str)) eqn:Een.
  - exists ("English" : str). split; [|split; [|auto]].
    + intros st. unfold justext_with, bind, lift, ret.
      destruct (get_stoplist W ("English" : str)) as [stoplist|e];
        [|reflexivity].
      destruct (justext W html_content stoplist) as [paragraphs|e];
        reflexivity.
    + intros k E. apply str_eqb_eq in Een. subst detected_language.
      vm_compute in E. discriminate E.
  - assert (detected_language <> ("en" : str)) as Hen
        by (apply str_eqb_neq, Een).
    rewrite str_eqb_sym in Een.
    unfold table_get, language_stopwords_JusText.
    cbn [find fst snd]. rewrite Een.
    repeat
      match goal with
      | |- context [str_eqb ?k detected_language] =>
          destruct (str_eqb k detected_language);
            [ cbn [option_map snd];
              eexists; split; [intros st; apply justext_with_keyword|];
              split; [intros k0 E; injection E as <-; reflexivity|];
              split; [right; apply str_in_In; vm_compute; reflexivity|];
              split; [discriminate | intros E; contradiction]
            | ]
      end.
    cbn [option_map].
    exists ("English" : str).
    split; [intros st; apply justext_with_keyword|].
    split; [discriminate|].
    split; [left; reflexivity|]. split; [reflexivity | contradiction].
Qed.

(** X12: [detect_language] never raises and asks the detector once; it
    answers with the language the detector names, and with [en] when the
    detector names none or raises. *)
Theorem detect_language_defaults_to_english
        (W : World) (text : str) (st : State) :
  exists l,
    detect_language W text st
    = (Ok l, mkState (reindex st) (detected_language st)
                     (EDetect text :: history st)) /\
    match detect W (EDetect text :: history st) with
    | Ok (Some named) => l = named
    | Ok None | Raise _ => l = ("en" : str)
    end.
Proof.
  unfold detect_language. run.
  destruct (detect W (EDetect text :: history st)) as [[named|]|e];
    eexists; split; reflexivity.
Qed.

(** ** The Markdown, reStructuredText and notebook branch *)

Lemma starts_with_app_l a b s :
  starts_with (a ++ b) s = true -> starts_with a s = true.
Proof.
  revert s. induction a as [|x a IH]; intros s H; [reflexivity|].
  destruct s as [|y s]; [discriminate|].
  cbn in H |- *. apply andb_true_iff in H. destruct H as [-> H].
  cbn. apply IH, H.
Qed.

Lemma ends_with_tail c p s : ends_with (c :: p) s = true -> ends_with p s = true.
Proof. unfold ends_with. cbn [rev]. apply starts_with_app_l. Qed.

Lemma ends_with_inv p s : ends_with p s = true -> exists a, s = a ++ p.
Proof.
  unfold ends_with. intros H. apply starts_with_inv in H.
  destruct H as (t & Ht). exists (rev t).
  rewrite <- (rev_involutive s), Ht, rev_app_distr, rev_involutive.
  reflexivity.
Qed.

Lemma ends_with_app a p : ends_with p (a ++ p) = true.
Proof. unfold ends_with. rewrite rev_app_distr. apply starts_with_app. Qed.

Lemma extract_markup_with (W : World) url st :
  extract_markup W url st
  = (if ends_with ("rst" : str) url then markup_with W (publish_string W) url
     else if ends_with ("md" : str) url then markup_with W (markdown W) url
     else if ends_with ("ipynb" : str) (lower url)
          then markup_with W (notebook_to_html W) url
          else (response <- call_r (EGet url false) (http W) ;;
                lift (raise_for_status response) ;;;
                _ <- lift (decode_utf8 W (content response)) ;;
                raise OtherError)) st.
Proof.
  unfold extract_markup, markup_with.
  destruct (ends_with ("rst" : str) url); [reflexivity|].
  destruct (ends_with ("md" : str) url); [reflexivity|].
  destruct (ends_with ("ipynb" : str) (lower url)); [reflexivity|].
  run.
  destruct (http W (EGet url false :: history st)) as [response|e];
    [|reflexivity].
  destruct (raise_for_status response); [|reflexivity].
  destruct (decode_utf8 W (content response)); reflexivity.
Qed.

(** X13: on the Markdown, reStructuredText and notebook branch the
    content is always converted, and by the converter of its extension:
    a URL ending in [.rst] by docutils, one ending in [.md] by markdown and
    one ending in [.ipynb], in any case of letters, by nbconvert.  The inner
    tests, which look for [rst], [md] and [ipynb] without the dot, cannot
    all fail nor pick another converter. *)
Theorem markup_branch_converts_by_extension (W : World) (url : str) :
  (ends_with (".rst" : str) url = true ->
   forall st, extract_markup W url st = markup_with W (publish_string W) url st)
  /\
  (ends_with (".md" : str) url = true ->
   forall st, extract_markup W url st = markup_with W (markdown W) url st)
  /\
  (ends_with (".ipynb" : str) (lower url) = true ->
   forall st, extract_markup W url st
              = markup_with W (notebook_to_html W) url st).
Proof.
  split; [|split]; intros H st; rewrite extract_markup_with.
  - apply ends_with_tail in H.
    change (ends_with ("rst" : str) url = true) in H.
    rewrite H. reflexivity.
  - pose proof (ends_with_tail _ _ _ H) as Hmd.
    change (ends_with ("md" : str) url = true) in Hmd.
    apply ends_with_inv in H. destruct H as (a & ->).
    assert (ends_with ("rst" : str) (a ++ (".md" : str)) = false) as ->.
    { unfold ends_with. rewrite rev_app_distr. reflexivity. }
    rewrite Hmd. reflexivity.
  - pose proof (ends_with_tail _ _ _ H) as Hnb.
    change (ends_with ("ipynb" : str) (lower url) = true) in Hnb.
    apply ends_with_inv in H. destruct H as (a & Ha).
    assert (exists x t, rev url = x :: t /\ lower_char x = "b"%char)
      as (x & t & Hrev & Hx).
    { assert (rev (lower url) = rev (a ++ (".ipynb" : str))) as Hr
          by (rewrite Ha; reflexivity).
      unfold lower in Hr. rewrite <- map_rev, rev_app_distr in Hr.
      destruct (rev url) as [|x t]; [discriminate|].
      exists x, t. split; [reflexivity|].
      cbn in Hr. injection Hr as Hr _. exact Hr. }
    assert (ends_with ("rst" : str) url = false) as ->.
    { unfold ends_with. rewrite Hrev.
      change (rev ("rst" : str)) with ["t"; "s"; "r"]%char.
      cbn [starts_with].
      destruct (Ascii.eqb_spec "t"%char x) as [<-|]; [discriminate Hx|].
      reflexivity. }
    assert (ends_with ("md" : str) url = false) as ->.
    { unfold ends_with. rewrite Hrev.
      change (rev ("md" : str)) with ["d"; "m"]%char.
      cbn [starts_with].
      destruct (Ascii.eqb_spec "d"%char x) as [<-|]; [discriminate Hx|].
      reflexivity. }
    rewrite Hnb. reflexivity.
Qed.

Lemma split_go_nonempty sep skip cur s : split_go sep skip cur s <> [].
Proof.
  revert skip cur. induction s as [|c s IH]; intros skip cur; cbn.
  - discriminate.
  - destruct skip; [|apply IH].
    destruct (starts_with sep (c :: s)); [discriminate | apply IH].
Qed.

Lemma last_cons_nonempty {A} (a d : A) l : l <> [] -> last (a :: l) d = last l d.
Proof. destruct l; [contradiction | reflexivity]. Qed.

Lemma split_go_last c cur s :
  last (split_go [c] 0 cur s) []
  = match rfind_char c s with
    | Some i => skipn (S i) s
    | None => rev cur ++ s
    end.
Proof.
  revert cur. induction s as [|x s IH]; intros cur.
  - cbn. rewrite app_nil_r. reflexivity.
  - cbn [split_go starts_with rfind_char List.length Nat.sub].
    rewrite andb_true_r, Ascii.eqb_sym.
    destruct (Ascii.eqb x c) eqn:E.
    + rewrite last_cons_nonempty by apply split_go_nonempty.
      rewrite IH. destruct (rfind_char c s); reflexivity.
    + rewrite IH. destruct (rfind_char c s); [reflexivity|].
      cbn [rev]. rewrite <- app_assoc. reflexivity.
Qed.

(** X14: the title given to a Markdown, reStructuredText or notebook
    document, [url.split('/')[-1]], is what follows the last slash of the
    URL: it has no slash, the URL ends with it, and what comes before it is
    empty or ends with a slash.  It is the whole URL when the URL has no
    slash, and empty when the URL ends with one. *)
Theorem last_segment_follows_last_slash (url : str) :
  has_char "/" (last_segment url) = false /\
  (exists before,
      url = before ++ last_segment url /\
      (before = [] \/ exists b, before = b ++ ("/" : str))) /\
  (has_char "/" url = false -> last_segment url = url) /\
  (ends_with ("/" : str) url = true -> last_segment url = []).
Proof.
  unfold last_segment, split.
  change ("/" : str) with ["/"%char]. rewrite split_go_last. cbn [rev app].
  destruct (rfind_char "/" url) as [i|] eqn:E.
  - destruct (rfind_char_Some _ _ _ E) as [Hu Hn].
    split; [exact Hn|]. split; [|split].
    + exists (firstn i url ++ ["/"%char]). split.
      * rewrite <- app_assoc. exact Hu.
      * right. exists (firstn i url). reflexivity.
    + intros H. apply rfind_char_None in H. congruence.
    + intros H. apply ends_with_inv in H. destruct H as (a & Ha).
      change ("/" : str) with ["/"%char] in Ha.
      rewrite Ha at 1.
      rewrite Ha in E. rewrite (rfind_char_last "/" a []) in E by reflexivity.
      injection E as <-.
      change (S (List.length a)) with (1 + List.length a).
      rewrite <- skipn_skipn, skipn_app_exact. reflexivity.
  - split; [apply rfind_char_None, E|]. split; [|split].
    + exists []. split; [reflexivity | left; reflexivity].
    + reflexivity.
    + intros H. apply ends_with_inv in H. destruct H as (a & Ha).
      apply rfind_char_None in E. rewrite Ha, has_char_app in E.
      rewrite orb_true_r in E. discriminate.
Qed.

(** ** The conflicting document of [index_file] *)

Lemma split_go_skip sep cur a b :
  split_go sep (List.length a) cur (a ++ b) = split_go sep 0 cur b.
Proof. induction a as [|c a IH]; [reflexivity|]. cbn. exact IH. Qed.

Lemma split_go_at_occurrence sep cur t :
  sep <> [] ->
  split_go sep 0 cur (sep ++ t) = rev cur :: split_go sep 0 [] t.
Proof.
  intros Hne. destruct sep as [|c sep]; [contradiction|].
  cbn [app split_go].
  change (starts_with (c :: sep) (c :: sep ++ t))
    with (starts_with (c :: sep) ((c :: sep) ++ t)).
  rewrite starts_with_app.
  replace (List.length (c :: sep) - 1) with (List.length sep) by (cbn; lia).
  rewrite split_go_skip. reflexivity.
Qed.

Lemma first_after_step sep x a b :
  sep <> [] -> first_after sep (x :: a) ->
  starts_with sep (x :: a ++ sep ++ b) = false /\ first_after sep a.
Proof.
  unfold first_after. intros Hne H. cbn [app contains] in H.
  apply orb_false_iff in H. destruct H as [Hst Hc].
  split; [|exact Hc].
  destruct sep as [|o sep]; [contradiction|].
  set (sep' := o :: sep) in *.
  assert (sep' = removelast sep' ++ [last sep' o]) as E
      by (apply app_removelast_last; discriminate).
  assert (x :: a ++ sep' ++ b
          = (x :: a ++ removelast sep') ++ (last sep' o :: b)) as E'.
  { rewrite E at 1. cbn [app]. rewrite <- !app_assoc. reflexivity. }
  rewrite E', starts_with_long; [exact Hst|].
  apply (f_equal (@List.length ascii)) in E.
  rewrite length_app in E. cbn [List.length] in E |- *.
  rewrite length_app. lia.
Qed.

(** [s.split(sep)] cuts at the first occurrence of [sep] and goes on
    with what follows it *)
Lemma split_go_first sep cur a b :
  sep <> [] -> first_after sep a ->
  split_go sep 0 cur (a ++ sep ++ b) = (rev cur ++ a) :: split_go sep 0 [] b.
Proof.
  intros Hne. revert cur. induction a as [|x a IH]; intros cur H.
  - cbn [app]. rewrite app_nil_r. apply split_go_at_occurrence, Hne.
  - destruct (first_after_step sep x a b Hne H) as [Hst Hrest].
    cbn [app split_go]. rewrite Hst, (IH _ Hrest).
    cbn [rev]. rewrite <- app_assoc. reflexivity.
Qed.

Lemma split_go_absent sep cur s :
  contains sep s = false -> split_go sep 0 cur s = [rev cur ++ s].
Proof.
  revert cur. induction s as [|c s IH]; intros cur H.
  - cbn. rewrite app_nil_r. reflexivity.
  - cbn [contains] in H. apply orb_false_iff in H. destruct H as [Hst Hc].
    cbn [split_go]. rewrite Hst, (IH _ Hc).
    cbn [rev]. rewrite <- app_assoc. reflexivity.
Qed.

Lemma contains_single c s : contains [c] s = has_char c s.
Proof.
  induction s as [|x s IH]; [reflexivity|].
  cbn [contains starts_with]. rewrite has_char_cons, IH.
  rewrite Ascii.eqb_sym. destruct (Ascii.eqb x c), s; reflexivity.
Qed.

(** X15: [index_file] reads the id of the conflicting document out of
    the [details] of the reply: when the details name one document, as in
    [... document id 'doc-7' ...], with the id between the first two quotes
    that follow the words [document id], the id read is that one. *)
Theorem conflicting_doc_id_reads_the_quoted_id
        (response : Response) (m : list (str * json))
        (before between id after : str) :
  body response = Some (JObj m) ->
  dict_get m ("details" : str)
  = Some (JStr (before ++ ("document id" : str) ++ between
                ++ ("'" : str) ++ id ++ ("'" : str) ++ after)) ->
  first_after ("document id" : str) before ->
  contains ("document id" : str)
           (between ++ ("'" : str) ++ id ++ ("'" : str) ++ after) = false ->
  has_char "'" between = false ->
  has_char "'" id = false ->
  conflicting_doc_id response = Ok id.
Proof.
  intros Hb Hd Hfirst Honce Hq1 Hq2.
  unfold conflicting_doc_id, response_json. rewrite Hb.
  cbn [py_getitem]. rewrite Hd.
  assert (("document id" : str) <> []) as Hne by (cbv; discriminate).
  unfold split at 1. rewrite (split_go_first _ _ _ _ Hne Hfirst).
  rewrite (split_go_absent _ _ _ Honce).
  cbn [nth_error rev app].
  assert ((["'"%char] : str) <> []) as Hne' by discriminate.
  change ("'" : str) with ["'"%char].
  unfold split.
  rewrite (split_go_first ["'"%char] [] between _ Hne').
  2:{ unfold first_after. cbn [removelast]. rewrite app_nil_r, contains_single.
      exact Hq1. }
  rewrite (split_go_first ["'"%char] [] id _ Hne').
  2:{ unfold first_after. cbn [removelast]. rewrite app_nil_r, contains_single.
      exact Hq2. }
  reflexivity.
Qed.

Lemma conflicting_doc_id_reads_the_quoted_id_witness :
  conflicting_doc_id
    (conflict_reply ("ALREADY_EXISTS: document id 'doc-7' is there" : str))
  = Ok ("doc-7" : str).
Proof.
  apply (conflicting_doc_id_reads_the_quoted_id
           (conflict_reply ("ALREADY_EXISTS: document id 'doc-7' is there" : str))
           [("details" : str,
             JStr ("ALREADY_EXISTS: document id 'doc-7' is there" : str))]
           ("ALREADY_EXISTS: " : str) (" " : str) ("doc-7" : str)
           (" is there" : str));
    reflexivity.
Defined.

(** X16: reading the id of the conflicting document raises when the
    reply does not have the expected shape: [JSONDecodeError] when the body
    is not JSON, [KeyError] when it has no [details], [IndexError] when the
    details do not hold the words [document id], and also when no quote
    follows them. *)
Theorem conflicting_doc_id_errors (response : Response) :
  (body response = None ->
   conflicting_doc_id response = Raise JSONDecodeError) /\
  (forall m,
      body response = Some (JObj m) ->
      dict_get m ("details" : str) = None ->
      conflicting_doc_id response = Raise KeyError) /\
  (forall m details,
      body response = Some (JObj m) ->
      dict_get m ("details" : str) = Some (JStr details) ->
      contains ("document id" : str) details = false ->
      conflicting_doc_id response = Raise IndexError) /\
  (forall m before rest,
      body response = Some (JObj m) ->
      dict_get m ("details" : str)
      = Some (JStr (before ++ ("document id" : str) ++ rest)) ->
      first_after ("document id" : str) before ->
      contains ("document id" : str) rest = false ->
      has_char "'" rest = false ->
      conflicting_doc_id response = Raise IndexError).
Proof.
  unfold conflicting_doc_id, response_json.
  split; [|split; [|split]].
  - intros ->. reflexivity.
  - intros m -> Hd. cbn [py_getitem]. rewrite Hd. reflexivity.
  - intros m details -> Hd Hc. cbn [py_getitem]. rewrite Hd.
    unfold split. rewrite (split_go_absent _ _ _ Hc). reflexivity.
  - intros m before rest -> Hd Hfirst Honce Hq. cbn [py_getitem]. rewrite Hd.
    assert (("document id" : str) <> []) as Hne by (cbv; discriminate).
    unfold split at 1. rewrite (split_go_first _ _ _ _ Hne Hfirst).
    rewrite (split_go_absent _ _ _ Honce).
    cbn [nth_error rev app].
    unfold split. change ("'" : str) with ["'"%char].
    rewrite split_go_absent by (rewrite contains_single; exact Hq).
    reflexivity.
Qed.

(** X17: [index_file] does not catch what reading the id of the
    conflicting document raises: when the first upload comes back with
    HTTP 409, reindexing is enabled and the id cannot be read, the exception
    leaves [index_file], and neither a delete call nor a second upload is
    made. *)
Theorem index_file_raises_on_unreadable_conflict
        (W : World) (filename uri : str) (metadata : json) (st : State)
        (m : str) (r1 : Response) (e : exn) :
  let h1 := EUpload uri filename m true :: EFileOpen filename
            :: EFileExists filename :: history st in
  reindex st = true ->
  fs_exists W (EFileExists filename :: history st) = true ->
  fs_io W (EFileOpen filename :: EFileExists filename :: history st) = Ok tt ->
  dumps W metadata = Ok m ->
  http W h1 = Ok r1 ->
  status_code r1 = 409%Z ->
  conflicting_doc_id r1 = Raise e ->
  index_file W filename uri metadata st
  = (Raise e, mkState true (detected_language st) h1).
Proof.
  intros h1 Hre Hex Hopen Hm H1 Hc1 Hid. subst h1.
  unfold index_file. run.
  rewrite Hex. cbn. rewrite Hopen, Hm, H1, Hc1. cbn.
  rewrite Hre, Hid. reflexivity.
Qed.

Lemma index_file_raises_on_unreadable_conflict_witness :
  index_file unnamed_conflict ("a.pdf" : str) ("http://h/a.pdf" : str)
             (JObj []) (init true)
  = (Raise IndexError,
     mkState true []
       [EUpload ("http://h/a.pdf" : str) ("a.pdf" : str) ("{}" : str) true;
        EFileOpen ("a.pdf" : str); EFileExists ("a.pdf" : str)]).
Proof.
  apply (index_file_raises_on_unreadable_conflict
           unnamed_conflict ("a.pdf" : str) ("http://h/a.pdf" : str) (JObj [])
           (init true) ("{}" : str)
           (conflict_reply ("The document exists already" : str)) IndexError);
    reflexivity.
Defined.

(** ** Where [index_file] and [index_url] succeed and where they raise *)

(** X18: when the file does not exist, [index_file] answers [False]
    without calling the corpus; and it answers [True] only when the file
    exists and the first upload came back with HTTP 200, or with HTTP 409
    while reindexing is enabled. *)
Theorem index_file_true_only_if
        (W : World) (filename uri : str) (metadata : json) (st : State) :
  (fs_exists W (EFileExists filename :: history st) = false ->
   index_file W filename uri metadata st
   = (Ok false,
      mkState (reindex st) (detected_language st)
              (EFileExists filename :: history st))) /\
  (forall st',
      index_file W filename uri metadata st = (Ok true, st') ->
      fs_exists W (EFileExists filename :: history st) = true /\
      exists m r1,
        dumps W metadata = Ok m /\
        http W (EUpload uri filename m true :: EFileOpen filename
                :: EFileExists filename :: history st) = Ok r1 /\
        (status_code r1 = 200%Z \/
         (status_code r1 = 409%Z /\ reindex st = true))).
Proof.
  unfold index_file. run. split.
  - intros ->. reflexivity.
  - intros st'.
    destruct (fs_exists W (EFileExists filename :: history st));
      cbn [fst snd history reindex detected_language negb]; [|discriminate].
    destruct (fs_io W (EFileOpen filename :: EFileExists filename
                       :: history st)) as [u|e]; cbn [fst snd history reindex detected_language negb]; [|discriminate].
    destruct (dumps W metadata) as [m|e] eqn:Em; cbn [fst snd history reindex detected_language negb]; [|discriminate].
    destruct (http W (EUpload uri filename m true :: EFileOpen filename
                      :: EFileExists filename :: history st))
      as [r1|e] eqn:E1; cbn [fst snd history reindex detected_language negb]; [|discriminate].
    intros H. split; [reflexivity|]. exists m, r1.
    split; [reflexivity|]. split; [exact E1|].
    destruct (status_code r1 =? 409)%Z eqn:E409.
    + right. split; [apply Z.eqb_eq, E409|].
      destruct (reindex st); [reflexivity | discriminate H].
    + left. destruct (status_code r1 =? 200)%Z eqn:E200;
        [apply Z.eqb_eq, E200 | discriminate H].
Qed.

(** X19: an exception leaves [index_url] only from the Markdown,
    reStructuredText and notebook branch, or from the submission that
    follows a successful extraction; the probe, the PDF branch and the
    rendered branch never raise. *)
Theorem index_url_raises_only_from_markup_or_submission
        (W : World) (url : str) (metadata : json) (st st' : State) (e : exn) :
  index_url W url metadata st = (Raise e, st') ->
  (exists content_type st0,
      probe_content_type W url st = (Ok (Continue content_type), st0) /\
      is_pdf content_type url = false /\
      is_markup url = true /\
      extract_markup W url st0 = (Raise e, st'))
  \/
  (exists url' parts title st1,
      extract W url st = (Ok (Continue (url', parts, title)), st1) /\
      index_segments W (slugify W url') parts
                     (repeat (JObj []) (List.length parts)) metadata
                     (match title with
                      | Some t => t
                      | None => "No Title" : str
                      end) st1
      = (Raise e, st')).
Proof.
  intros H. unfold index_url, bind in H.
  destruct (extract W url st) as [[[b|[[url' parts] title]]|e0] st1] eqn:E.
  - discriminate H.
  - right. exists url', parts, title, st1. split; [reflexivity|].
    match type of H with
    | context [index_segments W ?i ?p ?ms ?dm ?t st1] =>
        destruct (index_segments W i p ms dm t st1) as [[[|]|e1] st2]
    end; try discriminate H.
    exact H.
  - left. injection H as -> ->.
    unfold extract, bind in E.
    destruct (guarded_branches_never_raise W url st) as [(f & Hp) _].
    destruct (probe_content_type W url st) as [[[b|ct]|e1] st0] eqn:Ep;
      try discriminate.
    exists ct, st0. split; [reflexivity|].
    unfold is_pdf, is_markup.
    destruct (str_eqb ct ("application/pdf" : str) || ends_with (".pdf" : str) url).
    + destruct (guarded_branches_never_raise W url st0) as (_ & (f' & Hf) & _).
      rewrite E in Hf. discriminate Hf.
    + destruct (ends_with (".md" : str) url || ends_with (".rst" : str) url
                || ends_with (".ipynb" : str) (lower url)).
      * repeat split. exact E.
      * destruct (guarded_branches_never_raise W url st0) as (_ & _ & (f' & Hf)).
        rewrite E in Hf. discriminate Hf.
Qed.

Lemma index_url_raises_only_from_markup_or_submission_witness :
  (exists content_type st0,
      probe_content_type probe_then_unreachable
                         ("http://example.com/README.md" : str) (init true)
      = (Ok (Continue content_type), st0) /\
      is_pdf content_type ("http://example.com/README.md" : str) = false /\
      is_markup ("http://example.com/README.md" : str) = true /\
      extract_markup probe_then_unreachable
                     ("http://example.com/README.md" : str) st0
      = (Raise ConnectionError,
         mkState true []
                 [EGet ("http://example.com/README.md" : str) false;
                  EGet ("http://example.com/README.md" : str) true]))
  \/
  (exists url' parts title st1,
      extract probe_then_unreachable ("http://example.com/README.md" : str)
              (init true)
      = (Ok (Continue (url', parts, title)), st1) /\
      index_segments probe_then_unreachable
                     (slugify probe_then_unreachable url') parts
                     (repeat (JObj []) (List.length parts)) (JObj [])
                     (match title with
                      | Some t => t
                      | None => "No Title" : str
                      end) st1
      = (Raise ConnectionError,
         mkState true []
                 [EGet ("http://example.com/README.md" : str) false;
                  EGet ("http://example.com/README.md" : str) true])).
Proof.
  apply (index_url_raises_only_from_markup_or_submission
           probe_then_unreachable ("http://example.com/README.md" : str)
           (JObj []) (init true)).
  vm_compute. reflexivity.
Defined.

(** * Further properties of [core/utils.py] *)

(** ** [clean_email_text] *)

Lemma sub_angle_runs_filter in_run s :
  sub_angle_runs [] in_run s
  = filter (fun c => negb (has_char c ("<>" : str))) s.
Proof.
  revert in_run. induction s as [|c s IH]; intros in_run; [reflexivity|].
  cbn [sub_angle_runs filter].
  destruct (has_char c ("<>" : str)); cbn [negb].
  - rewrite IH. destruct in_run; reflexivity.
  - rewrite IH. reflexivity.
Qed.

Lemma avoids_angle_brackets s :
  has_char "<" s = false -> has_char ">" s = false ->
  avoids ("<>" : str) s = true.
Proof.
  induction s as [|c s IH]; intros H1 H2; [reflexivity|].
  rewrite has_char_cons in H1, H2.
  apply orb_false_iff in H1. destruct H1 as [Hc1 H1].
  apply orb_false_iff in H2. destruct H2 as [Hc2 H2].
  rewrite avoids_cons, (IH H1 H2), andb_true_r.
  change (has_char c ("<>" : str))
    with (Ascii.eqb "<" c || (Ascii.eqb ">" c || false)).
  rewrite (Ascii.eqb_sym "<" c), (Ascii.eqb_sym ">" c), Hc1, Hc2.
  reflexivity.
Qed.

(** X20: [clean_email_text] answers with the stripped text without its
    [<] and [>]: the other characters are kept, in order, and no angle
    bracket is left.  A text without angle brackets is only stripped. *)
Theorem clean_email_text_has_no_angle_brackets (text : str) :
  clean_email_text text
  = filter (fun c => negb (has_char c ("<>" : str))) (strip text) /\
  has_char "<" (clean_email_text text) = false /\
  has_char ">" (clean_email_text text) = false /\
  (avoids ("<>" : str) text = true -> clean_email_text text = strip text).
Proof.
  unfold clean_email_text. cbv zeta. rewrite sub_angle_runs_filter.
  split; [reflexivity|].
  pose proof (filter_avoids ("<>" : str) (strip text)) as Hav.
  split; [|split].
  - apply (avoids_has_char _ _ _ Hav). reflexivity.
  - apply (avoids_has_char _ _ _ Hav). reflexivity.
  - intros H. apply filter_avoiding.
    unfold strip, avoids. rewrite forallb_forall. intros c Hc.
    apply in_rev in Hc.
    assert (forall s x, In x (lstrip_space s) -> In x s) as Hsub.
    { induction s as [|y s IH]; intros x Hx; [exact Hx|].
      cbn [lstrip_space] in Hx.
      destruct (is_space y); [right; apply IH, Hx | exact Hx]. }
    apply Hsub, in_rev, Hsub in Hc.
    unfold avoids in H. rewrite forallb_forall in H. apply H, Hc.
Qed.

(** X21: the text is stripped before the angle brackets are removed,
    not after: of a text between [<] and [>] that has no angle bracket of
    its own, [clean_email_text] keeps everything, the whitespace at its ends
    included. *)
Theorem clean_email_text_strips_before_it_cleans (s : str) :
  has_char "<" s = false ->
  has_char ">" s = false ->
  clean_email_text (("<" : str) ++ s ++ (">" : str)) = s.
Proof.
  intros H1 H2. unfold clean_email_text. cbv zeta.
  rewrite sub_angle_runs_filter.
  assert (strip (("<" : str) ++ s ++ (">" : str))
          = ("<" : str) ++ s ++ (">" : str)) as ->.
  { unfold strip.
    change (lstrip_space (("<" : str) ++ s ++ (">" : str)))
      with (("<" : str) ++ s ++ (">" : str)).
    rewrite !rev_app_distr.
    change (rev (">" : str)) with (">" : str).
    rewrite <- app_assoc.
    change (lstrip_space ((">" : str) ++ rev s ++ rev ("<" : str)))
      with ((">" : str) ++ rev s ++ rev ("<" : str)).
    rewrite !rev_app_distr, !rev_involutive, <- app_assoc. reflexivity. }
  rewrite !filter_app.
  change (filter (fun c => negb (has_char c ("<>" : str))) ("<" : str))
    with ([] : str).
  change (filter (fun c => negb (has_char c ("<>" : str))) (">" : str))
    with ([] : str).
  rewrite app_nil_r. cbn [app].
  apply filter_avoiding, avoids_angle_brackets; assumption.
Qed.

Lemma clean_email_text_strips_before_it_cleans_witness :
  clean_email_text ("< hello >" : str) = (" hello " : str).
Proof.
  apply (clean_email_text_strips_before_it_cleans (" hello " : str));
    reflexivity.
Defined.

(** ** [clean_urls] *)

Lemma urlparse_raises_value_error chk u e :
  urlparse chk u = Raise e -> e = ValueError.
Proof.
  unfold urlparse, urlsplit.
  destruct (split_scheme (sanitize u)) as [s rest].
  unfold split_netloc.
  destruct (str_eqb (firstn 2 rest) ("//" : str)).
  - destruct (splitnetloc rest 2) as [nl rest2].
    destruct ((has_char "[" nl && negb (has_char "]" nl))
              || (has_char "]" nl && negb (has_char "[" nl))).
    + intros H. injection H as <-. reflexivity.
    + destruct (has_char "[" nl && has_char "]" nl).
      * destruct (check_bracketed_netloc chk nl).
        -- destruct (split_tail "#" rest2) as [x f].
           destruct (split_tail "?" x) as [y q].
           destruct (str_in s uses_params && has_char ";" y);
             [destruct (splitparams y)|]; discriminate.
        -- intros H. injection H as <-. reflexivity.
      * destruct (split_tail "#" rest2) as [x f].
        destruct (split_tail "?" x) as [y q].
        destruct (str_in s uses_params && has_char ";" y);
          [destruct (splitparams y)|]; discriminate.
  - destruct (split_tail "#" rest) as [x f].
    destruct (split_tail "?" x) as [y q].
    destruct (str_in s uses_params && has_char ";" y);
      [destruct (splitparams y)|]; discriminate.
Qed.

Lemma normalize_url_raises_value_error chk u e :
  normalize_url chk u = Raise e -> e = ValueError.
Proof.
  rewrite normalize_url_unfold.
  destruct (urlparse chk (with_scheme u)) as [p|e0] eqn:E; [discriminate|].
  intros H. injection H as <-. apply (urlparse_raises_value_error _ _ _ E).
Qed.

Lemma normalize_each_ok chk urls vs :
  normalize_each chk urls = Ok vs ->
  Forall2 (fun u v => normalize_url chk u = Ok v) urls vs.
Proof.
  revert vs. induction urls as [|u urls IH]; intros vs H; cbn in H.
  - injection H as <-. constructor.
  - destruct (normalize_url chk u) as [v|e] eqn:E; [|discriminate].
    destruct (normalize_each chk urls) as [vs'|e]; [|discriminate].
    injection H as <-. constructor; [exact E | apply IH; reflexivity].
Qed.

Lemma normalize_each_raises chk urls e :
  normalize_each chk urls = Raise e ->
  exists u, In u urls /\ normalize_url chk u = Raise e.
Proof.
  induction urls as [|u urls IH]; intros H; cbn in H; [discriminate|].
  destruct (normalize_url chk u) as [v|e0] eqn:E.
  - destruct (normalize_each chk urls) as [vs'|e1]; [discriminate|].
    injection H as ->. destruct (IH eq_refl) as (u' & Hin & Hu').
    exists u'. split; [right; exact Hin | exact Hu'].
  - injection H as ->. exists u. split; [left; reflexivity | exact E].
Qed.

Lemma Forall2_right {A B} (R : A -> B -> Prop) l l' y :
  Forall2 R l l' -> In y l' -> exists x, In x l /\ R x y.
Proof.
  induction 1 as [|x y' l l' Hxy _ IH]; intros Hin; [destruct Hin|].
  destruct Hin as [<-|Hin].
  - exists x. split; [left; reflexivity | exact Hxy].
  - destruct (IH Hin) as (x' & Hx' & HR).
    exists x'. split; [right; exact Hx' | exact HR].
Qed.

Lemma Forall2_left {A B} (R : A -> B -> Prop) l l' x :
  Forall2 R l l' -> In x l -> exists y, In y l' /\ R x y.
Proof.
  induction 1 as [|x' y l l' Hxy _ IH]; intros Hin; [destruct Hin|].
  destruct Hin as [<-|Hin].
  - exists y. split; [left; reflexivity | exact Hxy].
  - destruct (IH Hin) as (y' & Hy' & HR).
    exists y'. split; [right; exact Hy' | exact HR].
Qed.

(** X22: [clean_urls] answers with the normal forms of its URLs, each
    of them once: the list has no duplicates, a URL is in it exactly when
    it is the normal form of one of the arguments, and it is not longer
    than the set given.  When one of the arguments is a URL that
    [normalize_url] rejects, [clean_urls] raises [ValueError] and answers
    nothing. *)
Theorem clean_urls_lists_each_normal_form_once
        (check_bracketed_host : str -> bool) (urls : list str) :
  match clean_urls check_bracketed_host urls with
  | Ok vs =>
      NoDup vs /\
      (forall v, In v vs <->
                 exists u, In u urls /\
                           normalize_url check_bracketed_host u = Ok v) /\
      (forall u, In u urls ->
                 exists v, normalize_url check_bracketed_host u = Ok v) /\
      List.length vs <= List.length urls
  | Raise e =>
      e = ValueError /\
      exists u, In u urls /\
                normalize_url check_bracketed_host u = Raise ValueError
  end.
Proof.
  unfold clean_urls.
  destruct (normalize_each check_bracketed_host urls) as [vs|e] eqn:E.
  - apply normalize_each_ok in E.
    split; [apply NoDup_nodup|]. split; [|split].
    + intros v. rewrite nodup_In. split.
      * intros Hv. destruct (Forall2_right _ _ _ _ E Hv) as (u & Hu & H).
        exists u. split; assumption.
      * intros (u & Hu & H).
        destruct (Forall2_left _ _ _ _ E Hu) as (v' & Hv' & H').
        congruence.
    + intros u Hu.
      destruct (Forall2_left _ _ _ _ E Hu) as (v' & Hv' & H').
      exists v'. exact H'.
    + rewrite (Forall2_length E).
      apply NoDup_incl_length; [apply NoDup_nodup|].
      intros v Hv. apply nodup_In in Hv. exact Hv.
  - destruct (normalize_each_raises _ _ _ E) as (u & Hu & H).
    pose proof (normalize_url_raises_value_error _ _ _ H) as ->.
    split; [reflexivity|]. exists u. split; assumption.
Qed.

(** ** Queries and fragments *)

Lemma scheme_char_no_mark c :
  is_scheme_char c = true -> has_char c ("?#" : str) = false.
Proof. each_char c; vm_compute; congruence. Qed.

Lemma scheme_avoids_marks s :
  s = [] \/ valid_scheme s -> avoids ("?#" : str) s = true.
Proof.
  intros [->|(_ & H & _)]; [reflexivity|].
  unfold avoids. rewrite forallb_forall in H |- *.
  intros c Hc. rewrite (scheme_char_no_mark c (H c Hc)). reflexivity.
Qed.

Lemma avoids_literal bad (lit s : str) :
  avoids bad lit = true -> avoids bad s = true -> avoids bad (lit ++ s) = true.
Proof. intros H1 H2. rewrite avoids_app, H1, H2. reflexivity. Qed.

(** what [urlunsplit] puts together has no character that neither its
    parts nor its punctuation have *)
Lemma urlunsplit_avoids bad s nl p :
  avoids bad ("/:" : str) = true ->
  avoids bad s = true -> avoids bad nl = true -> avoids bad p = true ->
  avoids bad (urlunsplit (mkSplit s nl p [] [])) = true.
Proof.
  intros Hpunct Hs Hnl Hp.
  assert (avoids bad ("/" : str) = true /\ avoids bad (":" : str) = true
          /\ avoids bad ("//" : str) = true) as (Hsl & Hco & Hss).
  { change ("/:" : str) with ["/"%char; ":"%char] in Hpunct.
    change ("/" : str) with ["/"%char]. change (":" : str) with [":"%char].
    change ("//" : str) with ["/"%char; "/"%char].
    rewrite !avoids_cons in Hpunct.
    apply andb_true_iff in Hpunct. destruct Hpunct as [H1 Hpunct].
    apply andb_true_iff in Hpunct. destruct Hpunct as [H2 _].
    rewrite !avoids_cons, H1, H2. repeat split; reflexivity. }
  unfold urlunsplit.
  change (negb (str_eqb ([] : str) [])) with false. cbv beta iota.
  repeat match goal with
         | |- context [if ?b then _ else _] => destruct b
         end;
    repeat first [ assumption
                 | apply avoids_literal; [assumption|]
                 | rewrite avoids_app; apply andb_true_iff; split ].
Qed.

Lemma urlunsplit_query s nl p q :
  urlunsplit (mkSplit s nl p q [])
  = urlunsplit (mkSplit s nl p [] [])
    ++ (if negb (str_eqb q []) then ("?" : str) ++ q else []).
Proof.
  unfold urlunsplit.
  change (negb (str_eqb ([] : str) [])) with false. cbv beta iota.
  destruct (negb (str_eqb q [])); [reflexivity|].
  rewrite app_nil_r. reflexivity.
Qed.

Lemma has_char_avoids c s : has_char c s = false -> avoids [c] s = true.
Proof. intros H. rewrite avoids_single, H. reflexivity. Qed.

Lemma avoids_has_char_single c s : avoids [c] s = true -> has_char c s = false.
Proof. rewrite avoids_single. destruct (has_char c s); [discriminate | reflexivity]. Qed.

(** X23: the URL [normalize_url] answers with has no question mark and
    no hash: no query and no fragment is left of the URL given. *)
Theorem normalize_url_has_no_query_nor_fragment
        (check_bracketed_host : str -> bool) (url v : str) :
  normalize_url check_bracketed_host url = Ok v ->
  has_char "?" v = false /\ has_char "#" v = false.
Proof.
  rewrite normalize_url_unfold.
  destruct (urlparse check_bracketed_host (with_scheme url)) as [p|e] eqn:E;
    [|discriminate].
  intros H. injection H as <-.
  destruct (urlparse_facts _ _ _ E)
    as (Hs & Hnl & _ & _ & Hq & Hf & _).
  assert (avoids ("?#" : str)
                 (geturl (mkParse (scheme p)
                                  (replace ("www." : str) [] (netloc p))
                                  (path p) [] [] [])) = true) as Hav.
  { unfold geturl, urlunparse.
    change (negb (str_eqb ([] : str) [])) with false. cbv beta iota.
    apply urlunsplit_avoids.
    - reflexivity.
    - apply scheme_avoids_marks, Hs.
    - apply replace_avoids.
      apply (avoids_sub ("/?#" : str)); [|exact Hnl].
      intros c. each_char c; vm_compute; congruence.
    - change ("?#" : str) with ["?"%char; "#"%char].
      unfold avoids. rewrite forallb_forall. intros c Hc.
      cbn [has_char existsb].
      destruct (Ascii.eqb_spec "?" c) as [<-|];
        [apply has_char_In in Hc; congruence|].
      destruct (Ascii.eqb_spec "#" c) as [<-|];
        [apply has_char_In in Hc; congruence|].
      reflexivity. }
  split; apply (avoids_has_char _ _ _ Hav); reflexivity.
Qed.

Lemma normalize_url_has_no_query_nor_fragment_witness :
  has_char "?" ("http://example.com/a" : str) = false /\
  has_char "#" ("http://example.com/a" : str) = false.
Proof.
  apply (normalize_url_has_no_query_nor_fragment
           (fun _ => true) ("http://www.example.com/a?x=1#top" : str)
           ("http://example.com/a" : str)).
  reflexivity.
Defined.

(** *** A URL followed by a query or a fragment *)

Lemma lstrip_app_stop chars u c t :
  has_char c chars = false ->
  lstrip chars (u ++ c :: t) = lstrip chars u ++ c :: t.
Proof.
  intros Hc. induction u as [|x u IH]; cbn [app lstrip].
  - rewrite Hc. reflexivity.
  - destruct (has_char x chars); [exact IH | reflexivity].
Qed.

Lemma sanitize_app_mark u c t :
  has_char c ("?#" : str) = true ->
  sanitize (u ++ c :: t)
  = sanitize u
    ++ c :: filter (fun x => negb (has_char x UNSAFE_URL_BYTES_TO_REMOVE)) t.
Proof.
  intros Hc. rewrite !sanitize_filter.
  assert (has_char c C0_CONTROL_OR_SPACE = false /\
          has_char c UNSAFE_URL_BYTES_TO_REMOVE = false) as [H0 H1].
  { revert Hc. each_char c; vm_compute; intros Hc; split; congruence. }
  rewrite (lstrip_app_stop _ _ _ _ H0), filter_app. cbn [filter].
  rewrite H1. reflexivity.
Qed.

Lemma find_char_app_r c v w :
  find_char c v = None ->
  find_char c (v ++ w)
  = option_map (fun k => List.length v + k) (find_char c w).
Proof.
  induction v as [|x v IH]; intros H; cbn [app List.length].
  - destruct (find_char c w); reflexivity.
  - cbn [find_char] in H |- *. destruct (Ascii.eqb x c); [discriminate|].
    destruct (find_char c v) as [i|] eqn:E; [discriminate|].
    rewrite (IH eq_refl). destruct (find_char c w); reflexivity.
Qed.

Lemma split_scheme_app_mark v c t :
  has_char c ("?#" : str) = true ->
  split_scheme (v ++ c :: t)
  = (fst (split_scheme v), snd (split_scheme v) ++ c :: t).
Proof.
  intros Hc.
  assert (Ascii.eqb c ":" = false /\ is_scheme_char c = false
          /\ is_ascii_alpha c = false) as (Hcolon & Hsc & Hal).
  { revert Hc. each_char c; vm_compute; intros Hc; repeat split; congruence. }
  unfold split_scheme.
  destruct (find_char ":" v) as [i|] eqn:E.
  - rewrite (find_char_app_l _ _ (c :: t) _ E).
    destruct (find_char_Some _ _ _ E) as (_ & _ & Hi).
    rewrite firstn_app.
    replace (i - List.length v) with 0 by lia.
    cbn [firstn]. rewrite app_nil_r.
    destruct v as [|x v]; [cbn in Hi; lia|]. cbn [app].
    destruct ((0 <? i) && is_ascii_alpha x
              && forallb is_scheme_char (firstn i (x :: v))); cbn [fst snd].
    + f_equal. change (x :: v ++ c :: t) with ((x :: v) ++ c :: t).
      rewrite skipn_app.
      replace (S i - List.length (x :: v)) with 0 by lia.
      reflexivity.
    + reflexivity.
  - cbn [fst snd]. rewrite (find_char_app_r _ _ (c :: t) E).
    cbn [find_char]. rewrite Hcolon.
    destruct (find_char ":" t) as [k|]; cbn [option_map]; [|reflexivity].
    rewrite firstn_app_2. cbn [firstn].
    rewrite forallb_app. cbn [forallb]. rewrite Hsc.
    rewrite andb_false_r, andb_false_r. reflexivity.
Qed.

Lemma span_app_stop bad r c t :
  has_char c bad = true ->
  span_avoiding bad (r ++ c :: t) = span_avoiding bad r.
Proof.
  intros Hc. induction r as [|x r IH]; cbn [app span_avoiding].
  - rewrite Hc. reflexivity.
  - destruct (has_char x bad); [reflexivity | rewrite IH; reflexivity].
Qed.

Lemma split_netloc_app_mark chk rest c t :
  has_char c ("?#" : str) = true ->
  split_netloc chk (rest ++ c :: t)
  = match split_netloc chk rest with
    | Ok (nl, rest2) => Ok (nl, rest2 ++ c :: t)
    | Raise e => Raise e
    end.
Proof.
  intros Hc.
  assert (has_char c ("/?#" : str) = true /\ Ascii.eqb c "/" = false)
    as [Hstop Hslash].
  { revert Hc. each_char c; vm_compute; intros Hc; split; congruence. }
  destruct (str_eqb (firstn 2 rest) ("//" : str)) eqn:E.
  - destruct (starts_with_slashes _ E) as (r & ->).
    change (("/"%char :: "/"%char :: r) ++ c :: t)
      with ("/"%char :: "/"%char :: (r ++ c :: t)).
    rewrite !split_netloc_slashes. cbv zeta.
    rewrite (span_app_stop _ _ _ _ Hstop).
    pose proof (span_le ("/?#" : str) r) as Hle.
    rewrite firstn_app, skipn_app.
    replace (span_avoiding ("/?#" : str) r - List.length r) with 0 by lia.
    cbn [firstn skipn]. rewrite app_nil_r.
    destruct (netloc_accepted chk (firstn (span_avoiding ("/?#" : str) r) r));
      reflexivity.
  - rewrite (split_netloc_plain _ _ E).
    apply split_netloc_plain.
    apply str_eqb_neq. apply str_eqb_neq in E.
    change ("//" : str) with ["/"%char; "/"%char] in E |- *.
    destruct rest as [|x [|y rest]]; cbn [app firstn] in E |- *.
    + intros H. injection H as H _. subst c. discriminate Hslash.
    + intros H. injection H as _ H. subst c. discriminate Hslash.
    + exact E.
Qed.

Lemma has_char_filter c f s : has_char c s = false -> has_char c (filter f s) = false.
Proof.
  intros H. destruct (has_char c (filter f s)) eqn:E; [|reflexivity].
  apply has_char_In, filter_In in E. destruct E as [E _].
  apply has_char_In in E. congruence.
Qed.

Lemma has_char_lstrip c chars s :
  has_char c s = false -> has_char c (lstrip chars s) = false.
Proof.
  induction s as [|x s IH]; intros H; [reflexivity|].
  cbn [lstrip]. destruct (has_char x chars); [|exact H].
  apply IH. rewrite has_char_cons in H. apply orb_false_iff in H. apply H.
Qed.

Lemma has_char_suffix c a b : has_char c (a ++ b) = false -> has_char c b = false.
Proof.
  rewrite has_char_app. intros H. apply orb_false_iff in H. apply H.
Qed.

(** what is left of a URL after its scheme and its netloc has no
    character that the URL has not *)
Lemma stages_keep_absent chk u c s rest nl rest2 :
  has_char c u = false ->
  split_scheme (sanitize u) = (s, rest) ->
  split_netloc chk rest = Ok (nl, rest2) ->
  has_char c rest2 = false.
Proof.
  intros Hu Hs Hn.
  assert (has_char c (sanitize u) = false) as Hsan.
  { rewrite sanitize_filter. apply has_char_filter, has_char_lstrip, Hu. }
  assert (has_char c rest = false) as Hrest.
  { destruct (split_scheme_cases (sanitize u))
      as [E | (raw & rest' & Eu & E & _)];
      rewrite E in Hs; injection Hs as _ <-; [exact Hsan|].
    rewrite Eu in Hsan. apply has_char_suffix in Hsan.
    rewrite has_char_cons in Hsan. apply orb_false_iff in Hsan. apply Hsan. }
  destruct (split_netloc_inv _ _ _ _ Hn) as [(_ & _ & ->) | (E & _)];
    [exact Hrest|].
  rewrite E in Hrest.
  change ("/"%char :: "/"%char :: nl ++ rest2)
    with ((["/"%char; "/"%char] ++ nl) ++ rest2) in Hrest.
  apply has_char_suffix in Hrest. exact Hrest.
Qed.

Lemma split_tail_first c a b :
  has_char c a = false -> split_tail c (a ++ c :: b) = (a, b).
Proof. intros H. unfold split_tail. rewrite (split_once_first _ _ _ H). reflexivity. Qed.

(** a fragment put after a URL that has none changes the fragment of the
    parsed URL and nothing else *)
Lemma urlparse_app_fragment chk u t :
  has_char "#" u = false ->
  urlparse chk (u ++ "#"%char :: t)
  = match urlparse chk u with
    | Ok p =>
        Ok (mkParse (scheme p) (netloc p) (path p) (params p) (query p)
              (filter (fun x => negb (has_char x UNSAFE_URL_BYTES_TO_REMOVE)) t))
    | Raise e => Raise e
    end.
Proof.
  intros Hu. unfold urlparse, urlsplit.
  rewrite sanitize_app_mark, split_scheme_app_mark by reflexivity.
  destruct (split_scheme (sanitize u)) as [s rest] eqn:Es. cbn [fst snd].
  rewrite split_netloc_app_mark by reflexivity.
  destruct (split_netloc chk rest) as [[nl rest2]|e] eqn:En; [|reflexivity].
  pose proof (stages_keep_absent _ _ _ _ _ _ _ Hu Es En) as Hr2.
  rewrite (split_tail_first _ _ _ Hr2), (split_tail_absent _ _ Hr2).
  destruct (split_tail "?" rest2) as [x q].
  destruct (str_in s uses_params && has_char ";" x);
    [destruct (splitparams x)|]; reflexivity.
Qed.

(** a query put after a URL that has neither a query nor a fragment
    leaves the scheme, the netloc, the path and the parameters of the parsed
    URL as they are *)
Lemma urlparse_app_query chk u t :
  has_char "?" u = false -> has_char "#" u = false ->
  match urlparse chk u with
  | Ok p =>
      exists q f,
        urlparse chk (u ++ "?"%char :: t)
        = Ok (mkParse (scheme p) (netloc p) (path p) (params p) q f)
  | Raise e => urlparse chk (u ++ "?"%char :: t) = Raise e
  end.
Proof.
  intros Hq Hf. unfold urlparse, urlsplit.
  rewrite sanitize_app_mark, split_scheme_app_mark by reflexivity.
  destruct (split_scheme (sanitize u)) as [s rest] eqn:Es. cbn [fst snd].
  rewrite split_netloc_app_mark by reflexivity.
  destruct (split_netloc chk rest) as [[nl rest2]|e] eqn:En; [|reflexivity].
  pose proof (stages_keep_absent _ _ _ _ _ _ _ Hq Es En) as Hq2.
  pose proof (stages_keep_absent _ _ _ _ _ _ _ Hf Es En) as Hf2.
  set (t' := filter (fun x => negb (has_char x UNSAFE_URL_BYTES_TO_REMOVE)) t).
  assert (exists a f, split_tail "#" (rest2 ++ "?"%char :: t')
                      = (rest2 ++ "?"%char :: a, f)) as (a & f & ->).
  { destruct (split_once_cases "#" t') as [[Hn _] | (a & b & -> & Ha & _)].
    - exists t', []. apply split_tail_absent.
      rewrite has_char_app, has_char_cons, Hf2, Hn. reflexivity.
    - exists a, b.
      change (rest2 ++ "?"%char :: a ++ "#"%char :: b)
        with (rest2 ++ ("?"%char :: a) ++ "#"%char :: b).
      rewrite app_assoc. apply split_tail_first.
      rewrite has_char_app, has_char_cons, Hf2, Ha. reflexivity. }
  rewrite (split_tail_first _ _ _ Hq2).
  rewrite (split_tail_absent _ _ Hf2), (split_tail_absent _ _ Hq2).
  destruct (str_in s uses_params && has_char ";" rest2);
    [destruct (splitparams rest2)|]; eexists _, _; reflexivity.
Qed.

Lemma contains_app_l sub a b :
  contains sub a = true -> contains sub (a ++ b) = true.
Proof.
  induction a as [|c a IH]; intros H.
  - destruct sub; [destruct b; reflexivity | discriminate H].
  - cbn [app contains] in H |- *. apply orb_true_iff in H.
    destruct H as [H|H].
    + destruct (starts_with_inv _ _ H) as (w & Hw).
      change (c :: a ++ b) with ((c :: a) ++ b).
      rewrite Hw, <- app_assoc, starts_with_app. reflexivity.
    + rewrite (IH H). apply orb_true_r.
Qed.

(** X24: [normalize_url] does not look at the query nor at the
    fragment: for a URL that holds [://] and has no question mark and no
    hash, putting a question mark or a hash and anything behind it changes
    neither the normal form nor whether the URL is rejected. *)
Theorem normalize_url_ignores_query_and_fragment
        (check_bracketed_host : str -> bool) (url tail : str) (mark : ascii) :
  contains ("://" : str) url = true ->
  has_char "?" url = false ->
  has_char "#" url = false ->
  mark = "?"%char \/ mark = "#"%char ->
  normalize_url check_bracketed_host (url ++ mark :: tail)
  = normalize_url check_bracketed_host url.
Proof.
  intros Hs Hq Hf Hm. rewrite !normalize_url_unfold. unfold with_scheme.
  rewrite (contains_app_l _ _ (mark :: tail) Hs), Hs. cbn [negb].
  destruct Hm as [-> | ->].
  - pose proof (urlparse_app_query check_bracketed_host url tail Hq Hf) as H.
    destruct (urlparse check_bracketed_host url) as [p|e].
    + destruct H as (q & f & ->). reflexivity.
    + rewrite H. reflexivity.
  - rewrite (urlparse_app_fragment _ _ _ Hf).
    destruct (urlparse check_bracketed_host url) as [p|e]; reflexivity.
Qed.

Lemma normalize_url_ignores_query_and_fragment_witness :
  normalize_url (fun _ => true) ("http://www.example.com/a?x=1&y=2" : str)
  = normalize_url (fun _ => true) ("http://www.example.com/a" : str).
Proof.
  apply (normalize_url_ignores_query_and_fragment
           (fun _ => true) ("http://www.example.com/a" : str)
           ("x=1&y=2" : str) "?"%char);
    first [reflexivity | left; reflexivity].
Defined.

(** ** [remove_anchor] *)

(** X25: [remove_anchor] answers for a URL followed by a fragment what it
    answers for the URL alone, when the URL has no hash of its own: the
    fragment does not show in the answer, and a URL that is rejected is
    rejected with its fragment too. *)
Theorem remove_anchor_ignores_the_fragment
        (check_bracketed_host : str -> bool) (url fragment : str) :
  has_char "#" url = false ->
  remove_anchor check_bracketed_host (url ++ ("#" : str) ++ fragment)
  = remove_anchor check_bracketed_host url.
Proof.
  intros Hf. unfold remove_anchor.
  change (url ++ ("#" : str) ++ fragment) with (url ++ "#"%char :: fragment).
  rewrite (urlparse_app_fragment _ _ _ Hf).
  destruct (urlparse check_bracketed_host url) as [p|e]; reflexivity.
Qed.

Lemma remove_anchor_ignores_the_fragment_witness :
  remove_anchor (fun _ => true) ("http://example.com/a?x=1#top" : str)
  = remove_anchor (fun _ => true) ("http://example.com/a?x=1" : str).
Proof.
  apply (remove_anchor_ignores_the_fragment
           (fun _ => true) ("http://example.com/a?x=1" : str) ("top" : str)).
  reflexivity.
Defined.

Lemma split_tail_suffix c s : exists w, s = w ++ snd (split_tail c s).
Proof.
  unfold split_tail.
  destruct (split_once_cases c s) as [[_ ->] | (a & b & -> & _ & ->)];
    cbn [snd].
  - exists s. symmetry. apply app_nil_r.
  - exists (a ++ [c]). rewrite <- app_assoc. reflexivity.
Qed.

Lemma splitparams_suffix url : exists w, url = w ++ snd (splitparams url).
Proof.
  unfold splitparams.
  destruct (has_char "/" url).
  - destruct (rfind_char "/" url) as [r|];
      [|exists url; symmetry; apply app_nil_r].
    destruct (find_from ";" r url) as [i|];
      [|exists url; symmetry; apply app_nil_r].
    exists (firstn (S i) url). symmetry. apply firstn_skipn.
  - destruct (find_char ";" url) as [i|].
    + exists (firstn (S i) url). symmetry. apply firstn_skipn.
    + exists []. reflexivity.
Qed.

(** the parameters and the query of a parsed URL have no hash *)
Lemma urlparse_no_hash chk u p :
  urlparse chk u = Ok p ->
  has_char "#" (params p) = false /\ has_char "#" (query p) = false.
Proof.
  unfold urlparse, urlsplit. intros H.
  destruct (split_scheme (sanitize u)) as [s rest].
  destruct (split_netloc chk rest) as [[nl rest2]|e]; [|discriminate].
  destruct (split_tail_prefix "#" rest2) as (w1 & _ & H1).
  destruct (split_tail "#" rest2) as [u1 f]. cbn [fst] in H1.
  destruct (split_tail_prefix "?" u1) as (w2 & E2 & _).
  destruct (split_tail_suffix "?" u1) as (w3 & E3).
  destruct (split_tail "?" u1) as [u2 q]. cbn [fst snd] in E2, E3.
  assert (has_char "#" u2 = false) as Hu2
      by (rewrite E2 in H1; apply has_char_prefix in H1; exact H1).
  assert (has_char "#" q = false) as Hq
      by (rewrite E3 in H1; apply has_char_suffix in H1; exact H1).
  cbv beta iota zeta in H.
  destruct (str_in s uses_params && has_char ";" u2).
  - destruct (splitparams_suffix u2) as (w4 & E4).
    destruct (splitparams u2) as [u3 ps]. cbn [snd] in E4.
    injection H as <-. cbn [params query]. split; [|exact Hq].
    rewrite E4 in Hu2. apply has_char_suffix in Hu2. exact Hu2.
  - injection H as <-. cbn [params query]. split; [reflexivity | exact Hq].
Qed.

(** X26: the URL [remove_anchor] answers with has no hash: nothing is
    left of the fragment, nor of the hash before it. *)
Theorem remove_anchor_has_no_hash
        (check_bracketed_host : str -> bool) (url v : str) :
  remove_anchor check_bracketed_host url = Ok v ->
  has_char "#" v = false.
Proof.
  unfold remove_anchor.
  destruct (urlparse check_bracketed_host url) as [p|e] eqn:E; [|discriminate].
  intros H. injection H as <-.
  destruct (urlparse_facts _ _ _ E) as (Hs & Hnl & _ & _ & _ & Hf & _).
  destruct (urlparse_no_hash _ _ _ E) as [Hps Hq].
  assert (forall c, has_char c ["#"%char] = true ->
                    has_char c ("?#" : str) = true) as Hsub1
      by (intros c; each_char c; vm_compute; congruence).
  assert (forall c, has_char c ["#"%char] = true ->
                    has_char c ("/?#" : str) = true) as Hsub2
      by (intros c; each_char c; vm_compute; congruence).
  assert (avoids ["#"%char]
                 (urlunparse (mkParse (scheme p) (netloc p) (path p)
                                      (params p) (query p) [])) = true) as Hav;
    [|apply avoids_has_char_single, Hav].
  unfold urlunparse. cbv beta iota.
  rewrite urlunsplit_query, avoids_app.
  apply andb_true_iff. split.
  - apply urlunsplit_avoids.
    + reflexivity.
    + apply (avoids_sub _ _ _ Hsub1), scheme_avoids_marks, Hs.
    + apply (avoids_sub _ _ _ Hsub2), Hnl.
    + destruct (negb (str_eqb (params p) [])).
      * rewrite !avoids_app, (has_char_avoids _ _ Hf),
          (has_char_avoids _ _ Hps). reflexivity.
      * apply has_char_avoids, Hf.
  - destruct (negb (str_eqb (query p) [])); [|reflexivity].
    rewrite avoids_app, (has_char_avoids _ _ Hq). reflexivity.
Qed.

Lemma remove_anchor_has_no_hash_witness :
  has_char "#" ("http://example.com/a;p?x=1" : str) = false.
Proof.
  apply (remove_anchor_has_no_hash
           (fun _ => true) ("http://example.com/a;p?x=1#top" : str)
           ("http://example.com/a;p?x=1" : str)).
  reflexivity.
Defined.

(** * Properties of [crawlers/fmp_crawler.py] *)

Import Strptime FmpCrawler.

(** ** [is_date_in_range] *)

(** X27: [is_date_in_range] looks at the text before the first space
    only: a date followed by a space and anything, a time of day for
    instance, is judged, or rejected, as the date alone. *)
Theorem is_date_in_range_reads_the_date_part
        (date rest : str) (start_year end_year : Z) :
  has_char " " date = false ->
  is_date_in_range (date ++ (" " : str) ++ rest) start_year end_year
  = is_date_in_range date start_year end_year.
Proof.
  intros H. unfold is_date_in_range, split.
  change (" " : str) with [" "%char].
  rewrite (split_go_first [" "%char] [] date rest).
  - rewrite (split_go_absent [" "%char] [] date)
      by (rewrite contains_single; exact H).
    reflexivity.
  - discriminate.
  - unfold first_after. cbn [removelast]. rewrite app_nil_r, contains_single.
    exact H.
Qed.

Lemma is_date_in_range_reads_the_date_part_witness :
  is_date_in_range ("2023-05-17 10:30:00" : str) 2020 2023
  = is_date_in_range ("2023-05-17" : str) 2020 2023.
Proof.
  apply (is_date_in_range_reads_the_date_part
           ("2023-05-17" : str) ("10:30:00" : str) 2020 2023).
  reflexivity.
Defined.

Lemma digit_cases n :
  (0 <= n <= 9)%Z ->
  n = 0%Z \/ n = 1%Z \/ n = 2%Z \/ n = 3%Z \/ n = 4%Z \/ n = 5%Z \/
  n = 6%Z \/ n = 7%Z \/ n = 8%Z \/ n = 9%Z.
Proof. lia. Qed.

Lemma digit_char_facts n :
  (0 <= n <= 9)%Z ->
  is_digit (digit_char n) = true /\
  is_space (digit_char n) = false /\
  Ascii.eqb (digit_char n) " " = false /\
  Z.of_nat (nat_of_ascii (digit_char n) - 48) = n.
Proof.
  intros H.
  destruct (digit_cases n H) as [->|[->|[->|[->|[->|[->|[->|[->|[->| ->]]]]]]]]];
    repeat split; reflexivity.
Qed.

Lemma go_Y c1 c2 c3 c4 s groups A (k : str -> list (str * str) -> option A) :
  is_digit c1 = true -> is_digit c2 = true ->
  is_digit c3 = true -> is_digit c4 = true ->
  go re_Y (c1 :: c2 :: c3 :: c4 :: s) groups k
  = k s ((("Y" : str), [c1; c2; c3; c4]) :: groups).
Proof.
  intros H1 H2 H3 H4. unfold re_Y, digit. cbn [go].
  rewrite H1, H2, H3, H4. f_equal. f_equal. f_equal.
  cbn [List.length].
  replace (S (S (S (S (List.length s)))) - List.length s) with 4 by lia.
  reflexivity.
Qed.

Lemma int_four_digits a b c d :
  (0 <= a <= 9)%Z -> (0 <= b <= 9)%Z -> (0 <= c <= 9)%Z -> (0 <= d <= 9)%Z ->
  int [digit_char a; digit_char b; digit_char c; digit_char d]
  = Ok (1000 * a + 100 * b + 10 * c + d)%Z.
Proof.
  intros Ha Hb Hc Hd.
  destruct (digit_char_facts a Ha) as (Da & Sa & _ & Va).
  destruct (digit_char_facts b Hb) as (Db & _ & _ & Vb).
  destruct (digit_char_facts c Hc) as (Dc & _ & _ & Vc).
  destruct (digit_char_facts d Hd) as (Dd & Sd & _ & Vd).
  unfold int, strip. cbn [lstrip_space]. rewrite Sa.
  cbn [rev app lstrip_space]. rewrite Sd. cbn [rev app].
  cbn [forallb]. rewrite Da, Db, Dc, Dd. cbn [andb fold_left].
  rewrite Va, Vb, Vc, Vd. f_equal. lia.
Qed.

Lemma int_two_digits n :
  (0 <= n <= 99)%Z -> int (two_digits n) = Ok n.
Proof.
  intros H. unfold two_digits.
  assert (0 <= n / 10 <= 9)%Z as Ha.
  { assert (n / 10 < 10)%Z by (apply Z.div_lt_upper_bound; lia).
    assert (0 <= n / 10)%Z by (apply Z.div_pos; lia). lia. }
  assert (0 <= n mod 10 <= 9)%Z as Hb
      by (pose proof (Z.mod_pos_bound n 10); lia).
  destruct (digit_char_facts _ Ha) as (Da & Sa & _ & Va).
  destruct (digit_char_facts _ Hb) as (Db & Sb & _ & Vb).
  unfold int, strip. cbn [lstrip_space]. rewrite Sa.
  cbn [rev app lstrip_space]. rewrite Sb. cbn [rev app].
  cbn [forallb]. rewrite Da, Db. cbn [andb fold_left].
  rewrite Va, Vb. f_equal.
  pose proof (Z.div_mod n 10). lia.
Qed.

Lemma four_digits_value n :
  (0 <= n <= 9999)%Z ->
  (0 <= n / 1000 <= 9)%Z /\ (0 <= n / 100 mod 10 <= 9)%Z /\
  (0 <= n / 10 mod 10 <= 9)%Z /\ (0 <= n mod 10 <= 9)%Z /\
  (1000 * (n / 1000) + 100 * (n / 100 mod 10) + 10 * (n / 10 mod 10)
   + n mod 10 = n)%Z.
Proof.
  intros H.
  pose proof (Z.mod_pos_bound (n / 100) 10).
  pose proof (Z.mod_pos_bound (n / 10) 10).
  pose proof (Z.mod_pos_bound n 10).
  pose proof (Z.div_mod n 10).
  pose proof (Z.div_mod (n / 10) 10).
  pose proof (Z.div_mod (n / 100) 10).
  assert (n / 10 / 10 = n / 100)%Z as E1
      by (rewrite Z.div_div by lia; reflexivity).
  assert (n / 100 / 10 = n / 1000)%Z as E2
      by (rewrite Z.div_div by lia; reflexivity).
  rewrite E1 in *. rewrite E2 in *.
  assert (n / 1000 < 10)%Z by (apply Z.div_lt_upper_bound; lia).
  assert (0 <= n / 1000)%Z by (apply Z.div_pos; lia).
  lia.
Qed.

Lemma Z_range_cases (P : Z -> Prop) (lo : Z) (k : nat) (n : Z) :
  (lo <= n < lo + Z.of_nat k)%Z ->
  (forall i, i < k -> P (lo + Z.of_nat i)%Z) -> P n.
Proof.
  intros H HP.
  replace n with (lo + Z.of_nat (Z.to_nat (n - lo)))%Z by lia.
  apply HP. lia.
Qed.

(** the pattern after the year, on a month and a day of two digits *)
Lemma go_month_day m d groups :
  (1 <= m <= 12)%Z -> (1 <= d <= 31)%Z ->
  go (Seq (Lit "-") (Seq re_m (Seq (Lit "-") re_d)))
     (("-" : str) ++ two_digits m ++ ("-" : str) ++ two_digits d) groups
     (fun rest found => Some (rest, found))
  = Some ([], (("d" : str), two_digits d) :: (("m" : str), two_digits m)
              :: groups).
Proof.
  intros Hm Hd.
  pattern m. apply Z_range_cases with (lo := 1%Z) (k := 12); [lia|].
  intros i Hi.
  pattern d. apply Z_range_cases with (lo := 1%Z) (k := 31); [lia|].
  intros j Hj.
  do 12 (destruct i as [|i];
         [do 31 (destruct j as [|j]; [reflexivity|]); exfalso; lia|]).
  exfalso. lia.
Qed.

Lemma group_cons name n v groups :
  group name ((n, v) :: groups)
  = if list_eq_dec ascii_dec n name then v else group name groups.
Proof.
  unfold group. cbn [find fst snd].
  destruct (list_eq_dec ascii_dec n name); reflexivity.
Qed.

(** X28: on a date written [YYYY-MM-DD], [is_date_in_range] follows the
    calendar: when the day exists in that month of that year, leap years
    counted, and the year is not 0, it tells whether the year lies between
    the two bounds, both included; otherwise it raises [ValueError]. *)
Theorem is_date_in_range_follows_the_calendar
        (year month day start_year end_year : Z) :
  (0 <= year <= 9999)%Z ->
  (1 <= month <= 12)%Z ->
  (1 <= day <= 31)%Z ->
  is_date_in_range (isoformat year month day) start_year end_year
  = if ((1 <=? year) && (day <=? days_in_month year month))%Z
    then Ok ((start_year <=? year) && (year <=? end_year))%Z
    else Raise ValueError.
Proof.
  intros Hy Hm Hd.
  destruct (four_digits_value year Hy) as (H1 & H2 & H3 & H4 & Hval).
  destruct (digit_char_facts _ H1) as (D1 & _ & S1 & _).
  destruct (digit_char_facts _ H2) as (D2 & _ & S2 & _).
  destruct (digit_char_facts _ H3) as (D3 & _ & S3 & _).
  destruct (digit_char_facts _ H4) as (D4 & _ & S4 & _).
  assert (0 <= month / 10 <= 9)%Z as Hm1
      by (split; [apply Z.div_pos | apply Z.div_le_upper_bound]; lia).
  assert (0 <= month mod 10 <= 9)%Z as Hm2
      by (pose proof (Z.mod_pos_bound month 10); lia).
  assert (0 <= day / 10 <= 9)%Z as Hd1
      by (split; [apply Z.div_pos | apply Z.div_le_upper_bound]; lia).
  assert (0 <= day mod 10 <= 9)%Z as Hd2
      by (pose proof (Z.mod_pos_bound day 10); lia).
  destruct (digit_char_facts _ Hm1) as (_ & _ & Sm1 & _).
  destruct (digit_char_facts _ Hm2) as (_ & _ & Sm2 & _).
  destruct (digit_char_facts _ Hd1) as (_ & _ & Sd1 & _).
  destruct (digit_char_facts _ Hd2) as (_ & _ & Sd2 & _).
  unfold is_date_in_range, split.
  rewrite split_go_absent.
  2:{ change (" " : str) with [" "%char]. rewrite contains_single.
      unfold isoformat, four_digits, two_digits.
      change ("-" : str) with ["-"%char]. cbn [app].
      rewrite !has_char_cons, S1, S2, S3, S4, Sm1, Sm2, Sd1, Sd2.
      reflexivity. }
  cbn [rev app nth_error].
  unfold strptime, re_match, format_regex.
  cbn [go].
  change (isoformat year month day)
    with (digit_char (year / 1000) :: digit_char (year / 100 mod 10)
          :: digit_char (year / 10 mod 10) :: digit_char (year mod 10)
          :: (("-" : str) ++ two_digits month ++ ("-" : str)
              ++ two_digits day)).
  rewrite (go_Y _ _ _ _ _ _ _ _ D1 D2 D3 D4).
  pose proof (go_month_day month day
                [(("Y" : str), four_digits year)] Hm Hd) as Hgo.
  cbn [go] in Hgo. unfold four_digits in Hgo. rewrite Hgo.
  rewrite !group_cons.
  destruct (list_eq_dec ascii_dec ("d" : str) ("Y" : str)) as [E|_];
    [discriminate E|].
  destruct (list_eq_dec ascii_dec ("m" : str) ("Y" : str)) as [E|_];
    [discriminate E|].
  destruct (list_eq_dec ascii_dec ("Y" : str) ("Y" : str)) as [_|E];
    [|contradiction].
  destruct (list_eq_dec ascii_dec ("d" : str) ("m" : str)) as [E|_];
    [discriminate E|].
  destruct (list_eq_dec ascii_dec ("m" : str) ("m" : str)) as [_|E];
    [|contradiction].
  destruct (list_eq_dec ascii_dec ("d" : str) ("d" : str)) as [_|E];
    [|contradiction].
  rewrite (int_four_digits _ _ _ _ H1 H2 H3 H4), Hval.
  rewrite (int_two_digits month), (int_two_digits day) by lia.
  unfold check_date_fields.
  replace (year <=? 9999)%Z with true by (symmetry; apply Z.leb_le; lia).
  replace (1 <=? month)%Z with true by (symmetry; apply Z.leb_le; lia).
  replace (month <=? 12)%Z with true by (symmetry; apply Z.leb_le; lia).
  replace (1 <=? day)%Z with true by (symmetry; apply Z.leb_le; lia).
  rewrite !andb_true_r.
  destruct ((1 <=? year)%Z && (day <=? days_in_month year month)%Z);
    reflexivity.
Qed.

Lemma is_date_in_range_follows_the_calendar_witness :
  is_date_in_range ("2024-02-29" : str) 2020 2023 = Ok false.
Proof.
  apply (is_date_in_range_follows_the_calendar 2024 2 29 2020 2023); lia.
Defined.

(** ** [FmpCrawler.index_doc] *)

(** X29: [FmpCrawler.index_doc] never raises: it answers what
    [index_document] answers, and [False] when [index_document] raises, as
    it does when the delete call or the resubmission of a reindexing fails;
    it makes the calls of [index_document] and no other. *)
Theorem index_doc_never_raises (W : World) (doc : Document) (st : State) :
  exists b,
    index_doc W doc st = (Ok b, snd (index_document W doc st)) /\
    match fst (index_document W doc st) with
    | Ok succeeded => b = succeeded
    | Raise _ => b = false
    end.
Proof.
  unfold index_doc, try_except, bind, ret.
  destruct (index_document W doc st) as [[succeeded|e] st'];
    eexists; split; reflexivity.
Qed.

(** ** The sections of a financial report *)

Lemma for_each_all {A B} (P : B -> Prop) (body : A -> outcome (list B)) l r :
  (forall a appended, In a l -> body a = Ok appended -> Forall P appended) ->
  for_each body l = Ok r -> Forall P r.
Proof.
  revert r. induction l as [|a l IH]; intros r Hbody H; cbn in H.
  - injection H as <-. constructor.
  - destruct (body a) as [appended|e] eqn:Ea; [|discriminate].
    destruct (for_each body l) as [rest|e]; [|discriminate].
    injection H as <-. apply Forall_app. split.
    + apply (Hbody a); [left; reflexivity | exact Ea].
    + apply IH; [|reflexivity].
      intros a' app' Hin. apply Hbody. right. exact Hin.
Qed.

Lemma join_length_sep sep sep' parts :
  List.length sep = List.length sep' ->
  List.length (join sep parts) = List.length (join sep' parts).
Proof.
  intros H. induction parts as [|p parts IH]; [reflexivity|].
  destruct parts as [|q parts]; [reflexivity|].
  change (join sep (p :: q :: parts)) with (p ++ sep ++ join sep (q :: parts)).
  change (join sep' (p :: q :: parts)) with (p ++ sep' ++ join sep' (q :: parts)).
  rewrite !length_app, H, IH. reflexivity.
Qed.

Lemma long_strings_long values lines :
  long_strings values = Ok lines ->
  Forall (fun line => 10 <= List.length line) lines.
Proof.
  unfold long_strings. destruct (py_iter values) as [vs|e]; [|discriminate].
  intros H. injection H as <-.
  apply Forall_flat_map, Forall_forall. intros v _.
  destruct v as [| | |s| |]; try (cbv beta iota; constructor).
  change (Forall (fun line => 10 <= List.length line)
                 (if truthy (JStr s) && (10 <=? List.length s)
                  then [s] else [])).
  destruct (truthy (JStr s) && (10 <=? List.length s)) eqn:E; constructor.
  - apply andb_true_iff in E. destruct E as [_ E]. apply Nat.leb_le, E.
  - constructor.
Qed.

Lemma sections_of_item_made key item sections :
  sections_of_item key item = Ok sections -> Forall report_section sections.
Proof.
  unfold sections_of_item. destruct item as [title values].
  destruct (long_strings values) as [lines|e] eqn:E; [|discriminate].
  destruct ((0 <? List.length lines)
            && (100 <? List.length (join (" " : str) lines))) eqn:Hc;
    intros H; injection H as <-; constructor; [|constructor].
  apply andb_true_iff in Hc. destruct Hc as [H0 H100].
  apply Nat.ltb_lt in H0, H100.
  unfold report_section. cbn [sec_text sec_title sec_metadataJson].
  split; [|split; [reflexivity|]].
  - rewrite (join_length_sep NEWLINE (" " : str)); [exact H100 | reflexivity].
  - exists key, title, lines. repeat split.
    + intros ->. cbn in H0. lia.
    + apply (long_strings_long _ _ E).
Qed.


